(** * Mindmap realtime node handlers: a shallow embedding

    The development follows [useMindmapRealtimeNodes]: the handlers for
    remote deletions, batch updates and single-node updates, the render
    helper with its editor preserve/restore, and the deferred size
    callbacks.  Program-owned data (the element list, the creation-order
    index, the renderer's node list and caches, the editing session) is
    explicit state.  Everything behind a collaborator (editing widgets,
    the DOM, the layout engine's render) is environment: queries are
    answered by observations passed in, commands are appended to a
    trace.  The handler for remote editing marks, the socket wrapper
    of the client with its cookie lookup, and the UUID generator follow
    in parts of their own. *)

From Stdlib Require Import Ascii QArith Qround.
From stdpp Require Import gmap strings list fin_maps.

Local Open Scope Z_scope.

(** ** Data model *)

Record Rect := mkRect { width : Z; height : Z }.

(** The [data] object of an element.  [color] stands for the keys the
    handlers never write.  Every element and every patch is taken to
    carry a [data] object; a key that is missing is [None]. *)
Record NodeData := mkData {
  label : option string;
  completed : option bool;
  rect : option Rect;
  order : option Z;
  color : option string;
  fixedWidth : option Z;
  fixedHeight : option Z
}.

Definition emptyData : NodeData := mkData None None None None None None None.

(** An entry of [elements.value]: nodes and edges live in one array and
    are told apart by the truthiness of [source] and [target]. *)
Record Element := mkElement {
  el_id : string;
  el_source : option string;
  el_target : option string;
  el_data : NodeData
}.

(** Payload shapes: a node patch [{id, data}] and an edge
    [{id, source, target}]. *)
Record Node := mkNode { n_id : string; n_data : NodeData }.
Record Edge := mkEdge { e_id : string; e_source : string; e_target : string }.

#[global] Instance Rect_eq_dec : EqDecision Rect.
Proof. solve_decision. Defined.
#[global] Instance NodeData_eq_dec : EqDecision NodeData.
Proof. solve_decision. Defined.
#[global] Instance Element_eq_dec : EqDecision Element.
Proof. solve_decision. Defined.

(** [{ ...remoteNode }] and [{ ...remoteEdge }] as elements. *)
Definition of_node (n : Node) : Element :=
  mkElement (n_id n) None None (n_data n).
Definition of_edge (e : Edge) : Element :=
  mkElement (e_id e) (Some (e_source e)) (Some (e_target e)) emptyData.

(** JS truthiness of a string and of a possibly missing string. *)
Definition truthy_str (s : string) : bool := bool_decide (s ≠ "").
Definition truthy (o : option string) : bool :=
  match o with Some s => truthy_str s | None => false end.

(** [!el.source && !el.target] and [el.source && el.target]. *)
Definition is_node (el : Element) : bool :=
  negb (truthy (el_source el)) && negb (truthy (el_target el)).
Definition is_edge (el : Element) : bool :=
  truthy (el_source el) && truthy (el_target el).

(** The computed [nodes] and [edges] views of [elements.value], with the
    predicates the handlers themselves use on [elements.value]. *)
Definition nodes_of (els : list Element) : list Element :=
  filter (λ el, is_node el) els.
Definition edges_of (els : list Element) : list Element :=
  filter (λ el, is_edge el) els.

(** [ids.includes(x)] for a possibly missing [x]. *)
Definition includes (ids : list string) (o : option string) : bool :=
  match o with Some x => bool_decide (x ∈ ids) | None => false end.

(** [x === y] where [y] may be null or undefined. *)
Definition same_id (x : string) (o : option string) : bool :=
  bool_decide (o = Some x).

(** Commands sent to the collaborators, in the order they are issued. *)
Inductive Effect :=
  | SaveSnapshot (force : bool)
  | SetData
  | Render
  | Sleep (ms : Z)
  | AnimationFrame
  | SetTextSelection (nodeId : string) (from to : Z)
  | FocusEnd (nodeId : string)
  | SetContent (nodeId : string) (content : string)
  | MountNodeEditor (nodeId : string) (value : string)
  | ApplyStrikethrough (nodeId : string) (flag : bool)
  | DomSize (nodeId : string) (w h : Z)
  | DomWidth (nodeId : string) (w : Z)
  | DomHeight (nodeId : string) (h : Z).

#[global] Instance Effect_eq_dec : EqDecision Effect.
Proof. solve_decision. Defined.

(** The fields of the renderer object that the handlers read and write
    directly. *)
Record Renderer := mkRenderer {
  r_nodes : list Element;
  r_edges : list Element;
  r_order : gmap string Z;
  nodeSizeCache : gmap string Rect;
  positions : option (gmap string (Z * Z))
}.

Record State := mkState {
  elements : list Element;
  nodeCreationOrder : gmap string Z;
  selectedNode : option string;
  editingNode : option string;
  isSaving : bool;
  editingStartTime : option Z;
  changedNodeIds : gset string;
  renderer : option Renderer;
  trace : list Effect
}.

(** The closure parameters that stay fixed. *)
Record Ctx := mkCtx {
  entityName : string;
  currentUser : string;
  hasSaveSnapshot : bool;
  hasApplyStrikethrough : bool
}.

Definition set_elements (els : list Element) (st : State) : State :=
  mkState els (nodeCreationOrder st) (selectedNode st) (editingNode st)
    (isSaving st) (editingStartTime st) (changedNodeIds st) (renderer st)
    (trace st).
Definition set_order (o : gmap string Z) (st : State) : State :=
  mkState (elements st) o (selectedNode st) (editingNode st)
    (isSaving st) (editingStartTime st) (changedNodeIds st) (renderer st)
    (trace st).
Definition clear_focus (st : State) : State :=
  mkState (elements st) (nodeCreationOrder st) None None
    (isSaving st) (editingStartTime st) (changedNodeIds st) (renderer st)
    (trace st).
Definition set_saving (b : bool) (st : State) : State :=
  mkState (elements st) (nodeCreationOrder st) (selectedNode st)
    (editingNode st) b (editingStartTime st) (changedNodeIds st)
    (renderer st) (trace st).
Definition set_editing (o : option string) (st : State) : State :=
  mkState (elements st) (nodeCreationOrder st) (selectedNode st) o
    (isSaving st) (editingStartTime st) (changedNodeIds st) (renderer st)
    (trace st).
Definition set_renderer (r : option Renderer) (st : State) : State :=
  mkState (elements st) (nodeCreationOrder st) (selectedNode st)
    (editingNode st) (isSaving st) (editingStartTime st)
    (changedNodeIds st) r (trace st).
Definition emit (es : list Effect) (st : State) : State :=
  mkState (elements st) (nodeCreationOrder st) (selectedNode st)
    (editingNode st) (isSaving st) (editingStartTime st)
    (changedNodeIds st) (renderer st) (trace st ++ es).

(** Run [f] on the renderer object when there is one. *)
Definition with_renderer (f : Renderer → Renderer) (st : State) : State :=
  set_renderer (f <$> renderer st) st.

(** ** The environment *)

Record Selection := mkSelection {
  sel_from : Z; sel_to : Z; sel_anchor : Z; sel_head : Z
}.

(** What an editor instance shows when it is queried. [domActive] is
    [document.activeElement === editorInstance.view.dom]. *)
Record Editor := mkEditor {
  isDestroyed : bool;
  hasView : bool;
  hasDom : bool;
  isFocused : bool;
  domActive : bool;
  selection : Selection;
  docSize : Z;
  docContent : string;
  html : string
}.

(** The node group of one node in the drawing: whether its
    [.node-rect] and [.node-text] children exist. *)
Record Group := mkGroup {
  g_hasRect : bool;
  g_hasText : bool
}.

Record World := mkWorld {
  (** [renderer.getEditorInstance(id)] at a direct query *)
  w_editor : string → option Editor;
  (** the k-th answer of [getEditorInstance] inside a polling loop *)
  w_poll : nat → option Editor;
  (** [editorInstance.isFocused] after k focus commands *)
  w_focused : nat → bool;
  (** [renderer.g.select('[data-node-id=...]')] *)
  w_group : string → option Group;
  (** the k-th look at the node's [.node-editor-container]: absent, or
      present with or without children *)
  w_container : nat → option bool;
  (** the container has children at the k-th round of a polling loop *)
  w_pollContainer : nat → bool;
  (** [renderer.vueApps.get(id)] is there after a mount *)
  w_vueApp : bool;
  (** [scrollWidth || offsetWidth || 0] and [scrollHeight ||
      offsetHeight || 0] of the editor content *)
  w_scroll : Z * Z;
  (** [renderer.estimateNodeSize(node)] *)
  w_estimate : Node → Rect;
  (** every image is complete with a natural height *)
  w_imagesLoaded : bool;
  (** [calculateNodeHeightWithImages(...).height] *)
  w_imageHeight : Z
}.

(** [editorInstance && !editorInstance.isDestroyed && editorInstance.view] *)
Definition usable (o : option Editor) : bool :=
  match o with
  | Some e => negb (isDestroyed e) && hasView e
  | None => false
  end.

(** ** Render helpers *)

Record Preserved := mkPreserved {
  p_nodeId : string;
  p_isFocused : bool;
  p_selection : Selection;
  p_content : string
}.

Definition preserveEditorState (w : World) (r : option Renderer)
    (nodeId : option string) : option Preserved :=
  match r, nodeId with
  | Some _, Some n =>
      if negb (truthy_str n) then None else
      match w_editor w n with
      | Some e =>
          if isDestroyed e || negb (hasView e) then None
          else Some (mkPreserved n (isFocused e || domActive e)
                       (selection e) (docContent e))
      | None => None
      end
  | _, _ => None
  end.

(** The wait loop of [restoreEditorState]: [fuel] is [maxAttempts -
    attempts]. Each round sleeps 50 ms and one animation frame before it
    asks for the editor again. *)
Fixpoint awaitEditor (w : World) (fuel attempts : nat)
    : list Effect * option Editor :=
  match fuel with
  | O => ([], None)
  | S f =>
      let inst := w_poll w attempts in
      if usable inst then ([Sleep 50; AnimationFrame], inst)
      else
        let '(es, r) := awaitEditor w f (S attempts) in
        (Sleep 50 :: AnimationFrame :: es, r)
  end.

(** [while (focusAttempts < 3 && !editorInstance.isFocused)]; [fuel] is
    [3 - focusAttempts]. *)
Fixpoint refocus (w : World) (nodeId : string) (fuel focusAttempts : nat)
    : list Effect :=
  match fuel with
  | O => []
  | S f =>
      if w_focused w focusAttempts then []
      else FocusEnd nodeId :: Sleep 50 :: refocus w nodeId f (S focusAttempts)
  end.

Definition clamp (x docSz : Z) : Z := Z.max 0 (Z.min x docSz).

Definition restoreEditorState (w : World) (r : option Renderer)
    (preserved : option Preserved) : list Effect :=
  match r, preserved with
  | Some _, Some p =>
      let '(waited, inst) := awaitEditor w 10 0 in
      match inst with
      | None => waited
      | Some e =>
          let validFrom := clamp (sel_from (p_selection p)) (docSize e) in
          let validTo := clamp (sel_to (p_selection p)) (docSize e) in
          let selected :=
            if bool_decide (validFrom ≠ validTo) && bool_decide (0 ≤ validFrom)
               && bool_decide (validTo ≤ docSize e)
            then [SetTextSelection (p_nodeId p) validFrom validTo] else [] in
          let focused :=
            if p_isFocused p
            then Sleep 100 :: refocus w (p_nodeId p) 3 0 else [] in
          waited ++ selected ++ focused
      end
  | _, _ => []
  end.

Definition safeRender (w : World) (st : State) (force : bool)
    : State * bool :=
  match renderer st with
  | None => (st, false)
  | Some r =>
      let hasAnyNodeBeingEdited := truthy (editingNode st) in
      if hasAnyNodeBeingEdited && negb force then (st, false)
      else
        let preservedState :=
          if force && hasAnyNodeBeingEdited
          then preserveEditorState w (Some r) (editingNode st) else None in
        let st1 := emit [Render] st in
        (emit (restoreEditorState w (Some r) preservedState) st1, true)
  end.

Definition updateRendererDataWithoutRender (nodes edges : list Element)
    (nodeCreationOrder : gmap string Z) (r : Renderer) : Renderer :=
  mkRenderer nodes edges nodeCreationOrder (nodeSizeCache r) (positions r).

(** Modelled from the spec: [renderer.setData] is the layout
    collaborator's [setCollectionData(nodes, edges, orderIndex)], whose
    body is not part of these sources. It stores the three collections;
    the layout pass it starts on its own is recorded as [SetData]. *)
Definition setData (nodes edges : list Element)
    (nodeCreationOrder : gmap string Z) (st : State) : State :=
  emit [SetData]
    (with_renderer
       (updateRendererDataWithoutRender nodes edges nodeCreationOrder) st).

(** ** Remote deletions *)

Record DeletedPayload := mkDeleted {
  d_entity_name : string;
  d_modified_by : string;
  d_node_ids : list string
}.

(** [nodes.value.filter(n => !ids.includes(n.id))] and
    [edges.value.filter(e => !ids.includes(e.source) &&
    !ids.includes(e.target))]. *)
Definition surviving_nodes (ids : list string) (els : list Element) :=
  filter (λ n, negb (includes ids (Some (el_id n)))) (nodes_of els).
Definition surviving_edges (ids : list string) (els : list Element) :=
  filter (λ e, negb (includes ids (el_source e))
               && negb (includes ids (el_target e))) (edges_of els).

(** The synchronous part of [handleRealtimeNodesDeleted]. The second
    component carries [newNodes] and [newEdges] to the [nextTick]
    callback when one is scheduled. The snapshot request, itself deferred
    by [nextTick], is recorded at once. *)
Definition nodesDeleted_sync (ctx : Ctx) (st : State)
    (payload : option DeletedPayload)
    : State * option (list Element * list Element) :=
  match payload with
  | None => (st, None)
  | Some p =>
    if bool_decide (d_entity_name p ≠ entityName ctx) then (st, None) else
    if bool_decide (d_modified_by p = currentUser ctx) then (st, None) else
    if isSaving st then (st, None) else
    let nodeIdsToDelete := d_node_ids p in
    if bool_decide (nodeIdsToDelete = []) then (st, None) else
    let st1 :=
      if includes nodeIdsToDelete (editingNode st)
         || includes nodeIdsToDelete (selectedNode st)
      then clear_focus st else st in
    let newNodes := surviving_nodes nodeIdsToDelete (elements st) in
    let newEdges := surviving_edges nodeIdsToDelete (elements st) in
    let st2 :=
      set_order (foldl (λ m k, delete k m) (nodeCreationOrder st1)
                   nodeIdsToDelete) st1 in
    let st3 := set_elements (newNodes ++ newEdges) st2 in
    let st4 :=
      if hasSaveSnapshot ctx then emit [SaveSnapshot true] st3 else st3 in
    match renderer st4 with
    | None => (st4, None)
    | Some _ =>
        if truthy (editingNode st4)
        then (with_renderer
                (updateRendererDataWithoutRender newNodes newEdges
                   (nodeCreationOrder st4)) st4, None)
        else (st4, Some (newNodes, newEdges))
    end
  end.

Definition nodesDeleted_tick (w : World)
    (k : list Element * list Element) (st : State) : State :=
  (safeRender w (setData k.1 k.2 (nodeCreationOrder st) st) false).1.

(** The handler with its callback run before anything else happens. *)
Definition handleRealtimeNodesDeleted (ctx : Ctx) (w : World) (st : State)
    (payload : option DeletedPayload) : State :=
  let '(st1, k) := nodesDeleted_sync ctx st payload in
  match k with
  | Some k => nodesDeleted_tick w k st1
  | None => st1
  end.

(** The event passes every gate of [handleRealtimeNodesDeleted]. *)
Definition deletion_accepted (ctx : Ctx) (st : State)
    (payload : option DeletedPayload) : bool :=
  match payload with
  | Some p =>
      bool_decide (d_entity_name p = entityName ctx)
      && bool_decide (d_modified_by p ≠ currentUser ctx)
      && negb (isSaving st)
      && bool_decide (d_node_ids p ≠ [])
  | None => false
  end.

(** ** Field updates on [data] objects *)

Definition data_set_label (l : option string) (d : NodeData) : NodeData :=
  mkData l (completed d) (rect d) (order d) (color d)
    (fixedWidth d) (fixedHeight d).
Definition data_set_completed (c : option bool) (d : NodeData) : NodeData :=
  mkData (label d) c (rect d) (order d) (color d)
    (fixedWidth d) (fixedHeight d).
Definition data_set_rect (r : option Rect) (d : NodeData) : NodeData :=
  mkData (label d) (completed d) r (order d) (color d)
    (fixedWidth d) (fixedHeight d).
Definition data_set_fixed (fw fh : option Z) (d : NodeData) : NodeData :=
  mkData (label d) (completed d) (rect d) (order d) (color d) fw fh.

Definition el_set_data (d : NodeData) (el : Element) : Element :=
  mkElement (el_id el) (el_source el) (el_target el) d.
Definition el_map_data (f : NodeData → NodeData) (el : Element) : Element :=
  el_set_data (f (el_data el)) el.

(** [{ ...a, ...b }] on data objects: every key present in [b] wins. *)
Definition or_else {A} (x y : option A) : option A :=
  match x with Some _ => x | None => y end.
Definition data_spread (a b : NodeData) : NodeData :=
  mkData (or_else (label b) (label a)) (or_else (completed b) (completed a))
    (or_else (rect b) (rect a)) (or_else (order b) (order a))
    (or_else (color b) (color a)) (or_else (fixedWidth b) (fixedWidth a))
    (or_else (fixedHeight b) (fixedHeight a)).

(** [{ ...localNode, ...remoteNode }]: [id] and [data] come from the
    patch, the other keys stay. *)
Definition el_spread (localNode : Element) (remoteNode : Node) : Element :=
  mkElement (n_id remoteNode) (el_source localNode) (el_target localNode)
    (n_data remoteNode).

(** [string || fallback] on labels: an absent or empty label is falsy. *)
Definition label_or (l fallback : option string) : option string :=
  if truthy l then l else fallback.

(** [arr.findIndex(p)], [arr.find(p)], and an in-place write to the
    object that [arr.find(p)] returns. *)
Fixpoint findIndex {A} (p : A → bool) (l : list A) : option nat :=
  match l with
  | [] => None
  | x :: l' => if p x then Some O else S <$> findIndex p l'
  end.
Fixpoint find_first {A} (p : A → bool) (l : list A) : option A :=
  match l with
  | [] => None
  | x :: l' => if p x then Some x else find_first p l'
  end.
Fixpoint update_first {A} (p : A → bool) (f : A → A) (l : list A) : list A :=
  match l with
  | [] => []
  | x :: l' => if p x then f x :: l' else x :: update_first p f l'
  end.

Definition has_id (i : string) (el : Element) : bool :=
  bool_decide (el_id el = i).

(** The label the store holds for a node id: that of the first node
    element with this id. *)
Definition store_node (els : list Element) (i : string) : option Element :=
  find_first (λ el, has_id i el && is_node el) els.
Definition store_label (els : list Element) (i : string) : option string :=
  store_node els i ≫= λ el, label (el_data el).

(** ** Position invalidation *)

Definition r_set_positions (p : option (gmap string (Z * Z)))
    (r : Renderer) : Renderer :=
  mkRenderer (r_nodes r) (r_edges r) (r_order r) (nodeSizeCache r) p.
Definition r_set_sizes (c : gmap string Rect) (r : Renderer) : Renderer :=
  mkRenderer (r_nodes r) (r_edges r) (r_order r) c (positions r).
Definition r_set_nodes (ns : list Element) (r : Renderer) : Renderer :=
  mkRenderer ns (r_edges r) (r_order r) (nodeSizeCache r) (positions r).

(** [clearChildrenPositions]: a recursive closure over
    [elements.value] with no visited set. [fuel] bounds the depth of the
    recursion; [None] means the bound was reached. *)
Fixpoint clearChildrenPositions (fuel : nat) (els : list Element)
    (nodeId : string) (pos : gmap string (Z * Z))
    : option (gmap string (Z * Z)) :=
  match fuel with
  | O => None
  | S f =>
      let allEdges := edges_of els in
      let childEdges :=
        filter (λ e, same_id nodeId (el_source e)) allEdges in
      foldl (λ acc childEdge,
               pos' ← acc;
               match el_target childEdge with
               | Some t => clearChildrenPositions f els t (delete t pos')
               | None => Some pos'
               end)
        (Some pos) childEdges
  end.

(** [positions.delete(id); clearChildrenPositions(id)]. *)
Definition clearSubtree (fuel : nat) (els : list Element) (nodeId : string)
    (pos : gmap string (Z * Z)) : option (gmap string (Z * Z)) :=
  clearChildrenPositions fuel els nodeId (delete nodeId pos).

(** ** Remote batch updates *)

Record BatchPayload := mkBatch {
  b_entity_name : string;
  b_modified_by : string;
  b_nodes : list Node;
  b_edges : option (list Edge)
}.

(** What the [nextTick] callback of the batch handler closes over. *)
Record BatchCont := mkBatchCont {
  bk_remoteNodeUpdates : list Node;
  bk_edges : option (list Edge);
  bk_editingNodeId : option string;
  bk_selectedNodeId : option string;
  bk_hasNewNodes : bool;
  bk_updatedNodes : list Element;
  bk_newNodes : list Node
}.

Definition set_order_of (n : Node) (m : gmap string Z) : gmap string Z :=
  match order (n_data n) with
  | Some o => <[n_id n := o]> m
  | None => m
  end.

Definition find_patch (remoteNodeUpdates : list Node) (i : string)
    : option Node :=
  find_first (λ n, bool_decide (n_id n = i)) remoteNodeUpdates.

(** [remoteNodeIds.every(id => id === editingNodeId || id ===
    selectedNodeId)] on a non-empty list. *)
Definition allNodesAreBeingEdited (remoteNodeIds : list string)
    (editingNodeId selectedNodeId : option string) : bool :=
  bool_decide (remoteNodeIds ≠ [])
  && forallb (λ i, same_id i editingNodeId || same_id i selectedNodeId)
       remoteNodeIds.

Definition is_new (els : list Element) (n : Node) : bool :=
  bool_decide (n_id n ∉ el_id <$> nodes_of els).

(** The new edge list of a batch that carries edges. *)
Definition batch_edges (els : list Element) (payloadEdges : list Edge)
    : list Element :=
  let targetsToUpdate :=
    filter (λ t, truthy_str t) (e_target <$> payloadEdges) in
  filter (λ e, negb (includes targetsToUpdate (el_target e))) (edges_of els)
  ++ (of_edge <$> payloadEdges).

Definition nodesBatchUpdate_sync (ctx : Ctx) (st : State)
    (payload : option BatchPayload) : State * option BatchCont :=
  match payload with
  | None => (st, None)
  | Some p =>
    if bool_decide (b_entity_name p ≠ entityName ctx) then (st, None) else
    if bool_decide (b_modified_by p = currentUser ctx) then (st, None) else
    if isSaving st then (st, None) else
    let remoteNodeUpdates := b_nodes p in
    if bool_decide (remoteNodeUpdates = []) then (st, None) else
    let editingNodeId := editingNode st in
    let selectedNodeId := selectedNode st in
    let remoteNodeIds := n_id <$> remoteNodeUpdates in
    if allNodesAreBeingEdited remoteNodeIds editingNodeId selectedNodeId
    then (st, None) else
    let els := elements st in
    let hasNewNodes := existsb (is_new els) remoteNodeUpdates in
    let updatedNodes :=
      (λ localNode,
         match find_patch remoteNodeUpdates (el_id localNode) with
         | Some remoteNode => el_spread localNode remoteNode
         | None => localNode
         end) <$> nodes_of els in
    let order1 :=
      foldl (λ m localNode,
               match find_patch remoteNodeUpdates (el_id localNode) with
               | Some remoteNode => set_order_of remoteNode m
               | None => m
               end) (nodeCreationOrder st) (nodes_of els) in
    let newNodes := filter (λ n, is_new els n) remoteNodeUpdates in
    let order2 := foldl (λ m n, set_order_of n m) order1 newNodes in
    let updatedNodes := updatedNodes ++ (of_node <$> newNodes) in
    let updatedEdges :=
      match b_edges p with
      | Some payloadEdges => batch_edges els payloadEdges
      | None => edges_of els
      end in
    let st1 := set_elements (updatedNodes ++ updatedEdges)
                 (set_order order2 st) in
    let st2 :=
      if hasSaveSnapshot ctx && hasNewNodes
      then emit [SaveSnapshot true] st1 else st1 in
    match renderer st2 with
    | None => (st2, None)
    | Some _ =>
        (st2, Some (mkBatchCont remoteNodeUpdates (b_edges p) editingNodeId
                      selectedNodeId hasNewNodes updatedNodes newNodes))
    end
  end.

(** The write-through to [d3Node.data] in the branch that does not
    render. *)
Definition batch_patch_d3 (updatedNode : Node) (d : NodeData) : NodeData :=
  let d1 :=
    if truthy (label (n_data updatedNode))
    then data_set_label (label (n_data updatedNode)) d else d in
  let d2 :=
    match completed (n_data updatedNode) with
    | Some c => data_set_completed (Some c) d1
    | None => d1
    end in
  match rect (n_data updatedNode) with
  | Some rc =>
      data_set_fixed (Some (width rc)) (Some (height rc))
        (data_set_rect (Some rc) d2)
  | None => d2
  end.

(** The position invalidation of the batch callback: for every payload
    edge, its target and the target's subtree. *)
Definition batch_clear_positions (fuel : nat) (els : list Element)
    (payloadEdges : list Edge) (pos : gmap string (Z * Z))
    : option (gmap string (Z * Z)) :=
  foldl (λ acc edge, pos' ← acc; clearSubtree fuel els (e_target edge) pos')
    (Some pos) payloadEdges.

(** The cache invalidation that opens the batch callback. [None]: the
    subtree recursion did not return within [fuel]. *)
Definition batch_invalidate (fuel : nat) (k : BatchCont)
    (els : list Element) (r : Renderer) : option Renderer :=
  let sizes :=
    foldl (λ m n, delete (n_id n) m) (nodeSizeCache r)
      (bk_remoteNodeUpdates k) in
  let r1 := r_set_sizes sizes r in
  match bk_edges k, positions r1 with
  | Some (e :: es), Some pos =>
      pos' ← batch_clear_positions fuel els (e :: es) pos;
      Some (r_set_positions (Some pos') r1)
  | _, _ => Some r1
  end.

(** A write to the [data] object of the [d3Node] that
    [renderer.nodes.find(n => n.id === id)] returns, in the branch that
    does not render. There [renderer.nodes] is [updatedNodes] itself,
    and every node of it with this id was spread from the same patch of
    the batch, [{ ...localNode, ...remoteNode }], so that all of them
    hold the one [data] object of that patch: the write shows in each
    of them. *)
Definition write_shared (i : string) (f : NodeData → NodeData)
    (ns : list Element) : list Element :=
  (λ el, if has_id i el then el_map_data f el else el) <$> ns.

(** The render decision of the batch callback. In the branch that does
    not render, [updateRendererDataWithoutRender] hands [updatedNodes]
    to the renderer without a copy, and the same objects are the
    leading entries of [elements.value = [...updatedNodes,
    ...updatedEdges]]: what is written to [d3Node.data] is written to
    the stored nodes as well. *)
Definition batch_render (w : World) (k : BatchCont) (st : State)
    (r2 : Renderer) : State :=
  let st1 := set_renderer (Some r2) st in
  let currentEdges := edges_of (elements st1) in
  let hasAnyNodeBeingEdited := truthy (editingNode st1) in
  let remoteNodeIds := n_id <$> bk_remoteNodeUpdates k in
  let batchContainsEditingNode :=
    includes remoteNodeIds (bk_editingNodeId k)
    || includes remoteNodeIds (bk_selectedNodeId k) in
  if hasAnyNodeBeingEdited && negb (bk_hasNewNodes k)
     && batchContainsEditingNode
  then
    let st2 :=
      with_renderer
        (updateRendererDataWithoutRender (bk_updatedNodes k) currentEdges
           (nodeCreationOrder st1)) st1 in
    let written :=
      foldl (λ ns updatedNode,
               write_shared (n_id updatedNode)
                 (batch_patch_d3 updatedNode) ns)
        (bk_updatedNodes k) (bk_remoteNodeUpdates k) in
    set_elements
      (written ++ drop (length (bk_updatedNodes k)) (elements st2))
      (with_renderer (r_set_nodes written) st2)
  else if hasAnyNodeBeingEdited && bk_hasNewNodes k
  then
    (safeRender w
       (setData (bk_updatedNodes k) currentEdges
          (nodeCreationOrder st1) st1) true).1
  else
    (safeRender w
       (setData (bk_updatedNodes k) currentEdges
          (nodeCreationOrder st1) st1) false).1.

(** The [nextTick] callback of the batch handler, up to and including
    the render decision. The pass that follows it and mounts editors for
    new nodes only talks to the widgets and is left out. *)
Definition nodesBatchUpdate_tick (fuel : nat) (w : World) (k : BatchCont)
    (st : State) : option State :=
  match renderer st with
  | None => Some st
  | Some r =>
      r2 ← batch_invalidate fuel k (elements st) r;
      Some (batch_render w k st r2)
  end.

Definition handleRealtimeNodesBatchUpdate (ctx : Ctx) (fuel : nat)
    (w : World) (st : State) (payload : option BatchPayload)
    : option State :=
  let '(st1, k) := nodesBatchUpdate_sync ctx st payload in
  match k with
  | Some k => nodesBatchUpdate_tick fuel w k st1
  | None => Some st1
  end.

(** ** Remote single-node updates *)

Record UpdatePayload := mkUpdate {
  u_entity_name : string;
  u_modified_by : string;
  u_node_id : string;
  u_node : option Node;
  u_edge : option Edge
}.

(** What the [nextTick] callback of the update handler closes over. *)
Record UpdateCont := mkUpdateCont {
  uk_remoteNode : Node;
  uk_edge : option Edge;
  uk_editingNodeId : option string;
  uk_selectedNodeId : option string;
  uk_isNodeBeingEdited : bool;
  uk_isNodeSelected : bool;
  uk_hasLocalChanges : bool;
  uk_isNewNode : bool
}.

(** [oldCompleted !== completed && applyStrikethroughToTitle], then, two
    timers later, the call on an editor that is still there. *)
Definition strikethrough (ctx : Ctx) (w : World) (nodeId : string)
    (old : option bool) (new : bool) : list Effect :=
  let oldCompleted := default false old in
  if negb (bool_decide (oldCompleted = new)) && hasApplyStrikethrough ctx
  then
    match w_editor w nodeId with
    | Some e =>
        if isDestroyed e then [] else [ApplyStrikethrough nodeId new]
    | None => []
    end
  else [].

(** [Date.now() - editingStartTime.value < 2000], with [Infinity] for a
    falsy start time. *)
Definition within_grace (now : Z) (start : option Z) : bool :=
  match start with
  | Some t => if bool_decide (t = 0) then false else bool_decide (now - t < 2000)
  | None => false
  end.

(** The write to [elements.value[elementIndex]]. *)
Definition update_element (remoteNode : Node)
    (shouldUpdateElements shouldUpdateCompletedOnly hasLocalChanges : bool)
    (el : Element) : Element :=
  if shouldUpdateElements then of_node remoteNode
  else if shouldUpdateCompletedOnly then
    let updatedData :=
      data_set_completed (completed (n_data remoteNode)) (el_data el) in
    let updatedData :=
      match rect (n_data remoteNode) with
      | Some rc => data_set_rect (Some rc) updatedData
      | None => updatedData
      end in
    el_set_data updatedData el
  else if negb hasLocalChanges then
    let updatedData := data_spread (el_data el) (n_data remoteNode) in
    el_set_data
      (data_set_label (label_or (label (el_data el)) (label updatedData))
         updatedData) el
  else el.

(** Drop every edge that points at [target], then push the new edge. *)
Definition replace_edge (remoteEdge : Edge) (els : list Element)
    : list Element :=
  filter (λ el, negb (truthy (el_source el)) || negb (truthy (el_target el))
                || negb (bool_decide (el_target el = Some (e_target remoteEdge))))
    els
  ++ [of_edge remoteEdge].

Definition nodeUpdate_sync (ctx : Ctx) (w : World) (now : Z) (st : State)
    (payload : option UpdatePayload) : State * option UpdateCont :=
  match payload with
  | None => (st, None)
  | Some p =>
    if bool_decide (u_entity_name p ≠ entityName ctx) then (st, None) else
    if bool_decide (u_modified_by p = currentUser ctx) then (st, None) else
    let editingNodeId := editingNode st in
    let isUpdatingEditingNode := same_id (u_node_id p) editingNodeId in
    if isSaving st && isUpdatingEditingNode then (st, None) else
    match u_node p with
    | None => (st, None)
    | Some remoteNode =>
      let selectedNodeId := selectedNode st in
      let isNodeBeingEdited := same_id (n_id remoteNode) editingNodeId in
      let isNodeSelected :=
        same_id (n_id remoteNode) selectedNodeId
        && negb (same_id (n_id remoteNode) editingNodeId) in
      let hasLocalChanges :=
        bool_decide (n_id remoteNode ∈ changedNodeIds st)
        && isNodeBeingEdited in
      let shouldUpdateElements :=
        negb isNodeBeingEdited && negb isNodeSelected in
      let shouldUpdateCompletedOnly :=
        bool_decide (completed (n_data remoteNode) ≠ None)
        && (isNodeBeingEdited || isNodeSelected) in
      let elementIndex :=
        findIndex (λ el, has_id (n_id remoteNode) el && is_node el)
          (elements st) in
      let els1 :=
        match elementIndex with
        | Some i =>
            match elements st !! i with
            | Some el =>
                <[i := update_element remoteNode shouldUpdateElements
                         shouldUpdateCompletedOnly hasLocalChanges el]>
                  (elements st)
            | None => elements st
            end
        | None => elements st ++ [of_node remoteNode]
        end in
      let st1 :=
        set_order (set_order_of remoteNode (nodeCreationOrder st))
          (set_elements els1 st) in
      let st2 :=
        if hasSaveSnapshot ctx && bool_decide (elementIndex = None)
        then emit [SaveSnapshot true] st1 else st1 in
      let shouldAllowUpdate :=
        within_grace now (editingStartTime st2) && negb hasLocalChanges in
      if isNodeBeingEdited && negb shouldAllowUpdate then
        match renderer st2, completed (n_data remoteNode) with
        | Some r, Some c =>
            match find_first (has_id (n_id remoteNode)) (r_nodes r) with
            | Some d3Node =>
                let r' :=
                  r_set_nodes
                    (update_first (has_id (n_id remoteNode))
                       (el_map_data (data_set_completed (Some c)))
                       (r_nodes r)) r in
                (emit (strikethrough ctx w (n_id remoteNode)
                         (completed (el_data d3Node)) c)
                   (set_renderer (Some r') st2), None)
            | None => (st2, None)
            end
        | _, _ => (st2, None)
        end
      else
        let st3 :=
          match u_edge p with
          | Some remoteEdge =>
              set_elements (replace_edge remoteEdge (elements st2)) st2
          | None => st2
          end in
        match renderer st3 with
        | None => (st3, None)
        | Some _ =>
            (st3, Some (mkUpdateCont remoteNode (u_edge p) editingNodeId
                          selectedNodeId isNodeBeingEdited isNodeSelected
                          hasLocalChanges
                          (bool_decide (elementIndex = None))))
        end
    end
  end.

(** The writes to [d3Node.data] that the callback repeats in several
    branches: an optional label write, then [completed], then [rect]
    with the fixed sizes. *)
Definition patch_d3 (newLabel : option (option string)) (remoteNode : Node)
    (d : NodeData) : NodeData :=
  let d1 :=
    match newLabel with Some l => data_set_label l d | None => d end in
  let d2 :=
    match completed (n_data remoteNode) with
    | Some c => data_set_completed (Some c) d1
    | None => d1
    end in
  match rect (n_data remoteNode) with
  | Some rc =>
      data_set_fixed (Some (width rc)) (Some (height rc))
        (data_set_rect (Some rc) d2)
  | None => d2
  end.

Definition nonzero (o : option Z) : bool :=
  match o with Some z => bool_decide (z ≠ 0) | None => false end.

(** The DOM write that follows a size taken from the payload. *)
Definition dom_resize (w : World) (nodeId : string) (rc : Rect)
    : list Effect :=
  match w_group w nodeId with
  | Some g =>
      if g_hasRect g && g_hasText g
      then [DomSize nodeId (width rc) (height rc)] else []
  | None => []
  end.

(** First block of the callback: the writes to the [d3Node] found in
    [renderer.nodes]. *)
Definition tick_patch_d3 (ctx : Ctx) (w : World) (k : UpdateCont)
    (changed : gset string) (r : Renderer) : Renderer * list Effect :=
  let remoteNode := uk_remoteNode k in
  let i := n_id remoteNode in
  match find_first (has_id i) (r_nodes r) with
  | None => (r, [])
  | Some d3Node =>
      let isLocalEditing :=
        same_id i (uk_editingNodeId k) || same_id i (uk_selectedNodeId k) in
      let hasLocalChanges := bool_decide (i ∈ changed) in
      let d1 :=
        if negb isLocalEditing && negb hasLocalChanges
        then data_set_label (label (n_data remoteNode)) (el_data d3Node)
        else el_data d3Node in
      let '(d2, sizes, es1) :=
        match rect (n_data remoteNode) with
        | Some rc =>
            if bool_decide (width rc ≠ 0) && bool_decide (height rc ≠ 0)
            then (data_set_fixed (Some (width rc)) (Some (height rc))
                    (data_set_rect (Some (mkRect (width rc) (height rc))) d1),
                  <[i := mkRect (width rc) (height rc)]> (nodeSizeCache r),
                  dom_resize w i rc)
            else (d1, nodeSizeCache r, [])
        | None => (d1, nodeSizeCache r, [])
        end in
      let '(d3, es2) :=
        match completed (n_data remoteNode) with
        | Some c =>
            (data_set_completed (Some c) d2,
             strikethrough ctx w i (completed d2) c)
        | None => (d2, [])
        end in
      let d4 :=
        if nonzero (fixedWidth d3) || nonzero (fixedHeight d3)
        then data_set_fixed None None d3 else d3 in
      (r_set_sizes sizes
         (r_set_nodes
            (update_first (has_id i) (el_set_data d4) (r_nodes r)) r),
       es1 ++ es2)
  end.

(** The cache invalidation that opens the callback: the size entry of
    the node, and, when the event carried an edge, the position entries
    of the node and of its subtree. [None]: the subtree recursion did not
    return within [fuel]. *)
Definition tick_invalidate (fuel : nat) (k : UpdateCont)
    (els : list Element) (r : Renderer) : option Renderer :=
  let i := n_id (uk_remoteNode k) in
  let r1 := r_set_sizes (delete i (nodeSizeCache r)) r in
  match uk_edge k, positions r1 with
  | Some _, Some pos =>
      pos' ← clearSubtree fuel els i pos;
      Some (r_set_positions (Some pos') r1)
  | _, _ => Some r1
  end.

(** The rest of the callback, up to the point where it schedules the
    content and size passes. The boolean tells whether it got that far. *)
Definition tick_render (ctx : Ctx) (w : World) (k : UpdateCont)
    (st : State) (r2 : Renderer) : State * bool :=
  let remoteNode := uk_remoteNode k in
  let i := n_id remoteNode in
  let '(r3, es) := tick_patch_d3 ctx w k (changedNodeIds st) r2 in
  let st1 := emit es (set_renderer (Some r3) st) in
  let plainLabel :=
    if negb (uk_isNodeSelected k) && negb (uk_hasLocalChanges k)
    then Some (label (n_data remoteNode)) else None in
  let keptLabel (d : NodeData) :=
    Some (label_or (label (n_data remoteNode)) (label d)) in
  if same_id i (editingNode st1) then
    if uk_isNewNode k then
      (with_renderer
         (λ r, r_set_nodes (r_nodes r ++ [of_node remoteNode]) r) st1,
       false)
    else
      (with_renderer
         (λ r, r_set_nodes
                 (update_first (has_id i)
                    (el_map_data (patch_d3 plainLabel remoteNode))
                    (r_nodes r)) r) st1, false)
  else
    let hasAnyNodeBeingEdited := truthy (editingNode st1) in
    let afterRender (st : State) :=
      with_renderer
        (λ r, r_set_nodes
                (update_first (has_id i)
                   (el_map_data
                      (λ d, patch_d3
                              (if negb (uk_isNodeBeingEdited k)
                                  && negb (uk_isNodeSelected k)
                               then keptLabel d else None) remoteNode d))
                   (r_nodes r)) r) st in
    let rendered (force : bool) :=
      (safeRender w
         (setData (nodes_of (elements st1)) (edges_of (elements st1))
            (nodeCreationOrder st1) st1) force).1 in
    if hasAnyNodeBeingEdited && negb (uk_isNewNode k)
       && uk_isNodeBeingEdited k
    then
      (with_renderer
         (λ r, r_set_nodes
                 (update_first (has_id i)
                    (el_map_data
                       (λ d, patch_d3
                               (if negb (uk_isNodeSelected k)
                                   && negb (uk_hasLocalChanges k)
                                then keptLabel d else None)
                               remoteNode d))
                    (r_nodes r)) r) st1, true)
    else if hasAnyNodeBeingEdited && uk_isNewNode k
    then (rendered true, true)
    else if hasAnyNodeBeingEdited && negb (uk_isNewNode k)
            && negb (uk_isNodeBeingEdited k)
    then (afterRender (rendered true), true)
    else (afterRender (rendered false), true).

(** The [nextTick] callback of the update handler. *)
Definition nodeUpdate_tick (ctx : Ctx) (fuel : nat) (w : World)
    (k : UpdateCont) (st : State) : option (State * bool) :=
  match renderer st with
  | None => Some (st, false)
  | Some r =>
      r2 ← tick_invalidate fuel k (elements st) r;
      Some (tick_render ctx w k st r2)
  end.

(** ** The content pass *)

Section content.
(** String built-ins and the DOM parser, left abstract:
    [s.normalize('NFC')], [s.trim()], the number of [<img>] tags in a
    label, and the label rebuilt from its paragraphs and images. *)
Variable normalizeNFC : string → string.
Variable trim : string → string.
Variable imageCount : string → nat.
Variable rebuildImages : string → string.

(** [!labelToSet || labelToSet.trim() === ''] *)
Definition blank (s : string) : bool :=
  negb (truthy_str s) || bool_decide (trim s = "").

(** [if (labelToSet && typeof labelToSet === 'string') labelToSet =
    labelToSet.normalize('NFC')] *)
Definition normalized (s : string) : string :=
  if truthy_str s then normalizeNFC s else s.

(** [checkEditorReady]: up to 21 looks, 50 ms apart. [fuel] is
    [maxAttempts - attempts]. *)
Fixpoint checkEditorReady (w : World) (fuel attempts : nat)
    : list Effect * option Editor :=
  let inst := w_poll w attempts in
  let ready :=
    match inst with
    | Some e => negb (isDestroyed e) && hasView e && hasDom e
                && w_pollContainer w attempts
    | None => false
    end in
  if ready then ([], inst)
  else
    match fuel with
    | O => ([], None)
    | S f =>
        let '(es, r) := checkEditorReady w f (S attempts) in
        (Sleep 50 :: es, r)
    end.

(** [proceedWithSetContent]: the write into a widget that was mounted
    by this pass. The last look at the container decides on one more
    soft render. *)
Definition proceedWithSetContent (w : World) (remoteNode : Node)
    (st : State) : State :=
  let '(waited, inst) := checkEditorReady w 20 0 in
  let st1 := emit waited st in
  if usable inst then
    let labelToSet := normalized (default "" (label (n_data remoteNode))) in
    if blank labelToSet then st1
    else
      let st2 := emit [SetContent (n_id remoteNode) labelToSet;
                       AnimationFrame] st1 in
      match w_container w 4 with
      | Some true => st2
      | _ => (safeRender w st2 false).1
      end
  else st1.

(** The branch for an empty container: mount the widget, then make
    sure the mount took before writing. *)
Definition mountAndSetContent (w : World) (remoteNode : Node)
    (st : State) : State :=
  match renderer st with
  | None => st
  | Some r =>
    match find_first (has_id (n_id remoteNode)) (r_nodes r) with
    | None => st
    | Some nodeData =>
      let text :=
        default ""
          (label_or (label (n_data remoteNode))
             (label_or (label (el_data nodeData)) (Some ""))) in
      let st1 := emit [MountNodeEditor (n_id remoteNode) text] st in
      if negb (w_vueApp w) then st1
      else
        match w_container w 1 with
        | Some true => proceedWithSetContent w remoteNode st1
        | _ =>
          match w_container w 2 with
          | Some true => proceedWithSetContent w remoteNode st1
          | Some false =>
              let st2 :=
                emit [MountNodeEditor (n_id remoteNode) text] st1 in
              match w_container w 3 with
              | Some true => proceedWithSetContent w remoteNode st2
              | _ => st2
              end
          | None => st1
          end
        end
    end
  end.

(** [checkAndSetContent]: one look, then up to five more. [fuel] is
    [maxAttempts - attempts]. *)
Fixpoint checkAndSetContent (w : World) (fuel attempts : nat)
    (inst : option Editor) : list Effect * option Editor :=
  match fuel with
  | O => ([], inst)
  | S f =>
      if usable inst then ([], inst)
      else
        let inst' := w_poll w (S attempts) in
        let pause := match f with O => [] | S _ => [Sleep 50] end in
        let '(es, r) := checkAndSetContent w f (S attempts) inst' in
        (pause ++ es, r)
  end.

(** The branch for a widget that is already mounted. The boolean tells
    whether [calculateAndUpdateNodeSize] is scheduled. *)
Definition setContentMounted (w : World) (remoteNode : Node)
    (isNodeBeingEdited : bool) (st : State) : State * bool :=
  let '(waited, inst) := checkAndSetContent w 5 0 (w_poll w 0) in
  let st1 := emit waited st in
  match inst with
  | None => (st1, false)
  | Some e =>
    if isDestroyed e || negb (hasView e) then (st1, false) else
    let remoteLabel := default "" (label (n_data remoteNode)) in
    let labelToSet :=
      if truthy_str remoteLabel then remoteLabel
      else
        default ""
          (label_or
             (r ← renderer st1;
              d3Node ← find_first (has_id (n_id remoteNode)) (r_nodes r);
              label (el_data d3Node)) (Some "")) in
    let labelToSet := normalized labelToSet in
    if blank labelToSet then (st1, false) else
    let normalizedCurrent := normalized (html e) in
    let normalizedLabel := normalized labelToSet in
    let contentIsSame := bool_decide (normalizedCurrent = normalizedLabel) in
    if contentIsSame && isNodeBeingEdited then (st1, false) else
    let content :=
      if bool_decide (2 < imageCount labelToSet)%nat
      then rebuildImages labelToSet else labelToSet in
    let st2 := emit [SetContent (n_id remoteNode) content;
                     AnimationFrame] st1 in
    (st2, negb (same_id (n_id remoteNode) (editingNode st2)))
  end.

(** The content pass as the timers run it: the check on local changes,
    then the first look at the container picks the branch. *)
Definition setContentStep (w : World) (k : UpdateCont) (st : State)
    : State * bool :=
  let remoteNode := uk_remoteNode k in
  if uk_isNodeBeingEdited k
     && bool_decide (n_id remoteNode ∈ changedNodeIds st)
  then (st, false)
  else
    match w_container w 0 with
    | Some false => (mountAndSetContent w remoteNode st, false)
    | _ => setContentMounted w remoteNode (uk_isNodeBeingEdited k) st
    end.
End content.

(** ** The size passes *)

(** [Math.ceil(19 * 1.4) + 16] *)
Definition singleLineHeight : Z := 43.
Definition maxWidth : Z := 400.
Definition minWidth : Z := 130.

(** [label.includes('<img') || label.includes('image-wrapper')] *)
Definition str_includes (sub s : string) : bool :=
  bool_decide (String.index 0 sub s ≠ None).
Definition hasImages (l : option string) : bool :=
  match l with
  | Some s => str_includes "<img" s || str_includes "image-wrapper" s
  | None => false
  end.

(** [node.data.rect = {...}] on the node found in [renderer.nodes], with
    or without the fixed sizes. *)
Definition r_write_rect (nodeId : string) (sz : Rect) (fixed : bool)
    (r : Renderer) : Renderer :=
  r_set_nodes
    (update_first (has_id nodeId)
       (el_map_data
          (λ d, let d1 := data_set_rect (Some sz) d in
                if fixed
                then data_set_fixed (Some (width sz)) (Some (height sz)) d1
                else d1))
       (r_nodes r)) r.

(** The same write on the node found through [nodes.value]. *)
Definition store_write_rect (nodeId : string) (sz : Rect) (fixed : bool)
    (els : list Element) : list Element :=
  update_first (λ el, has_id nodeId el && is_node el)
    (el_map_data
       (λ d, let d1 := data_set_rect (Some sz) d in
             if fixed
             then data_set_fixed (Some (width sz)) (Some (height sz)) d1
             else d1)) els.

Definition r_delete_position (nodeId : string) (r : Renderer) : Renderer :=
  r_set_positions (delete nodeId <$> positions r) r.

(** The body of [updateNodeSizeWithNewSize], run on the state it finds
    when it is called. *)
Definition updateNodeSizeWithNewSize (st : State) (nodeId : string)
    (newSize : Rect) : State :=
  if same_id nodeId (editingNode st) then st
  else
    let sz := mkRect (width newSize) (height newSize) in
    let st1 :=
      with_renderer
        (λ r, r_write_rect nodeId sz false
                (r_set_sizes (<[nodeId := newSize]> (nodeSizeCache r)) r))
        st in
    let st2 := emit [DomSize nodeId (width newSize) (height newSize)] st1 in
    let st3 :=
      set_elements (store_write_rect nodeId sz true (elements st2)) st2 in
    with_renderer
      (λ r, r_delete_position nodeId (r_write_rect nodeId sz true r)) st3.

(** The two animation frames later: write through or lay out again. *)
Definition updateNodeSize_render (w : World) (st : State) (nodeId : string)
    (newSize : Rect) : State :=
  let sz := mkRect (width newSize) (height newSize) in
  match renderer st with
  | None => st
  | Some _ =>
      if truthy (editingNode st)
      then with_renderer (r_write_rect nodeId sz true) st
      else
        (safeRender w
           (with_renderer (r_write_rect nodeId sz true)
              (setData (nodes_of (elements st)) (edges_of (elements st))
                 (nodeCreationOrder st) st)) false).1
  end.

Section sizes.
Variable trim : string → string.

Definition label_blank (l : option string) : bool :=
  match l with
  | Some s => negb (truthy_str s) || bool_decide (trim s = "")
  | None => true
  end.

(** The DOM is ready for a size write: the node group with its rect
    and text children, and the editor's content element. *)
Definition dom_ready (w : World) (nodeId : string) (e : Editor) : bool :=
  match w_group w nodeId with
  | Some g => g_hasRect g && g_hasText g && hasView e && hasDom e
  | None => false
  end.

(** [calculateAndUpdateNodeSize]: the size it later hands to
    [updateNodeSizeWithNewSize], if it gets that far. It writes
    nothing itself. *)
Definition calculateAndUpdateNodeSize (w : World) (st : State)
    (nodeId : string) : option Rect :=
  if same_id nodeId (editingNode st) then None else
  match w_editor w nodeId with
  | None => None
  | Some e =>
    if isDestroyed e then None else
    match find_first (has_id nodeId) (nodes_of (elements st)) with
    | None => None
    | Some remoteNode =>
      if label_blank (label (el_data remoteNode)) then None else
      let sizeFromPayload :=
        match rect (el_data remoteNode) with
        | Some rc =>
            if bool_decide (width rc ≠ 0) && bool_decide (height rc ≠ 0)
            then Some rc else None
        | None => None
        end in
      if negb (dom_ready w nodeId e) then None else
      match sizeFromPayload with
      | Some rc => Some rc
      | None =>
          if hasImages (label (el_data remoteNode))
          then Some (mkRect maxWidth singleLineHeight)
          else
            let calculatedWidth := Z.max ((w_scroll w).1 + 32) minWidth in
            let calculatedHeight :=
              Z.max (w_scroll w).2 singleLineHeight in
            let finalWidth :=
              if bool_decide (maxWidth < calculatedWidth)
              then maxWidth else calculatedWidth in
            Some (mkRect finalWidth calculatedHeight)
      end
    end
  end.

(** The size pass written inline at the end of the update callback.
    It starts 150 ms after the callback: the check on the editing
    session, the editor and the label. *)
Definition inlineSize_start (w : World) (st : State) (remoteNode : Node)
    : bool :=
  if same_id (n_id remoteNode) (editingNode st) then false else
  match w_editor w (n_id remoteNode) with
  | Some e =>
      negb (isDestroyed e) && negb (label_blank (label (n_data remoteNode)))
  | None => false
  end.

(** Two frames and 10 ms later: the provisional size, and the width
    written to the DOM. *)
Definition inlineSize_measure (w : World) (st : State) (remoteNode : Node)
    (e : Editor) : option Rect * State :=
  if dom_ready w (n_id remoteNode) e then
    let newSize :=
      if hasImages (label (n_data remoteNode))
      then mkRect maxWidth singleLineHeight
      else w_estimate w remoteNode in
    (Some newSize, emit [DomWidth (n_id remoteNode) (width newSize)] st)
  else (None, st).

(** 50 ms later (and, when images are still loading, once they have
    settled): the height, then the writes. *)
Definition inlineSize_write (w : World) (st : State) (remoteNode : Node)
    (newSize : Rect) : State :=
  let i := n_id remoteNode in
  let images := hasImages (label (n_data remoteNode)) in
  let h :=
    if images then w_imageHeight w
    else Z.max (w_scroll w).2 singleLineHeight in
  let sz := mkRect (width newSize) h in
  let st1 :=
    with_renderer
      (λ r, r_write_rect i sz false
              (r_set_sizes (<[i := sz]> (nodeSizeCache r)) r)) st in
  let st2 :=
    emit (if images && negb (w_imagesLoaded w)
          then [DomHeight i h] else [DomSize i (width sz) h]) st1 in
  let st3 := set_elements (store_write_rect i sz false (elements st2)) st2 in
  with_renderer (r_delete_position i) st3.

(** One frame later: write through or lay out again. *)
Definition inlineSize_render (w : World) (st : State) (nodeId : string)
    (newSize : Rect) : State :=
  match renderer st with
  | None => st
  | Some _ =>
      if truthy (editingNode st)
      then with_renderer (r_write_rect nodeId newSize true) st
      else
        (safeRender w
           (setData (nodes_of (elements st)) (edges_of (elements st))
              (nodeCreationOrder st) st) false).1
  end.
End sizes.

(** ** The update handler with its callbacks run back to back *)

Section handler.
Variable normalizeNFC : string → string.
Variable trim : string → string.
Variable imageCount : string → nat.
Variable rebuildImages : string → string.

(** The synchronous part, the [nextTick] callback and the content
    pass, with nothing else happening in between. The callback also
    starts the size passes: the inline pass ([inlineSize_start] and
    what follows it) and, after a content write,
    [calculateAndUpdateNodeSize] with [updateNodeSizeWithNewSize]. Those
    run on timers and animation frames of their own, whose order
    against the content pass the handler does not fix, and they stay
    the separate definitions above: they write the [rect] and the
    fixed sizes of the node in the store and in the renderer, the size
    cache, the position entry of the node and the DOM. The state
    returned here is the state before any of them has run. *)
Definition handleRealtimeNodeUpdate (ctx : Ctx) (fuel : nat) (w : World)
    (now : Z) (st : State) (payload : option UpdatePayload)
    : option State :=
  let '(st1, k) := nodeUpdate_sync ctx w now st payload in
  match k with
  | None => Some st1
  | Some k =>
      '(st2, scheduled) ← nodeUpdate_tick ctx fuel w k st1;
      if scheduled : bool
      then Some (setContentStep normalizeNFC trim imageCount
                   rebuildImages w k st2).1
      else Some st2
  end.
End handler.

(** ** Properties of the store that the claims speak about *)

(** Every edge target has at most one incoming edge. *)
Definition edge_targets (els : list Element) : list (option string) :=
  el_target <$> edges_of els.
Definition single_parent (els : list Element) : Prop :=
  NoDup (edge_targets els).

(** [b] is a child of [a]: some edge of the store runs from [a] to [b]. *)
Definition child (els : list Element) (a b : string) : Prop :=
  ∃ e, e ∈ edges_of els ∧ el_source e = Some a ∧ el_target e = Some b.

(** Reachable through one or more edges. *)
Definition descendant (els : list Element) : string → string → Prop :=
  tc (child els).

(** The update event passes the two gates on scope and author. *)
Definition update_in_scope (ctx : Ctx) (p : UpdatePayload) : bool :=
  bool_decide (u_entity_name p = entityName ctx)
  && bool_decide (u_modified_by p ≠ currentUser ctx).

(** The batch event passes every gate of the batch handler. *)
Definition batch_accepted (ctx : Ctx) (st : State) (p : BatchPayload)
    : bool :=
  bool_decide (b_entity_name p = entityName ctx)
  && bool_decide (b_modified_by p ≠ currentUser ctx)
  && negb (isSaving st)
  && bool_decide (b_nodes p ≠ [])
  && negb (allNodesAreBeingEdited (n_id <$> b_nodes p) (editingNode st)
             (selectedNode st)).

(** Two states agree on the store and on the editing session: they may
    differ in the renderer object and in the trace. *)
Definition same_store (s st : State) : Prop :=
  elements s = elements st ∧ nodeCreationOrder s = nodeCreationOrder st
  ∧ selectedNode s = selectedNode st ∧ editingNode s = editingNode st
  ∧ isSaving s = isSaving st ∧ editingStartTime s = editingStartTime st
  ∧ changedNodeIds s = changedNodeIds st.

(** ** A small document for the worked scenarios *)

Definition demo_ctx : Ctx := mkCtx "doc-1" "alice" true true.

Definition demo_editor : Editor :=
  mkEditor false true true true false (mkSelection 2 5 2 5) 10
    "doc(paragraph)" "<p>A</p>".

Definition demo_world : World :=
  mkWorld (λ _, Some demo_editor) (λ _, Some demo_editor) (λ _, true)
    (λ _, Some (mkGroup true true)) (λ _, Some true) (λ _, true) true
    (100, 30) (λ _, mkRect 150 43) true 80.

Definition labelled (l : string) : NodeData :=
  mkData (Some l) None None None None None None.
Definition node_el (i l : string) : Element :=
  mkElement i None None (labelled l).
Definition edge_el (s t : string) : Element :=
  of_edge (mkEdge ("edge-" +:+ s +:+ "-" +:+ t) s t).

(** root -> n1 -> n3, root -> n4 *)
Definition demo_elements : list Element :=
  [node_el "root" "Root"; node_el "n1" "A"; node_el "n3" "C";
   node_el "n4" "D";
   edge_el "root" "n1"; edge_el "n1" "n3"; edge_el "root" "n4"].

Definition demo_positions : gmap string (Z * Z) :=
  <["root" := (0, 0)]> (<["n1" := (200, 0)]> (<["n3" := (400, 0)]>
    (<["n4" := (200, 80)]> ∅))).

Definition demo_renderer : Renderer :=
  mkRenderer (nodes_of demo_elements) (edges_of demo_elements) ∅ ∅
    (Some demo_positions).

(** Nobody edits, nothing is selected, no save is running. *)
Definition demo_idle : State :=
  mkState demo_elements ∅ None None false None ∅ (Some demo_renderer) [].

(** The local user opened [n1] at time 1000 and has typed in it. *)
Definition demo_dirty : State :=
  mkState demo_elements ∅ (Some "n1") (Some "n1") false (Some 1000)
    {["n1"]} (Some demo_renderer) [].

(** The local user opened [n1] at time 1000 and has not typed yet. *)
Definition demo_fresh : State :=
  mkState demo_elements ∅ (Some "n1") (Some "n1") false (Some 1000)
    ∅ (Some demo_renderer) [].

Definition ascii_trim_is_blank (s : string) : string :=
  if bool_decide (s = " ") then "" else s.

(** Bob moves [n4] under [n1]. *)
Definition demo_move : UpdatePayload :=
  mkUpdate "doc-1" "bob" "n4" (Some (mkNode "n4" (labelled "D")))
    (Some (mkEdge "edge-n1-n4" "n1" "n4")).

(** Bob adds [n5] under [root] and rewrites [n1] in one batch. *)
Definition demo_batch : BatchPayload :=
  mkBatch "doc-1" "bob"
    [mkNode "n1" (labelled "B"); mkNode "n5" (labelled "new")]
    (Some [mkEdge "edge-root-n5" "root" "n5"]).

(** Bob rewrites [n1] and sends two patches for [n4], the first of
    them with a size; no node is new. *)
Definition demo_batch_twice : BatchPayload :=
  mkBatch "doc-1" "bob"
    [mkNode "n1" (labelled "B");
     mkNode "n4"
       (mkData (Some "D2") None (Some (mkRect 300 60)) None None None None);
     mkNode "n4" (labelled "D3")]
    None.

(** A batch whose edge list gives [n5] two parents. *)
Definition demo_two_parents : BatchPayload :=
  mkBatch "doc-1" "bob" [mkNode "n5" (labelled "new")]
    (Some [mkEdge "edge-root-n5" "root" "n5"; mkEdge "edge-n1-n5" "n1" "n5"]).

(** The same session while a bulk save is in flight. *)
Definition demo_saving : State := set_saving true demo_dirty.

(** Bob rewrites [n4] (nobody edits it here). *)
Definition demo_other : UpdatePayload :=
  mkUpdate "doc-1" "bob" "n4" (Some (mkNode "n4" (labelled "D2"))) None.

(** Bob adds [n5] alone. *)
Definition demo_new_only : BatchPayload :=
  mkBatch "doc-1" "bob" [mkNode "n5" (labelled "new")]
    (Some [mkEdge "edge-root-n5" "root" "n5"]).

(** Bob deletes [n4]. *)
Definition demo_delete : DeletedPayload := mkDeleted "doc-1" "bob" ["n4"].

(** Every effect of [es] is a strikethrough restyling of [nodeId]: no
    layout, no render, no content write. *)
Definition only_restyles (nodeId : string) (es : list Effect) : Prop :=
  ∀ e, e ∈ es → ∃ c, e = ApplyStrikethrough nodeId c.

(** Bob rewrites [n1], ticks it off and resizes it. *)
Definition demo_done_resized : UpdatePayload :=
  mkUpdate "doc-1" "bob" "n1"
    (Some (mkNode "n1"
             (mkData (Some "X") (Some true) (Some (mkRect 300 60)) None None
                None None)))
    None.

(** The same session, with [n1] second in the creation order. *)
Definition demo_dirty_ordered : State :=
  mkState demo_elements {["n1" := 2]} (Some "n1") (Some "n1") false
    (Some 1000) {["n1"]} (Some demo_renderer) [].

(** Bob rewrites [n1], ticks it off, resizes it and puts it seventh in
    the creation order. *)
Definition demo_done_reordered : UpdatePayload :=
  mkUpdate "doc-1" "bob" "n1"
    (Some (mkNode "n1"
             (mkData (Some "X") (Some true) (Some (mkRect 300 60)) (Some 7)
                None None None)))
    None.

(** Bob rewrites [n1]. *)
Definition demo_rewrite : UpdatePayload :=
  mkUpdate "doc-1" "bob" "n1" (Some (mkNode "n1" (labelled "X"))) None.

(** Bob rewrites [n1] and moves it, with its child [n3], under [n4]. *)
Definition demo_rewrite_moved : UpdatePayload :=
  mkUpdate "doc-1" "bob" "n1" (Some (mkNode "n1" (labelled "X")))
    (Some (mkEdge "edge-n4-n1" "n4" "n1")).

(** [rank] decreases along every edge of the store: the edges form no
    cycle, and [rank] bounds the depth of every subtree. *)
Definition ranked (els : list Element) (rank : string → nat) : bool :=
  forallb (λ e, match el_source e, el_target e with
                | Some a, Some b => bool_decide (rank b < rank a)%nat
                | _, _ => true
                end) (edges_of els).


(** [pos'] is [pos] with entries deleted, and every deleted entry
    belongs to [nodeId] itself (when [self] is set) or to a descendant. *)
Definition deletes_within (els : list Element) (nodeId : string)
    (self : bool) (pos pos' : gmap string (Z * Z)) : Prop :=
  ∀ x, pos' !! x = pos !! x
       ∨ (pos' !! x = None
          ∧ ((self = true ∧ x = nodeId) ∨ descendant els nodeId x)).



Definition demo_rank (i : string) : nat :=
  if bool_decide (i = "root") then 4
  else if bool_decide (i = "n4") then 3
  else if bool_decide (i = "n1") then 2
  else if bool_decide (i = "n3") then 1
  else 0.

(** The local user is typing in [n3]. *)
Definition demo_busy : State :=
  mkState demo_elements ∅ (Some "n3") (Some "n3") false (Some 1000)
    {["n3"]} (Some demo_renderer) [].

(** Classes of commands, to count and to bound them. *)
Definition is_frame (e : Effect) : bool :=
  match e with AnimationFrame => true | _ => false end.
Definition is_focus (e : Effect) : bool :=
  match e with FocusEnd _ => true | _ => false end.

(** The commands [restoreEditorState] may issue for the node [n]: the
    two fixed pauses, a frame, a selection, a focus. *)
Definition restore_command (n : string) (e : Effect) : Prop :=
  e = Sleep 50 ∨ e = Sleep 100 ∨ e = AnimationFrame
  ∨ (∃ a b, e = SetTextSelection n a b) ∨ e = FocusEnd n.

(** The editor shows a caret at offset 3 (an empty selection). *)
Definition demo_caret_world : World :=
  let caret :=
    mkEditor false true true true false (mkSelection 3 3 3 3) 10
      "doc(paragraph)" "<p>A</p>" in
  mkWorld (λ _, Some caret) (λ _, Some caret) (λ _, true)
    (λ _, Some (mkGroup true true)) (λ _, Some true) (λ _, true) true
    (100, 30) (λ _, mkRect 150 43) true 80.

(** The editor comes back at the third look, grown shorter, and takes
    the focus at the second try. *)
Definition demo_slow_world : World :=
  mkWorld (λ _, Some demo_editor)
    (λ k, if bool_decide (k < 2)%nat then None
          else Some (mkEditor false true true false false
                       (mkSelection 0 0 0 0) 4 "doc(paragraph)" "<p>A</p>"))
    (λ k, bool_decide (1 ≤ k)%nat)
    (λ _, Some (mkGroup true true)) (λ _, Some true) (λ _, true) true
    (100, 30) (λ _, mkRect 150 43) true 80.


(** The label of the event is absent, empty, or blank once normalized. *)
Definition remote_blank (normalizeNFC trim : string → string)
    (l : option string) : bool :=
  match l with
  | None => true
  | Some s => blank trim (normalized normalizeNFC s)
  end.

(** [n1] is selected, nobody edits. *)
Definition demo_selected : State :=
  mkState demo_elements ∅ (Some "n1") None false None ∅
    (Some demo_renderer) [].

(** Bob recolours [n1]; the patch carries no label. *)
Definition demo_no_label : UpdatePayload :=
  mkUpdate "doc-1" "bob" "n1"
    (Some (mkNode "n1" (mkData None None None None (Some "#ff0000") None None)))
    None.

(** The size pass of an update for [n4] is under way when the local
    user opens [n4]. *)
Definition demo_opened_n4 : State :=
  mkState demo_elements ∅ (Some "n4") (Some "n4") false (Some 1000) ∅
    (Some demo_renderer) [].

(** Bob sends a label of one space for [n4], which nobody edits or
    has selected: what the callback closes over. *)
Definition demo_blank_cont : UpdateCont :=
  mkUpdateCont (mkNode "n4" (labelled " ")) None None None false false false
    false.

(** The editor container of the node is there and empty at the first
    look, and holds the editor from the second look on. *)
Definition demo_mount_world : World :=
  mkWorld (λ _, Some demo_editor) (λ _, Some demo_editor) (λ _, true)
    (λ _, Some (mkGroup true true))
    (λ k, if bool_decide (k = 0)%nat then Some false else Some true)
    (λ _, true) true (100, 30) (λ _, mkRect 150 43) true 80.

(** Readings of the caches and of the stored rect of a node. *)
Definition cached_size (st : State) (i : string) : option Rect :=
  renderer st ≫= λ r, nodeSizeCache r !! i.
Definition cached_position (st : State) (i : string) : option (Z * Z) :=
  renderer st ≫= λ r, positions r ≫= λ pos, pos !! i.
Definition store_rect (els : list Element) (i : string) : option Rect :=
  store_node els i ≫= λ el, rect (el_data el).

(** The patch of [demo_other]. *)
Definition demo_n4_patch : Node := mkNode "n4" (labelled "D2").

(** * Remote editing marks: [handleRealtimeNodeEditing]

    The handler keeps the map [nodeEditingUsers] and decorates the
    node's group in the drawing. The part of the drawing it reads and
    writes is state here: per node group, the [.node-rect] child with
    the three attributes the handler sets, and the children of class
    [editing-badge], in document order. *)

Record EditingUser := mkEditingUser { userId : string; userName : string }.

(** [stroke], [stroke-width] and [stroke-dasharray] of a [.node-rect];
    [None] is an attribute that is not set. *)
Record RectStyle := mkRectStyle {
  stroke : option string;
  strokeWidth : option string;
  strokeDasharray : option string
}.

(** A badge: the text it shows, the width of its background rect and
    the [x] of its text. The other attributes are constants. *)
Record Badge := mkBadge {
  badgeText : string;
  badgeWidth : Q;
  badgeTextX : Q
}.

Record NodeGroup := mkNodeGroup {
  nodeRect : option RectStyle;
  badges : list Badge
}.

Record Presence := mkPresence {
  nodeEditingUsers : gmap string EditingUser;
  (** the groups of the renderer's drawing by [data-node-id]; [None]
      when there is no renderer *)
  groups : option (gmap string NodeGroup)
}.

Record EditingPayload := mkEditing {
  ed_entity_name : string;
  ed_user_id : string;
  ed_user_name : string;
  ed_node_id : string;
  ed_is_editing : bool
}.

(** The badge the handler appends; [textWidth] is what
    [text.node().getBBox().width] measures for the name. *)
Definition new_badge (textWidth : string → Q) (user_name : string) : Badge :=
  let padding := 12%Q in
  let badgeWidth := (textWidth user_name + padding * 2)%Q in
  mkBadge user_name badgeWidth (badgeWidth / 2)%Q.

(** The decoration of one node group that has a [.node-rect]. *)
Definition decorate (textWidth : string → Q) (p : EditingPayload)
    (ng : NodeGroup) : NodeGroup :=
  match nodeRect ng with
  | None => ng
  | Some _ =>
      if ed_is_editing p then
        mkNodeGroup
          (Some (mkRectStyle (Some "#f59e0b") (Some "2px") (Some "4 2")))
          (match badges ng with
           | [] => [new_badge textWidth (ed_user_name p)]
           | existing => existing
           end)
      else
        mkNodeGroup (Some (mkRectStyle None None None)) (tail (badges ng))
  end.

Definition handleRealtimeNodeEditing (ctx : Ctx) (textWidth : string → Q)
    (st : Presence) (payload : option EditingPayload) : Presence :=
  match payload with
  | None => st
  | Some p =>
    if bool_decide (ed_entity_name p ≠ entityName ctx) then st else
    if bool_decide (ed_user_id p = currentUser ctx) then st else
    let users :=
      if ed_is_editing p
      then <[ed_node_id p := mkEditingUser (ed_user_id p) (ed_user_name p)]>
             (nodeEditingUsers st)
      else delete (ed_node_id p) (nodeEditingUsers st) in
    mkPresence users
      ((λ g, match g !! ed_node_id p with
             | Some ng => <[ed_node_id p := decorate textWidth p ng]> g
             | None => g
             end) <$> groups st)
  end.

(** The events of a session, one after the other. *)
Definition editing_events (ctx : Ctx) (textWidth : string → Q)
    (st : Presence) (payloads : list (option EditingPayload)) : Presence :=
  foldl (handleRealtimeNodeEditing ctx textWidth) st payloads.

(** The event passes the gates of [handleRealtimeNodeEditing]. *)
Definition editing_accepted (ctx : Ctx) (p : EditingPayload) : bool :=
  bool_decide (ed_entity_name p = entityName ctx)
  && bool_decide (ed_user_id p ≠ currentUser ctx).

(** Every badge stands on a group with a rect: the drawing never shows
    more than one badge on a node, and it shows one only on a node that
    [nodeEditingUsers] has an entry for. *)
Definition badges_agree (st : Presence) : Prop :=
  ∀ g n ng, groups st = Some g → g !! n = Some ng →
    (length (badges ng) ≤ 1)%nat
    ∧ (badges ng ≠ [] → is_Some (nodeRect ng)
                       ∧ is_Some (nodeEditingUsers st !! n)).

(** A drawing with the groups of [n1] and [n4], undecorated, and the
    events of two remote users. *)
Definition demo_presence : Presence :=
  mkPresence ∅
    (Some (<["n1" := mkNodeGroup (Some (mkRectStyle None None None)) []]>
             (<["n4" := mkNodeGroup (Some (mkRectStyle None None None)) []]>
                ∅))).
Definition demo_textWidth (s : string) : Q :=
  inject_Z (7 * Z.of_nat (String.length s)).
Definition demo_bob_starts : EditingPayload :=
  mkEditing "doc-1" "bob" "Bob" "n1" true.
Definition demo_carol_starts : EditingPayload :=
  mkEditing "doc-1" "carol" "Carol" "n1" true.
Definition demo_carol_stops : EditingPayload :=
  mkEditing "doc-1" "carol" "Carol" "n1" false.

(** * More properties of the store *)

(** The event is for another document, or the local user caused it. *)
Definition out_of_scope (ctx : Ctx) (entity author : string) : bool :=
  bool_decide (entity ≠ entityName ctx)
  || bool_decide (author = currentUser ctx).

(** The ids of the nodes of the store, in order. *)
Definition node_ids (els : list Element) : list string :=
  el_id <$> nodes_of els.

(** The edge names a source or a target: as an element it is not
    taken for a node. *)
Definition names_an_end (e : Edge) : bool :=
  truthy_str (e_source e) || truthy_str (e_target e).

(** The id of the node that the update adds to the store, if it adds
    one. *)
Definition update_adds (ctx : Ctx) (st : State) (p : UpdatePayload)
    : option string :=
  if update_in_scope ctx p
     && negb (isSaving st && same_id (u_node_id p) (editingNode st))
  then
    match u_node p with
    | Some n =>
        if bool_decide (n_id n ∉ node_ids (elements st))
        then Some (n_id n) else None
    | None => None
    end
  else None.

(** The commands that restyle a node in place: a size written to its
    group, a strikethrough on its title. *)
Definition in_place (nodeId : string) (e : Effect) : Prop :=
  (∃ w h, e = DomSize nodeId w h) ∨ ∃ c, e = ApplyStrikethrough nodeId c.

(** The batch is accepted and its callback takes the branch that does
    not render: a renderer is there, a node is under edit, the batch
    brings no new node and names the node under edit or the selected
    node. *)
Definition batch_writes_through (ctx : Ctx) (st : State) (p : BatchPayload)
    : bool :=
  batch_accepted ctx st p
  && bool_decide (renderer st ≠ None)
  && truthy (editingNode st)
  && negb (existsb (is_new (elements st)) (b_nodes p))
  && (includes (n_id <$> b_nodes p) (editingNode st)
      || includes (n_id <$> b_nodes p) (selectedNode st)).

(** What the patches of a batch write to the [data] object of the node
    [x] in that branch: the writes of every patch for [x], in the order
    of the batch. *)
Definition batch_written (patches : list Node) (x : string) (d : NodeData)
    : NodeData :=
  foldl (λ d p, batch_patch_d3 p d) d (filter (λ p, n_id p = x) patches).

(** * The socket wrapper: [RealTimeHandler]

    The socket itself is a collaborator: what the wrapper hands to it is
    recorded, in order. The one-second timer of [doc_subscribe] is
    counted while it is pending and fires as a step of the environment. *)
Module RealTimeHandler.

(** Calls on the socket. A listener is named by a number. *)
Inductive SocketCall :=
  | SocketOn (event : string) (callback : nat)
  | SocketOff (event : string) (callback : nat)
  | SocketEmit (event : string) (args : list string).

#[global] Instance SocketCall_eq_dec : EqDecision SocketCall.
Proof. solve_decision. Defined.

Record t := mk {
  open_docs : gset string;
  (** [this.socket] is truthy *)
  socket : bool;
  subscribing : bool;
  (** timers set by [doc_subscribe] that have not fired yet *)
  timers : nat;
  (** what the socket has been asked to do *)
  calls : list SocketCall
}.

(** [constructor(socket)] *)
Definition new (socket : bool) : t := mk ∅ socket false O [].

Definition set_open_docs (s : gset string) (h : t) : t :=
  mk s (socket h) (subscribing h) (timers h) (calls h).
Definition set_subscribing (b : bool) (h : t) : t :=
  mk (open_docs h) (socket h) b (timers h) (calls h).
Definition set_timers (n : nat) (h : t) : t :=
  mk (open_docs h) (socket h) (subscribing h) n (calls h).
Definition call (c : SocketCall) (h : t) : t :=
  mk (open_docs h) (socket h) (subscribing h) (timers h) (calls h ++ [c]).

(** A method leaves the wrapper in some state and either returns a
    value or throws ([None]): a call on a missing socket is a
    [TypeError]. *)
Definition on (event : string) (callback : nat) (h : t) : t * option unit :=
  if socket h then (call (SocketOn event callback) h, Some ())
  else (h, Some ()).

Definition off (event : string) (callback : nat) (h : t) : t * option unit :=
  if socket h then (call (SocketOff event callback) h, Some ())
  else (h, Some ()).

Definition emit (event : string) (args : list string) (h : t)
    : t * option unit :=
  if socket h then (call (SocketEmit event args) h, Some ())
  else (h, None).

(** [`${doctype}:${docname}`] *)
Definition key (doctype docname : string) : string :=
  doctype +:+ ":" +:+ docname.

Definition doc_subscribe (doctype docname : string) (h : t)
    : t * option unit :=
  if subscribing h then (h, Some ())
  else if bool_decide (key doctype docname ∈ open_docs h) then (h, Some ())
  else
    let h1 := set_subscribing true h in
    let h2 := set_timers (S (timers h1)) h1 in
    match emit "doc_subscribe" [doctype; docname] h2 with
    | (h3, Some _) =>
        (set_open_docs ({[key doctype docname]} ∪ open_docs h3) h3, Some ())
    | (h3, None) => (h3, None)
    end.

(** [Set.prototype.delete] tells whether the key was there. *)
Definition doc_unsubscribe (doctype docname : string) (h : t)
    : t * option bool :=
  match emit "doc_unsubscribe" [doctype; docname] h with
  | (h1, Some _) =>
      (set_open_docs (open_docs h1 ∖ {[key doctype docname]}) h1,
       Some (bool_decide (key doctype docname ∈ open_docs h1)))
  | (h1, None) => (h1, None)
  end.

Definition doc_open (doctype docname : string) (h : t) : t * option unit :=
  emit "doc_open" [doctype; docname] h.

Definition doc_close (doctype docname : string) (h : t) : t * option unit :=
  emit "doc_close" [doctype; docname] h.

Definition publish (event message : string) (h : t) : t * option unit :=
  if socket h then emit event [message] h else (h, Some ()).

(** The callback of [setTimeout(..., 1000)], for a timer that is
    pending. *)
Definition timer_fires (h : t) : t :=
  match timers h with
  | O => h
  | S n => set_subscribing false (set_timers n h)
  end.

(** What happens to a wrapper over time: its methods are called, and
    its timers fire. A thrown error ends the call and leaves the
    wrapper as it then is. *)
Inductive Step :=
  | CallOn (event : string) (callback : nat)
  | CallOff (event : string) (callback : nat)
  | CallEmit (event : string) (args : list string)
  | CallDocSubscribe (doctype docname : string)
  | CallDocUnsubscribe (doctype docname : string)
  | CallDocOpen (doctype docname : string)
  | CallDocClose (doctype docname : string)
  | CallPublish (event message : string)
  | TimerFires.

Definition step (h : t) (s : Step) : t :=
  match s with
  | CallOn e c => (on e c h).1
  | CallOff e c => (off e c h).1
  | CallEmit e a => (emit e a h).1
  | CallDocSubscribe d n => (doc_subscribe d n h).1
  | CallDocUnsubscribe d n => (doc_unsubscribe d n h).1
  | CallDocOpen d n => (doc_open d n h).1
  | CallDocClose d n => (doc_close d n h).1
  | CallPublish e m => (publish e m h).1
  | TimerFires => timer_fires h
  end.

Definition run (steps : list Step) (h : t) : t := foldl step h steps.

(** Readings of a history. *)
Definition is_subscribe (c : SocketCall) : bool :=
  match c with
  | SocketEmit e _ => bool_decide (e = "doc_subscribe")
  | _ => false
  end.
Definition is_fire (s : Step) : bool :=
  match s with TimerFires => true | _ => false end.

(** The documents the server has been told are open: every
    [doc_subscribe] message adds one, every [doc_unsubscribe] message
    takes one away. *)
Definition announced (cs : list SocketCall) : gset string :=
  foldl (λ acc c,
           match c with
           | SocketEmit e [d; n] =>
               if bool_decide (e = "doc_subscribe") then {[key d n]} ∪ acc
               else if bool_decide (e = "doc_unsubscribe")
               then acc ∖ {[key d n]}
               else acc
           | _ => acc
           end) ∅ cs.

(** A step that goes through the [doc_] methods and does not send
    their two messages by hand. *)
Definition through_methods (s : Step) : bool :=
  match s with
  | CallEmit e _ | CallPublish e _ =>
      negb (bool_decide (e = "doc_subscribe"))
      && negb (bool_decide (e = "doc_unsubscribe"))
  | _ => true
  end.

(** The character [":"] does not occur in [s]. *)
Fixpoint no_colon (s : string) : bool :=
  match s with
  | EmptyString => true
  | String c s' => negb (bool_decide (String c "" = ":")) && no_colon s'
  end.

(** The throttle, as an invariant of one step: at most one timer is
    pending, the flag is up exactly while it is, and every
    [doc_subscribe] message but the first is paid for by a firing. *)
Definition throttled (h : t) (budget : nat) : Prop :=
  (timers h ≤ 1)%nat
  ∧ (subscribing h = true ↔ timers h = 1%nat)
  ∧ (length (filter (λ c, is_subscribe c) (calls h))
     + (if subscribing h then 0 else 1) ≤ S budget)%nat.

End RealTimeHandler.

(** * The socket client: the cookie lookup of [initSocket] *)

(** [p] is a prefix of [s]. *)
Fixpoint starts_with (p s : string) : bool :=
  match p, s with
  | EmptyString, _ => true
  | String a p', String b s' => bool_decide (a = b) && starts_with p' s'
  | String _ _, EmptyString => false
  end.

(** [s.split(sep)] for a separator that is not empty: the text is read
    from the left, and a match of the separator closes the current
    piece. [skip] counts the characters of a matched separator that are
    still to be passed over. *)
Fixpoint split_go (sep : string) (skip : nat) (cur s : string)
    : list string :=
  match s with
  | EmptyString => [cur]
  | String c s' =>
      match skip with
      | S k => split_go sep k cur s'
      | O =>
          if starts_with sep s
          then cur :: split_go sep (String.length sep - 1) "" s'
          else split_go sep O (cur +:+ String c "") s'
      end
  end.

Definition split (sep s : string) : list string := split_go sep 0 "" s.

(** [parts.pop().split(";").shift()] when [parts.length === 2]. *)
Definition getCookie (cookie name : string) : option string :=
  let value := "; " +:+ cookie in
  let parts := split ("; " +:+ name +:+ "=") value in
  if bool_decide (length parts = 2%nat)
  then last parts ≫= λ p, head (split ";" p)
  else None.

(** [document.cookie] for a jar of cookies: the pairs [name=value],
    joined by a semicolon and a space. *)
Definition cookie_string (jar : list (string * string)) : string :=
  String.concat "; " ((λ p, p.1 +:+ "=" +:+ p.2) <$> jar).

Fixpoint has_char (c : ascii) (s : string) : bool :=
  match s with
  | EmptyString => false
  | String c' s' => bool_decide (c' = c) || has_char c s'
  end.

(** No name holds a semicolon or an equals sign, no value holds a
    semicolon. *)
Definition cookie_syntax (p : string * string) : bool :=
  negb (has_char ";" p.1) && negb (has_char "=" p.1)
  && negb (has_char ";" p.2).

(** The separator that [getCookie] splits at, and the text one cookie
    adds to [`; ${document.cookie}`]. *)
Definition cookie_separator (name : string) : string :=
  "; " +:+ name +:+ "=".
Definition cookie_chunk (p : string * string) : string :=
  "; " +:+ p.1 +:+ "=" +:+ p.2.

(** The text that follows in [`; ${document.cookie}`], cookie by
    cookie. *)
Fixpoint jar_text (jar : list (string * string)) : string :=
  match jar with
  | [] => ""
  | p :: jar' => cookie_chunk p +:+ jar_text jar'
  end.

(** [getCookie] on the text it splits, with the piece read so far. *)
Definition cookie_of_parts (parts : list string) : option string :=
  if bool_decide (length parts = 2%nat)
  then last parts ≫= λ p, head (split ";" p)
  else None.

(** * UUID generation: [generateUUID] *)

(** [d.toString(16)] for one digit. *)
Definition hex_digit (d : Z) : ascii :=
  match d with
  | 0 => "0" | 1 => "1" | 2 => "2" | 3 => "3" | 4 => "4" | 5 => "5"
  | 6 => "6" | 7 => "7" | 8 => "8" | 9 => "9" | 10 => "a" | 11 => "b"
  | 12 => "c" | 13 => "d" | 14 => "e" | _ => "f"
  end%char.

(** The digits of a non-negative integer, most significant first. *)
Fixpoint hex_go (fuel : nat) (n : Z) (acc : string) : string :=
  match fuel with
  | O => acc
  | S f =>
      let acc' := String (hex_digit (n mod 16)) acc in
      if bool_decide (n < 16) then acc' else hex_go f (n / 16) acc'
  end.

(** [v.toString(16)] for an integer [v]. *)
Definition toString16 (v : Z) : string :=
  if bool_decide (v < 0)
  then "-" +:+ hex_go (S (Z.to_nat (- v))) (- v) ""
  else hex_go (S (Z.to_nat v)) v "".

(** [x | 0]: the number truncated toward zero, then wrapped to a signed
    32-bit integer. *)
Definition to_int32 (x : Q) : Z :=
  let t := if Qle_bool 0 x then Qfloor x else Qceiling x in
  let m := t mod 2 ^ 32 in
  if bool_decide (m < 2 ^ 31) then m else m - 2 ^ 32.

(** The callback of [replace]: [c] is the character matched, [x] what
    [Math.random()] returns. *)
Definition uuid_digit (c : ascii) (x : Q) : string :=
  let r := to_int32 (x * 16) in
  let v := if bool_decide (c = "x"%char) then r else Z.lor (Z.land r 3) 8 in
  toString16 v.

(** [template.replace(/[xy]/g, callback)]; [k] counts the calls of
    [Math.random] so far. *)
Fixpoint replace_xy (random : nat → Q) (k : nat) (template : string)
    : string :=
  match template with
  | EmptyString => EmptyString
  | String c s =>
      if bool_decide (c = "x"%char) || bool_decide (c = "y"%char)
      then uuid_digit c (random k) +:+ replace_xy random (S k) s
      else String c (replace_xy random k s)
  end.

(** [native] is what [crypto.randomUUID()] returns where it exists. *)
Definition generateUUID (native : option string) (random : nat → Q)
    : string :=
  match native with
  | Some u => u
  | None => replace_xy random 0 "xxxxxxxx-xxxx-4xxx-yxxx-xxxxxxxxxxxx"
  end.

(** The shape of a version-4 UUID, character by character: a hex digit
    for [x], one of [8 9 a b] for [y], the character itself
    otherwise. *)
Definition fits (t c : ascii) : bool :=
  if bool_decide (t = "x"%char) then has_char c "0123456789abcdef"
  else if bool_decide (t = "y"%char) then has_char c "89ab"
  else bool_decide (c = t).

Fixpoint fits_template (t s : string) : bool :=
  match t, s with
  | EmptyString, EmptyString => true
  | String a t', String b s' => fits a b && fits_template t' s'
  | _, _ => false
  end.

(** ** Facts about the views *)

Lemma is_edge_not_node el : is_edge el = true → is_node el = false.
Proof.
  unfold is_edge, is_node. destruct (truthy (el_source el)); simpl; [done|].
  discriminate.
Qed.

Lemma nodes_of_app a b : nodes_of (a ++ b) = nodes_of a ++ nodes_of b.
Proof. apply filter_app. Qed.

Lemma edges_of_app a b : edges_of (a ++ b) = edges_of a ++ edges_of b.
Proof. apply filter_app. Qed.

Lemma filter_all {A} (P : A → Prop) `{!∀ x, Decision (P x)} (l : list A) :
  Forall P l → filter P l = l.
Proof.
  induction 1 as [|x l Hx _ IH]; [done|].
  rewrite filter_cons_True; [|done]. by rewrite IH.
Qed.

Lemma filter_none {A} (P : A → Prop) `{!∀ x, Decision (P x)} (l : list A) :
  Forall (λ x, ¬ P x) l → filter P l = [].
Proof.
  induction 1 as [|x l Hx _ IH]; [done|].
  by rewrite filter_cons_False.
Qed.

Lemma Forall_filter_self {A} (P : A → Prop) `{!∀ x, Decision (P x)}
    (l : list A) : Forall P (filter P l).
Proof. apply Forall_forall. intros x Hx. by apply list_elem_of_filter in Hx as []. Qed.

Lemma Forall_filter_keep {A} (P Q : A → Prop) `{!∀ x, Decision (Q x)}
    (l : list A) : Forall P l → Forall P (filter Q l).
Proof.
  rewrite !Forall_forall. intros HP x Hx.
  apply list_elem_of_filter in Hx as []. auto.
Qed.

(** Splitting a node list followed by an edge list gives the two back. *)
Lemma views_of_split (ns es : list Element) :
  Forall (λ el, is_node el) ns → Forall (λ el, is_edge el) es →
  nodes_of (ns ++ es) = ns ∧ edges_of (ns ++ es) = es.
Proof.
  intros Hn He. rewrite nodes_of_app, edges_of_app. unfold nodes_of, edges_of.
  rewrite (filter_all _ ns Hn), (filter_all _ es He).
  rewrite (filter_none (λ el, is_node el) es), (filter_none (λ el, is_edge el) ns).
  - by rewrite app_nil_r.
  - eapply Forall_impl; [apply Hn|]. intros el H1 H2. simpl in *.
    destruct (is_edge el) eqn:E; [|done].
    apply is_edge_not_node in E. by rewrite E in H1.
  - eapply Forall_impl; [apply He|]. intros el H1 H2. simpl in *.
    destruct (is_edge el) eqn:E; [|done].
    apply is_edge_not_node in E. by rewrite E in H2.
Qed.

Lemma lookup_foldl_delete {V} (m : gmap string V) (ids : list string) k :
  foldl (λ m k, delete k m) m ids !! k = if decide (k ∈ ids) then None else m !! k.
Proof.
  revert m. induction ids as [|i ids IH]; intros m; simpl.
  - destruct (decide (k ∈ [])) as [Hk|]; [by apply elem_of_nil in Hk|done].
  - rewrite IH. destruct (decide (k ∈ ids)) as [Hin|Hnin].
    + by rewrite decide_True by set_solver.
    + destruct (decide (k = i)) as [->|Hne].
      * rewrite lookup_delete_eq. by rewrite decide_True by set_solver.
      * rewrite lookup_delete_ne by done.
        rewrite decide_False; [done|].
        by intros [?|?]%elem_of_cons.
Qed.

Lemma foldl_delete_idem {V} (m : gmap string V) (ids : list string) :
  foldl (λ m k, delete k m) (foldl (λ m k, delete k m) m ids) ids
  = foldl (λ m k, delete k m) m ids.
Proof.
  apply map_eq. intros k. rewrite !lookup_foldl_delete. by case_decide.
Qed.

(** ** The render helper leaves the store and the session alone *)

Lemma safeRender_frame w st force :
  let s := (safeRender w st force).1 in
  elements s = elements st ∧ nodeCreationOrder s = nodeCreationOrder st
  ∧ selectedNode s = selectedNode st ∧ editingNode s = editingNode st
  ∧ isSaving s = isSaving st ∧ editingStartTime s = editingStartTime st
  ∧ changedNodeIds s = changedNodeIds st ∧ renderer s = renderer st.
Proof.
  unfold safeRender. destruct (renderer st) eqn:Hr; simpl; [|by rewrite Hr].
  destruct (truthy (editingNode st) && negb force); simpl; by rewrite ?Hr.
Qed.

(** ** Remote deletions *)

Lemma setData_frame ns es o st :
  let s := setData ns es o st in
  elements s = elements st ∧ nodeCreationOrder s = nodeCreationOrder st
  ∧ selectedNode s = selectedNode st ∧ editingNode s = editingNode st
  ∧ isSaving s = isSaving st ∧ editingStartTime s = editingStartTime st
  ∧ changedNodeIds s = changedNodeIds st.
Proof. done. Qed.

Section deletion.
Context (ctx : Ctx) (w : World).

Lemma nodesDeleted_tick_frame k st :
  let s := nodesDeleted_tick w k st in
  elements s = elements st ∧ nodeCreationOrder s = nodeCreationOrder st
  ∧ isSaving s = isSaving st.
Proof.
  unfold nodesDeleted_tick.
  pose proof (safeRender_frame w (setData k.1 k.2 (nodeCreationOrder st) st) false) as HF.
  simpl in *. by destruct HF as (-> & -> & _ & _ & -> & _).
Qed.

Lemma nodesDeleted_sync_store st payload :
  let s := (nodesDeleted_sync ctx st payload).1 in
  isSaving s = isSaving st
  ∧ match payload with
    | Some p =>
        if deletion_accepted ctx st payload
        then elements s
             = surviving_nodes (d_node_ids p) (elements st)
               ++ surviving_edges (d_node_ids p) (elements st)
             ∧ nodeCreationOrder s
               = foldl (λ m k, delete k m) (nodeCreationOrder st)
                   (d_node_ids p)
        else elements s = elements st
             ∧ nodeCreationOrder s = nodeCreationOrder st
    | None => elements s = elements st
              ∧ nodeCreationOrder s = nodeCreationOrder st
    end.
Proof.
  unfold nodesDeleted_sync, deletion_accepted.
  destruct payload as [p|]; [|done].
  repeat case_bool_decide; simpl; try done.
  all: destruct (isSaving st) eqn:Hs; simpl; try done.
  destruct (hasSaveSnapshot ctx),
    (includes _ (editingNode st) || includes _ (selectedNode st)); simpl.
  all: destruct (renderer st) eqn:Hr; simpl; [|done].
  all: try (destruct (truthy (editingNode st)); simpl); done.
Qed.

Lemma nodesDeleted_store st payload :
  let s := handleRealtimeNodesDeleted ctx w st payload in
  isSaving s = isSaving st
  ∧ match payload with
    | Some p =>
        if deletion_accepted ctx st payload
        then elements s
             = surviving_nodes (d_node_ids p) (elements st)
               ++ surviving_edges (d_node_ids p) (elements st)
             ∧ nodeCreationOrder s
               = foldl (λ m k, delete k m) (nodeCreationOrder st)
                   (d_node_ids p)
        else elements s = elements st
             ∧ nodeCreationOrder s = nodeCreationOrder st
    | None => elements s = elements st
              ∧ nodeCreationOrder s = nodeCreationOrder st
    end.
Proof.
  pose proof (nodesDeleted_sync_store st payload) as HS.
  unfold handleRealtimeNodesDeleted.
  destruct (nodesDeleted_sync ctx st payload) as [s1 [k|]]; [|done].
  pose proof (nodesDeleted_tick_frame k s1) as (He & Ho & Hv).
  simpl in *. by rewrite He, Ho, Hv.
Qed.

Lemma surviving_nodes_are_nodes ids els :
  Forall (λ el, is_node el) (surviving_nodes ids els).
Proof. apply Forall_filter_keep, Forall_filter_self. Qed.

Lemma surviving_edges_are_edges ids els :
  Forall (λ el, is_edge el) (surviving_edges ids els).
Proof. apply Forall_filter_keep, Forall_filter_self. Qed.

Lemma filter_twice {A} (P : A → Prop) `{!∀ x, Decision (P x)} (l : list A) :
  filter P (filter P l) = filter P l.
Proof. apply filter_all, Forall_filter_self. Qed.

Lemma surviving_idem ids els :
  let els' := surviving_nodes ids els ++ surviving_edges ids els in
  surviving_nodes ids els' = surviving_nodes ids els
  ∧ surviving_edges ids els' = surviving_edges ids els.
Proof.
  pose proof (views_of_split _ _ (surviving_nodes_are_nodes ids els)
                (surviving_edges_are_edges ids els)) as [Hn He].
  simpl. unfold surviving_nodes at 1. unfold surviving_edges at 2.
  rewrite Hn, He. unfold surviving_nodes, surviving_edges.
  by rewrite !filter_twice.
Qed.
End deletion.

(** C6. Delivering the same deletion twice leaves the element list and
    the creation-order index as one delivery does, and once a deletion
    has been accepted no edge of the store has a deleted id as its
    source or target. *)
Theorem C6_deletion_idempotent ctx w w' st payload :
  let s1 := handleRealtimeNodesDeleted ctx w st payload in
  let s2 := handleRealtimeNodesDeleted ctx w' s1 payload in
  (elements s2 = elements s1 ∧ nodeCreationOrder s2 = nodeCreationOrder s1)
  ∧ (deletion_accepted ctx st payload = true →
     ∀ p e x, payload = Some p → e ∈ edges_of (elements s1) →
              x ∈ d_node_ids p →
              el_source e ≠ Some x ∧ el_target e ≠ Some x).
Proof.
  intros s1 s2.
  pose proof (nodesDeleted_store ctx w st payload) as [Hv1 H1].
  pose proof (nodesDeleted_store ctx w' s1 payload) as [Hv2 H2].
  fold s1 in Hv1, H1, H2. fold s2 in H2.
  assert (Hacc : deletion_accepted ctx s1 payload
                 = deletion_accepted ctx st payload).
  { unfold deletion_accepted. by rewrite Hv1. }
  rewrite Hacc in H2. destruct payload as [p|]; [|done].
  destruct (deletion_accepted ctx st (Some p)) eqn:Ha; [|split; [done|done]].
  destruct H1 as [He1 Ho1], H2 as [He2 Ho2]. split.
  - rewrite He2, Ho2, He1, Ho1.
    pose proof (surviving_idem (d_node_ids p) (elements st)) as [-> ->].
    by rewrite foldl_delete_idem.
  - intros _ p' e x [= <-] Hin Hx. rewrite He1 in Hin.
    pose proof (views_of_split _ _
                  (surviving_nodes_are_nodes (d_node_ids p) (elements st))
                  (surviving_edges_are_edges (d_node_ids p) (elements st)))
      as [_ Hed].
    rewrite Hed in Hin. unfold surviving_edges in Hin.
    apply list_elem_of_filter in Hin as [Hk _].
    apply andb_prop_elim in Hk as [Hs Ht].
    split; intros Heq; rewrite Heq in *; simpl in *.
    + apply negb_prop_elim in Hs. apply Hs. by apply bool_decide_pack.
    + apply negb_prop_elim in Ht. apply Ht. by apply bool_decide_pack.
Qed.



(** ** Callbacks that leave the store and the session alone *)

Lemma same_store_refl st : same_store st st.
Proof. by repeat split. Qed.

Lemma same_store_trans a b c : same_store a b → same_store b c → same_store a c.
Proof.
  intros (?&?&?&?&?&?&?) (?&?&?&?&?&?&?). repeat split; congruence.
Qed.

Lemma same_store_safeRender w st force : same_store (safeRender w st force).1 st.
Proof.
  pose proof (safeRender_frame w st force) as H. simpl in H.
  unfold same_store. tauto.
Qed.

Lemma same_store_step f s st :
  (∀ x, same_store (f x) x) → same_store s st → same_store (f s) st.
Proof. intros Hf Hs. eapply same_store_trans; [apply Hf|done]. Qed.

Ltac store_frame :=
  repeat first
    [ apply same_store_refl
    | eapply same_store_trans; [apply same_store_safeRender|]
    | progress (unfold same_store; simpl; repeat split; reflexivity) ].

Lemma tick_render_store ctx w k st r2 :
  same_store (tick_render ctx w k st r2).1 st.
Proof.
  unfold tick_render.
  destruct (tick_patch_d3 ctx w k (changedNodeIds st) r2) as [r3 es].
  repeat case_match; simpl; store_frame.
Qed.

Lemma nodeUpdate_tick_store ctx fuel w k st s b :
  nodeUpdate_tick ctx fuel w k st = Some (s, b) → same_store s st.
Proof.
  unfold nodeUpdate_tick. intros H.
  destruct (renderer st) as [r|]; [|injection H as <- <-; store_frame].
  destruct (tick_invalidate fuel k (elements st) r) as [r2|]; [|done].
  simpl in H. injection H as H.
  pose proof (tick_render_store ctx w k st r2) as HS.
  by rewrite H in HS.
Qed.

(** ** What the batch callback leaves of the store

    The callback either lays out and renders, and then leaves the
    store alone, or writes the patches through to the [data] objects
    that the renderer and the store share. *)

Lemma write_shared_fold patches ns :
  foldl (λ ns p, write_shared (n_id p) (batch_patch_d3 p) ns) ns patches
  = (λ el, el_map_data (batch_written patches (el_id el)) el) <$> ns.
Proof.
  revert ns. induction patches as [|p ps IH]; intros ns.
  - simpl. rewrite <- (list_fmap_id ns) at 1. apply list_fmap_ext.
    intros i el _. by destruct el.
  - simpl. rewrite IH. unfold write_shared. rewrite <- list_fmap_compose.
    apply list_fmap_ext. intros i el _. simpl.
    unfold batch_written, has_id. rewrite filter_cons.
    destruct (decide (el_id el = n_id p)) as [Heq|Hne].
    + rewrite bool_decide_eq_true_2 by done.
      rewrite decide_True by done. by destruct el.
    + rewrite bool_decide_eq_false_2 by done.
      rewrite decide_False by (by intros ?). done.
Qed.

Lemma batch_render_elements w k st r2 :
  elements (batch_render w k st r2)
  = if truthy (editingNode st) && negb (bk_hasNewNodes k)
       && (includes (n_id <$> bk_remoteNodeUpdates k) (bk_editingNodeId k)
           || includes (n_id <$> bk_remoteNodeUpdates k)
                (bk_selectedNodeId k))
    then ((λ el, el_map_data
                   (batch_written (bk_remoteNodeUpdates k) (el_id el)) el)
          <$> bk_updatedNodes k)
         ++ drop (length (bk_updatedNodes k)) (elements st)
    else elements st.
Proof.
  unfold batch_render. cbn [editingNode set_renderer].
  destruct (truthy (editingNode st) && negb (bk_hasNewNodes k) && _).
  - cbn [elements set_elements]. by rewrite write_shared_fold.
  - destruct (truthy (editingNode st) && bk_hasNewNodes k);
      match goal with
      | |- context [safeRender ?w ?s ?f] =>
          by destruct (safeRender_frame w s f) as [-> _]
      end.
Qed.

(** The callback changes nothing of the session and of the
    creation-order index. *)
Lemma batch_render_session w k st r2 :
  let s := batch_render w k st r2 in
  nodeCreationOrder s = nodeCreationOrder st
  ∧ selectedNode s = selectedNode st ∧ editingNode s = editingNode st
  ∧ isSaving s = isSaving st ∧ editingStartTime s = editingStartTime st
  ∧ changedNodeIds s = changedNodeIds st.
Proof.
  unfold batch_render. cbn [editingNode set_renderer].
  destruct (truthy (editingNode st) && negb (bk_hasNewNodes k) && _);
    [done|].
  destruct (truthy (editingNode st) && bk_hasNewNodes k);
    match goal with
    | |- context [safeRender ?w ?s ?f] =>
        destruct (safeRender_frame w s f) as (_ & -> & -> & -> & -> & -> & -> & _)
    end; done.
Qed.

(** The nodes that the synchronous part hands to the callback are the
    leading entries of the element list it stored. *)
Lemma nodesBatchUpdate_sync_shares ctx st payload s1 k :
  nodesBatchUpdate_sync ctx st payload = (s1, Some k) →
  ∃ es, elements s1 = bk_updatedNodes k ++ es
        ∧ Forall (λ el, is_node el = true) (bk_updatedNodes k).
Proof.
  unfold nodesBatchUpdate_sync. destruct payload as [p|]; [|done].
  repeat (case_match; try done).
  all: intros [= <- <-]; cbn [elements set_elements emit bk_updatedNodes].
  all: eexists; split; [reflexivity|].
  all: apply Forall_app; split.
  all: try (apply Forall_fmap, Forall_forall; intros e He;
            apply list_elem_of_filter in He as [He _];
            apply Is_true_true in He; simpl;
            by destruct (find_patch (b_nodes p) (el_id e))).
  all: apply Forall_fmap, Forall_forall; by intros n _.
Qed.

Lemma edges_of_all_nodes ns :
  Forall (λ el, is_node el = true) ns → edges_of ns = [].
Proof.
  intros H. apply filter_none. eapply Forall_impl; [exact H|].
  intros el Hn He. simpl in He. apply Is_true_true in He.
  apply is_edge_not_node in He. congruence.
Qed.

(** What the whole handler leaves in the store, against what its
    synchronous part stored: the same elements in the same places, up
    to the [data] of nodes. *)
Lemma batch_result_shape ctx fuel w st payload s :
  handleRealtimeNodesBatchUpdate ctx fuel w st payload = Some s →
  ∃ ns es F,
    elements (nodesBatchUpdate_sync ctx st payload).1 = ns ++ es
    ∧ Forall (λ el, is_node el = true) ns
    ∧ elements s = ((λ el, el_map_data (F (el_id el)) el) <$> ns) ++ es.
Proof.
  unfold handleRealtimeNodesBatchUpdate.
  destruct (nodesBatchUpdate_sync ctx st payload) as [s1 [k|]] eqn:Hsync.
  2:{ intros [= <-]. exists [], (elements s1), (λ _ d, d). by split. }
  destruct (nodesBatchUpdate_sync_shares _ _ _ _ _ Hsync) as (es & Hel & Hns).
  unfold nodesBatchUpdate_tick.
  destruct (renderer s1) as [r|].
  2:{ intros [= <-]. exists [], (elements s1), (λ _ d, d). by split. }
  destruct (batch_invalidate fuel k (elements s1) r) as [r2|]; [|done].
  simpl. intros [= <-]. rewrite batch_render_elements.
  destruct (truthy (editingNode s1) && _ && _).
  - exists (bk_updatedNodes k), es,
      (batch_written (bk_remoteNodeUpdates k)).
    split; [done|]. split; [done|].
    by rewrite Hel, drop_app_length.
  - exists (bk_updatedNodes k), es, (λ _ d, d).
    split; [done|]. split; [done|]. simpl. rewrite Hel. f_equal.
    rewrite <- (list_fmap_id (bk_updatedNodes k)) at 1.
    apply list_fmap_ext. intros i el _. by destruct el.
Qed.

Lemma batch_result_edges ctx fuel w st payload s :
  handleRealtimeNodesBatchUpdate ctx fuel w st payload = Some s →
  edges_of (elements s)
  = edges_of (elements (nodesBatchUpdate_sync ctx st payload).1).
Proof.
  intros Hs. destruct (batch_result_shape _ _ _ _ _ _ Hs)
    as (ns & es & F & -> & Hns & ->).
  rewrite !edges_of_app. f_equal. rewrite (edges_of_all_nodes _ Hns).
  apply edges_of_all_nodes, Forall_fmap. eapply Forall_impl; [exact Hns|].
  by intros el Hel.
Qed.

Lemma batch_result_node_ids ctx fuel w st payload s :
  handleRealtimeNodesBatchUpdate ctx fuel w st payload = Some s →
  node_ids (elements s)
  = node_ids (elements (nodesBatchUpdate_sync ctx st payload).1).
Proof.
  intros Hs. destruct (batch_result_shape _ _ _ _ _ _ Hs)
    as (ns & es & F & -> & Hns & ->).
  unfold node_ids. rewrite !nodes_of_app, !fmap_app. f_equal.
  unfold nodes_of. rewrite (filter_all _ ns).
  2:{ eapply Forall_impl; [exact Hns|]. intros el Hel. by rewrite Hel. }
  rewrite filter_all.
  2:{ apply Forall_fmap. eapply Forall_impl; [exact Hns|].
      intros el Hel.
      change (Is_true (is_node el)). by rewrite Hel. }
  rewrite <- list_fmap_compose. by apply list_fmap_ext.
Qed.


Section content_frame.
Context (nfc trim : string → string) (imageCount : string → nat)
        (rebuild : string → string) (w : World).

Lemma proceedWithSetContent_store n st :
  same_store (proceedWithSetContent nfc trim w n st) st.
Proof.
  unfold proceedWithSetContent.
  destruct (checkEditorReady w 20 0) as [waited inst].
  repeat case_match; simpl; store_frame.
Qed.

Lemma mountAndSetContent_store n st :
  same_store (mountAndSetContent nfc trim w n st) st.
Proof.
  unfold mountAndSetContent.
  repeat case_match; simpl;
    repeat (eapply same_store_trans; [apply proceedWithSetContent_store|]);
    store_frame.
Qed.

Lemma setContentMounted_store n edited st :
  same_store (setContentMounted nfc trim imageCount rebuild w n edited st).1 st.
Proof.
  unfold setContentMounted.
  destruct (checkAndSetContent w 5 0 (w_poll w 0)) as [waited inst].
  repeat case_match; simpl; store_frame.
Qed.

Lemma setContentStep_store k st :
  same_store (setContentStep nfc trim imageCount rebuild w k st).1 st.
Proof.
  unfold setContentStep.
  repeat case_match; simpl;
    first [ apply setContentMounted_store
          | apply mountAndSetContent_store
          | store_frame ].
Qed.
End content_frame.

(** ** The single-parent invariant *)

Lemma is_node_not_edge el : is_node el = true → is_edge el = false.
Proof.
  unfold is_edge, is_node. destruct (truthy (el_source el)); simpl; [done|].
  done.
Qed.

Lemma findIndex_Some {A} (p : A → bool) (l : list A) i :
  findIndex p l = Some i → ∃ x, l !! i = Some x ∧ p x = true.
Proof.
  revert i. induction l as [|x l IH]; intros i; simpl; [done|].
  destruct (p x) eqn:Hp.
  - intros [= <-]. eauto.
  - destruct (findIndex p l) as [j|]; [|done].
    intros [= <-]. destruct (IH j eq_refl) as (y & ? & ?). eauto.
Qed.

Lemma edges_of_insert els i el el' :
  els !! i = Some el → is_edge el = false → is_edge el' = false →
  edges_of (<[i:=el']> els) = edges_of els.
Proof.
  unfold edges_of. revert i.
  induction els as [|x els IH]; intros i Hi He He'; [done|].
  destruct i as [|i]; simpl in *.
  - injection Hi as ->.
    rewrite !filter_cons_False; [done| |]; intros HH; apply Is_true_true in HH; congruence.
  - rewrite !filter_cons. rewrite (IH i) by done. done.
Qed.

Lemma edges_of_snoc_node els n : edges_of (els ++ [of_node n]) = edges_of els.
Proof. rewrite edges_of_app. unfold edges_of at 2. simpl. apply app_nil_r. Qed.

Lemma update_element_not_edge n a b c el :
  is_edge el = false → is_edge (update_element n a b c el) = false.
Proof. unfold update_element. by repeat case_match. Qed.

Lemma edges_of_filter P `{!∀ x, Decision (P x)} els :
  edges_of (filter P els) = filter P (edges_of els).
Proof.
  unfold edges_of. rewrite !list_filter_filter.
  apply list_filter_iff. intros x. tauto.
Qed.

Lemma single_parent_replace_edge e els :
  single_parent els → single_parent (replace_edge e els).
Proof.
  unfold single_parent, edge_targets, replace_edge. intros Hnd.
  rewrite edges_of_app, edges_of_filter, fmap_app.
  apply NoDup_app. split; [|split].
  - eapply sublist_NoDup; [apply Hnd|]. apply fmap_sublist, sublist_filter.
  - intros t Ht Ht'.
    apply list_elem_of_fmap in Ht as (x & -> & Hx).
    apply list_elem_of_filter in Hx as [Hkeep Hx].
    apply list_elem_of_filter in Hx as [Hedge _].
    apply list_elem_of_fmap in Ht' as (y & Hy & Hy').
    unfold edges_of in Hy'. simpl in Hy'.
    destruct (is_edge (of_edge e)) eqn:Hee.
    + rewrite filter_cons_True in Hy' by (by rewrite Hee).
      apply list_elem_of_singleton in Hy' as ->. simpl in Hy.
      unfold is_edge in Hedge. apply andb_prop_elim in Hedge as [Hs Htg].
      apply Is_true_true in Hs. apply Is_true_true in Htg.
      rewrite Hs, Htg in Hkeep. simpl in Hkeep.
      apply negb_prop_elim in Hkeep. apply Hkeep. by apply bool_decide_pack.
    + rewrite filter_cons_False in Hy'
        by (intros HH; by rewrite Hee in HH).
      by apply elem_of_nil in Hy'.
  - unfold edges_of. simpl.
    destruct (is_edge (of_edge e)) eqn:Hee.
    + rewrite filter_cons_True by (by rewrite Hee). simpl.
      apply NoDup_singleton.
    + rewrite filter_cons_False by (intros HH; by rewrite Hee in HH).
      apply NoDup_nil_2.
Qed.

Lemma nodeUpdate_sync_single_parent ctx w now st payload :
  single_parent (elements st) →
  single_parent (elements (nodeUpdate_sync ctx w now st payload).1).
Proof.
  intros Hsp. unfold nodeUpdate_sync.
  destruct payload as [p|]; [|done].
  destruct (bool_decide (u_entity_name p ≠ entityName ctx)); [done|].
  destruct (bool_decide (u_modified_by p = currentUser ctx)); [done|].
  destruct (isSaving st && _); [done|].
  destruct (u_node p) as [n|]; [|done].
  set (P := λ el, has_id (n_id n) el && is_node el).
  set (els1 := match findIndex P (elements st) with
               | Some i => _ | None => _ end).
  assert (He1 : edges_of els1 = edges_of (elements st)).
  { subst els1. destruct (findIndex P (elements st)) as [i|] eqn:Hi.
    - apply findIndex_Some in Hi as (x & Hx & HP). rewrite Hx.
      subst P. simpl in HP. apply andb_true_iff in HP as [_ HP].
      apply is_node_not_edge in HP.
      eapply edges_of_insert; [done|done|by apply update_element_not_edge].
    - apply edges_of_snoc_node. }
  assert (Hsp1 : single_parent els1).
  { unfold single_parent, edge_targets. by rewrite He1. }
  clearbody els1.
  repeat (case_match; simpl; try done);
    by apply single_parent_replace_edge.
Qed.

Lemma edges_of_nodes ns :
  Forall (λ el, is_node el) ns → edges_of ns = [].
Proof.
  intros H. apply filter_none. eapply Forall_impl; [apply H|].
  intros el H1 H2. simpl in *. destruct (is_edge el) eqn:E; [|done].
  apply is_edge_not_node in E. by rewrite E in H1.
Qed.

Lemma edges_of_idem els : edges_of (edges_of els) = edges_of els.
Proof. apply filter_all, Forall_filter_self. Qed.

Lemma single_parent_batch_edges els es :
  single_parent els → NoDup (edge_targets (of_edge <$> es)) →
  NoDup (edge_targets (batch_edges els es)).
Proof.
  unfold single_parent, edge_targets, batch_edges. intros Hold Hnew.
  rewrite edges_of_app, edges_of_filter, edges_of_idem, fmap_app.
  apply NoDup_app. split; [|split; [|done]].
  - eapply sublist_NoDup; [apply Hold|]. apply fmap_sublist, sublist_filter.
  - intros t Ht Ht'.
    apply list_elem_of_fmap in Ht as (x & -> & Hx).
    apply list_elem_of_filter in Hx as [Hkeep _].
    apply list_elem_of_fmap in Ht' as (y & Hy & Hy').
    apply list_elem_of_filter in Hy' as [Hedge Hy'].
    apply list_elem_of_fmap in Hy' as (e & -> & He).
    simpl in Hy. rewrite Hy in Hkeep. simpl in Hkeep.
    apply negb_prop_elim in Hkeep. apply Hkeep. apply bool_decide_pack.
    apply list_elem_of_filter. split.
    + unfold is_edge in Hedge. simpl in Hedge.
      by apply andb_prop_elim in Hedge as [_ ?].
    + apply list_elem_of_fmap. eauto.
Qed.

Lemma nodesBatchUpdate_sync_single_parent ctx st p :
  single_parent (elements st) →
  (∀ es, b_edges p = Some es → NoDup (edge_targets (of_edge <$> es))) →
  single_parent (elements (nodesBatchUpdate_sync ctx st (Some p)).1).
Proof.
  intros Hsp Hes. unfold nodesBatchUpdate_sync.
  destruct (bool_decide (b_entity_name p ≠ entityName ctx)); [done|].
  destruct (bool_decide (b_modified_by p = currentUser ctx)); [done|].
  destruct (isSaving st); [done|].
  destruct (bool_decide (b_nodes p = [])); [done|].
  destruct (allNodesAreBeingEdited _ _ _); [done|].
  set (ns := _ ++ (of_node <$> _)).
  set (eds := match b_edges p with Some _ => _ | None => _ end).
  assert (Hns : edges_of ns = []).
  { apply edges_of_nodes. subst ns. apply Forall_app. split.
    - apply Forall_fmap, Forall_forall. intros el Hel.
      apply list_elem_of_filter in Hel as [Hel _]. simpl.
      destruct (find_patch _ _); [|done].
      unfold el_spread, is_node in *. by simpl.
    - apply Forall_fmap, Forall_forall. by intros n _. }
  assert (Heds : NoDup (edge_targets eds)).
  { subst eds. destruct (b_edges p) as [es|] eqn:Hb.
    - apply single_parent_batch_edges; auto.
    - unfold edge_targets. by rewrite edges_of_idem. }
  assert (Hall : single_parent (ns ++ eds)).
  { unfold single_parent, edge_targets in *.
    by rewrite edges_of_app, Hns. }
  clearbody ns eds.
  by repeat (case_match; simpl; try done).
Qed.

(** C7, as amended. An update event with an edge keeps the single-parent
    invariant; a batch event keeps it when the truthy edges it carries
    have pairwise distinct targets. *)
Theorem C7_single_parent_preserved nfc trim imageCount rebuild
    ctx fuel w now st pu pb :
  single_parent (elements st) →
  (∀ es, b_edges pb = Some es → NoDup (edge_targets (of_edge <$> es))) →
  match handleRealtimeNodeUpdate nfc trim imageCount rebuild ctx fuel w
          now st (Some pu) with
  | Some s => single_parent (elements s)
  | None => True
  end
  ∧ match handleRealtimeNodesBatchUpdate ctx fuel w st (Some pb) with
    | Some s => single_parent (elements s)
    | None => True
    end.
Proof.
  intros Hsp Hes. split.
  - unfold handleRealtimeNodeUpdate.
    pose proof (nodeUpdate_sync_single_parent ctx w now st (Some pu) Hsp) as H1.
    destruct (nodeUpdate_sync ctx w now st (Some pu)) as [st1 [k|]]; [|done].
    simpl in H1.
    destruct (nodeUpdate_tick ctx fuel w k st1) as [[st2 go]|] eqn:Ht; [|done].
    apply nodeUpdate_tick_store in Ht as [Ht _]. simpl.
    destruct go.
    + pose proof (setContentStep_store nfc trim imageCount rebuild w k st2)
        as [Hc _].
      by rewrite Hc, Ht.
    + by rewrite Ht.
  - pose proof (nodesBatchUpdate_sync_single_parent ctx st pb Hsp Hes) as H1.
    destruct (handleRealtimeNodesBatchUpdate ctx fuel w st (Some pb))
      as [s|] eqn:Hs; [|done].
    unfold single_parent, edge_targets.
    by rewrite (batch_result_edges _ _ _ _ _ _ Hs).
Qed.

Lemma demo_single_parent : single_parent demo_elements.
Proof. apply (bool_decide_unpack _). vm_compute. exact I. Qed.

Lemma C7_witness :
  single_parent (elements demo_idle)
  ∧ match handleRealtimeNodeUpdate (λ s, s) ascii_trim_is_blank (λ _, O)
            (λ s, s) demo_ctx 8 demo_world 5000 demo_idle (Some demo_move) with
    | Some s => single_parent (elements s)
    | None => True
    end
  ∧ match handleRealtimeNodesBatchUpdate demo_ctx 8 demo_world demo_idle
            (Some demo_batch) with
    | Some s => single_parent (elements s)
    | None => True
    end.
Proof.
  split.
  - apply (bool_decide_unpack _). vm_compute. exact I.
  - apply (C7_single_parent_preserved (λ s, s) ascii_trim_is_blank (λ _, O)
             (λ s, s) demo_ctx 8 demo_world 5000 demo_idle demo_move
             demo_batch).
    + apply (bool_decide_unpack _). vm_compute. exact I.
    + intros es [= <-]. apply (bool_decide_unpack _). vm_compute. exact I.
Defined.

(** C7, the claim as written: a batch whose own edge list names one
    target twice leaves that target with two incoming edges. *)
Lemma C7_counterexample :
  single_parent (elements demo_idle)
  ∧ ∃ s, handleRealtimeNodesBatchUpdate demo_ctx 8 demo_world demo_idle
           (Some demo_two_parents) = Some s
         ∧ ¬ single_parent (elements s).
Proof.
  split.
  - apply (bool_decide_unpack _). vm_compute. exact I.
  - eexists. split; [vm_compute; reflexivity|].
    apply (bool_decide_unpack _). vm_compute. exact I.
Qed.

(** ** The saving flag is read by the gates only *)

Lemma set_saving_id st : set_saving (isSaving st) st = st.
Proof. by destruct st. Qed.

Lemma set_saving_twice a b st : set_saving a (set_saving b st) = set_saving a st.
Proof. done. Qed.

Lemma safeRender_saving w b st force :
  safeRender w (set_saving b st) force
  = (set_saving b (safeRender w st force).1, (safeRender w st force).2).
Proof.
  unfold safeRender. simpl. destruct (renderer st); [|done].
  by destruct (truthy (editingNode st) && negb force).
Qed.

Lemma emit_saving es b st : emit es (set_saving b st) = set_saving b (emit es st).
Proof. done. Qed.
Lemma set_renderer_saving r b st :
  set_renderer r (set_saving b st) = set_saving b (set_renderer r st).
Proof. done. Qed.
Lemma with_renderer_saving f b st :
  with_renderer f (set_saving b st) = set_saving b (with_renderer f st).
Proof. done. Qed.
Lemma set_elements_saving els b st :
  set_elements els (set_saving b st) = set_saving b (set_elements els st).
Proof. done. Qed.
Lemma set_order_saving o b st :
  set_order o (set_saving b st) = set_saving b (set_order o st).
Proof. done. Qed.
Lemma setData_saving ns es o b st :
  setData ns es o (set_saving b st) = set_saving b (setData ns es o st).
Proof. done. Qed.
Lemma saving_view b st :
  elements (set_saving b st) = elements st
  ∧ nodeCreationOrder (set_saving b st) = nodeCreationOrder st
  ∧ selectedNode (set_saving b st) = selectedNode st
  ∧ editingNode (set_saving b st) = editingNode st
  ∧ editingStartTime (set_saving b st) = editingStartTime st
  ∧ changedNodeIds (set_saving b st) = changedNodeIds st
  ∧ renderer (set_saving b st) = renderer st
  ∧ trace (set_saving b st) = trace st.
Proof. done. Qed.

(** Move the flag to the outside of a state expression. *)
Ltac push_saving :=
  repeat first
    [ rewrite emit_saving | rewrite set_renderer_saving
    | rewrite with_renderer_saving | rewrite set_elements_saving
    | rewrite set_order_saving | rewrite setData_saving
    | rewrite safeRender_saving
    | rewrite (proj1 (saving_view _ _))
    | rewrite (proj1 (proj2 (saving_view _ _)))
    | rewrite (proj1 (proj2 (proj2 (saving_view _ _))))
    | rewrite (proj1 (proj2 (proj2 (proj2 (saving_view _ _)))))
    | rewrite (proj1 (proj2 (proj2 (proj2 (proj2 (saving_view _ _))))))
    | rewrite (proj1 (proj2 (proj2 (proj2 (proj2 (proj2 (saving_view _ _)))))))
    | rewrite (proj1 (proj2 (proj2 (proj2 (proj2 (proj2 (proj2
                 (saving_view _ _))))))))
    | rewrite (proj2 (proj2 (proj2 (proj2 (proj2 (proj2 (proj2
                 (saving_view _ _)))))))) ].

Lemma tick_render_saving ctx w k b st r2 :
  tick_render ctx w k (set_saving b st) r2
  = (set_saving b (tick_render ctx w k st r2).1,
     (tick_render ctx w k st r2).2).
Proof.
  unfold tick_render. push_saving.
  destruct (tick_patch_d3 ctx w k (changedNodeIds st) r2) as [r3 es].
  push_saving.
  repeat (case_match; push_saving; try done).
Qed.

Lemma nodeUpdate_tick_saving ctx fuel w k b st :
  nodeUpdate_tick ctx fuel w k (set_saving b st)
  = (λ p, (set_saving b p.1, p.2)) <$> nodeUpdate_tick ctx fuel w k st.
Proof.
  unfold nodeUpdate_tick. simpl. destruct (renderer st) as [r|]; [|done].
  destruct (tick_invalidate fuel k (elements st) r) as [r2|]; [|done].
  simpl. by rewrite tick_render_saving.
Qed.

Section content_saving.
Context (nfc trim : string → string) (imageCount : string → nat)
        (rebuild : string → string) (w : World).

Lemma proceedWithSetContent_saving n b st :
  proceedWithSetContent nfc trim w n (set_saving b st)
  = set_saving b (proceedWithSetContent nfc trim w n st).
Proof.
  unfold proceedWithSetContent.
  destruct (checkEditorReady w 20 0) as [waited inst]. push_saving.
  repeat (case_match; push_saving; try done).
Qed.

Lemma mountAndSetContent_saving n b st :
  mountAndSetContent nfc trim w n (set_saving b st)
  = set_saving b (mountAndSetContent nfc trim w n st).
Proof.
  unfold mountAndSetContent. push_saving.
  repeat (case_match; push_saving;
          rewrite ?proceedWithSetContent_saving; try done).
Qed.

Lemma setContentMounted_saving n edited b st :
  setContentMounted nfc trim imageCount rebuild w n edited (set_saving b st)
  = (set_saving b
       (setContentMounted nfc trim imageCount rebuild w n edited st).1,
     (setContentMounted nfc trim imageCount rebuild w n edited st).2).
Proof.
  unfold setContentMounted.
  destruct (checkAndSetContent w 5 0 (w_poll w 0)) as [waited inst].
  push_saving.
  repeat (case_match; push_saving; try done).
Qed.

Lemma setContentStep_saving k b st :
  setContentStep nfc trim imageCount rebuild w k (set_saving b st)
  = (set_saving b (setContentStep nfc trim imageCount rebuild w k st).1,
     (setContentStep nfc trim imageCount rebuild w k st).2).
Proof.
  unfold setContentStep. push_saving.
  repeat (case_match; push_saving;
          rewrite ?mountAndSetContent_saving, ?setContentMounted_saving;
          try done).
Qed.
End content_saving.

(** Past its gate on the active edit node, the synchronous part of the
    update handler does not look at the flag. *)
Lemma nodeUpdate_sync_saving ctx w now b st p :
  same_id (u_node_id p) (editingNode st) = false →
  nodeUpdate_sync ctx w now (set_saving b st) (Some p)
  = (set_saving b (nodeUpdate_sync ctx w now (set_saving false st) (Some p)).1,
     (nodeUpdate_sync ctx w now (set_saving false st) (Some p)).2).
Proof.
  intros Hne. unfold nodeUpdate_sync. push_saving. rewrite Hne.
  cbn [isSaving set_saving]. rewrite !andb_false_r.
  destruct (bool_decide (u_entity_name p ≠ entityName ctx)); [done|].
  destruct (bool_decide (u_modified_by p = currentUser ctx)); [done|].
  destruct (u_node p) as [n|]; [|done].
  push_saving.
  set (els1 := match findIndex _ (elements st) with
               | Some i => _ | None => _ end).
  destruct (hasSaveSnapshot ctx && bool_decide _), (u_edge p); push_saving.
  all: repeat (case_match; push_saving; try done).
Qed.

(** C2, as amended. While a save is in flight, an update event is
    dropped when its [node_id] is the active edit node and is otherwise
    handled exactly as it would be with no save running; batch and
    deletion events are dropped whatever they target. *)
Theorem C2_saving_gate nfc trim imageCount rebuild ctx fuel w now st
    pu pb pd :
  isSaving st = true →
  (same_id (u_node_id pu) (editingNode st) = true →
   handleRealtimeNodeUpdate nfc trim imageCount rebuild ctx fuel w now st
     (Some pu) = Some st)
  ∧ (same_id (u_node_id pu) (editingNode st) = false →
     handleRealtimeNodeUpdate nfc trim imageCount rebuild ctx fuel w now st
       (Some pu)
     = set_saving true
       <$> handleRealtimeNodeUpdate nfc trim imageCount rebuild ctx fuel w
             now (set_saving false st) (Some pu))
  ∧ handleRealtimeNodesBatchUpdate ctx fuel w st (Some pb) = Some st
  ∧ handleRealtimeNodesDeleted ctx w st (Some pd) = st.
Proof.
  intros Hs. repeat split.
  - intros He. unfold handleRealtimeNodeUpdate, nodeUpdate_sync.
    rewrite Hs, He. simpl.
    destruct (bool_decide (u_entity_name pu ≠ entityName ctx)); [done|].
    by destruct (bool_decide (u_modified_by pu = currentUser ctx)).
  - intros He. rewrite <- (set_saving_id st) at 1. rewrite Hs.
    unfold handleRealtimeNodeUpdate.
    rewrite nodeUpdate_sync_saving by done.
    destruct (nodeUpdate_sync ctx w now (set_saving false st) (Some pu))
      as [s1 [k|]]; [|done].
    simpl. rewrite nodeUpdate_tick_saving.
    destruct (nodeUpdate_tick ctx fuel w k s1) as [[s2 go]|]; [|done].
    simpl. destruct go; [|done].
    by rewrite setContentStep_saving.
  - unfold handleRealtimeNodesBatchUpdate, nodesBatchUpdate_sync.
    rewrite Hs.
    destruct (bool_decide (b_entity_name pb ≠ entityName ctx)); [done|].
    by destruct (bool_decide (b_modified_by pb = currentUser ctx)).
  - unfold handleRealtimeNodesDeleted, nodesDeleted_sync.
    rewrite Hs.
    destruct (bool_decide (d_entity_name pd ≠ entityName ctx)); [done|].
    by destruct (bool_decide (d_modified_by pd = currentUser ctx)).
Qed.

Lemma C2_witness :
  isSaving demo_saving = true
  ∧ handleRealtimeNodeUpdate (λ s, s) ascii_trim_is_blank (λ _, O) (λ s, s)
      demo_ctx 8 demo_world 5000 demo_saving (Some demo_other)
    = set_saving true
      <$> handleRealtimeNodeUpdate (λ s, s) ascii_trim_is_blank (λ _, O)
            (λ s, s) demo_ctx 8 demo_world 5000
            (set_saving false demo_saving) (Some demo_other)
  ∧ handleRealtimeNodesBatchUpdate demo_ctx 8 demo_world demo_saving
      (Some demo_new_only) = Some demo_saving
  ∧ handleRealtimeNodesDeleted demo_ctx demo_world demo_saving
      (Some demo_delete) = demo_saving.
Proof.
  destruct (C2_saving_gate (λ s, s) ascii_trim_is_blank (λ _, O) (λ s, s)
              demo_ctx 8 demo_world 5000 demo_saving demo_other
              demo_new_only demo_delete eq_refl)
    as (_ & Hother & Hbatch & Hdel).
  split; [reflexivity|]. split; [|split; [exact Hbatch|exact Hdel]].
  apply Hother. vm_compute. reflexivity.
Defined.

(** C2, the claim as written: with a save in flight and [n1] under edit,
    a batch that only adds [n5] and a deletion of [n4] are both ignored,
    although neither targets [n1]; with no save running the same events
    change the store. *)
Lemma C2_counterexample :
  isSaving demo_saving = true ∧ editingNode demo_saving = Some "n1"
  ∧ handleRealtimeNodesBatchUpdate demo_ctx 8 demo_world demo_saving
      (Some demo_new_only) = Some demo_saving
  ∧ (elements <$> handleRealtimeNodesBatchUpdate demo_ctx 8 demo_world
                    (set_saving false demo_saving) (Some demo_new_only))
    ≠ Some (elements demo_saving)
  ∧ handleRealtimeNodesDeleted demo_ctx demo_world demo_saving
      (Some demo_delete) = demo_saving
  ∧ elements (handleRealtimeNodesDeleted demo_ctx demo_world
                (set_saving false demo_saving) (Some demo_delete))
    ≠ elements demo_saving.
Proof.
  repeat split; try (vm_compute; reflexivity).
  - vm_compute. intros [= ?].
  - vm_compute. intros [= ?].
Qed.

(** ** Finding and replacing the node of an id *)

Lemma find_first_findIndex {A} (p : A → bool) (l : list A) :
  find_first p l = findIndex p l ≫= λ i, l !! i.
Proof.
  induction l as [|x l IH]; simpl; [done|].
  destruct (p x); [done|]. rewrite IH.
  by destruct (findIndex p l).
Qed.

Lemma find_first_Some {A} (p : A → bool) (l : list A) x :
  find_first p l = Some x →
  ∃ i, findIndex p l = Some i ∧ l !! i = Some x ∧ p x = true.
Proof.
  rewrite find_first_findIndex.
  destruct (findIndex p l) as [i|] eqn:Hi; [|done]. simpl. intros Hx.
  exists i. repeat split; [done|].
  apply findIndex_Some in Hi as (y & Hy & Hp). congruence.
Qed.

Lemma find_first_insert {A} (p : A → bool) (l : list A) i x' :
  findIndex p l = Some i → p x' = true →
  find_first p (<[i:=x']> l) = Some x'.
Proof.
  revert i. induction l as [|x l IH]; intros i; simpl; [done|].
  destruct (p x) eqn:Hp.
  - intros [= <-] Hx'. simpl. by rewrite Hx'.
  - destruct (findIndex p l) as [j|]; [|done].
    intros [= <-] Hx'. simpl. rewrite Hp. by apply IH.
Qed.

Lemma find_first_None_findIndex {A} (p : A → bool) (l : list A) :
  find_first p l = None → findIndex p l = None.
Proof.
  induction l as [|x l IH]; simpl; [done|].
  destruct (p x); [done|]. intros H. by rewrite IH.
Qed.

(** ** An update for the node under edit, with local changes *)

Lemma same_id_true i o : o = Some i → same_id i o = true.
Proof. intros ->. unfold same_id. by apply bool_decide_eq_true_2. Qed.

Lemma scope_gates ctx p :
  update_in_scope ctx p = true →
  bool_decide (u_entity_name p ≠ entityName ctx) = false
  ∧ bool_decide (u_modified_by p = currentUser ctx) = false.
Proof.
  unfold update_in_scope. intros [H1 H2]%andb_true_iff.
  apply bool_decide_eq_true_1 in H1, H2. split.
  - apply bool_decide_eq_false_2. by intros ?.
  - by apply bool_decide_eq_false_2.
Qed.

Lemma strikethrough_only ctx w i old new :
  only_restyles i (strikethrough ctx w i old new).
Proof.
  unfold only_restyles, strikethrough. intros e He.
  repeat case_match; try by apply elem_of_nil in He.
  apply list_elem_of_singleton in He. eauto.
Qed.

(** C4, as amended. An update for the node under edit, which has local
    changes, leaves the node's label in the store unchanged and writes
    nothing to the editor; a [completed] field of the event is merged,
    and with it a [rect] field when the event carries one; the order
    that the event carries, if any, overwrites the entry of the node in
    the creation-order index. Every other field of the node (its id,
    the other keys of its [data], [data.order] among them), every other
    element, the selection and the editing session stay as they were,
    and nothing is laid out or rendered (the only command is the
    strikethrough restyling). *)
Theorem C4_dirty_edit_keeps_label nfc trim imageCount rebuild ctx fuel w
    now st p n el :
  update_in_scope ctx p = true →
  isSaving st && same_id (u_node_id p) (editingNode st) = false →
  u_node p = Some n →
  editingNode st = Some (n_id n) →
  n_id n ∈ changedNodeIds st →
  store_node (elements st) (n_id n) = Some el →
  ∃ s el' i es,
    handleRealtimeNodeUpdate nfc trim imageCount rebuild ctx fuel w now st
      (Some p) = Some s
    ∧ elements st !! i = Some el
    ∧ elements s = <[i:=el']> (elements st)
    ∧ store_node (elements s) (n_id n) = Some el'
    ∧ label (el_data el') = label (el_data el)
    ∧ completed (el_data el')
      = or_else (completed (n_data n)) (completed (el_data el))
    ∧ rect (el_data el')
      = match completed (n_data n) with
        | Some _ => or_else (rect (n_data n)) (rect (el_data el))
        | None => rect (el_data el)
        end
    ∧ order (el_data el') = order (el_data el)
    ∧ color (el_data el') = color (el_data el)
    ∧ fixedWidth (el_data el') = fixedWidth (el_data el)
    ∧ fixedHeight (el_data el') = fixedHeight (el_data el)
    ∧ el_id el' = el_id el
    ∧ el_source el' = el_source el ∧ el_target el' = el_target el
    ∧ nodeCreationOrder s
      = match order (n_data n) with
        | Some o => <[n_id n := o]> (nodeCreationOrder st)
        | None => nodeCreationOrder st
        end
    ∧ selectedNode s = selectedNode st ∧ editingNode s = editingNode st
    ∧ editingStartTime s = editingStartTime st
    ∧ changedNodeIds s = changedNodeIds st
    ∧ trace s = trace st ++ es
    ∧ only_restyles (n_id n) es.
Proof.
  intros Hscope Hsave Hnode Hedit Hdirty Hstore.
  apply find_first_Some in Hstore as (i & Hi & Hel & HP).
  apply scope_gates in Hscope as [Hg1 Hg2].
  unfold handleRealtimeNodeUpdate, nodeUpdate_sync.
  rewrite Hg1, Hg2, Hsave, Hnode, Hi, Hel.
  rewrite (same_id_true _ _ Hedit).
  rewrite (bool_decide_eq_true_2 _ Hdirty).
  cbn [negb andb orb].
  rewrite (bool_decide_eq_false_2 (Some i = None)) by done.
  rewrite !andb_false_r, !andb_true_r. cbn [negb].
  set (el' := update_element n false _ true el).
  assert (Hfacts :
    label (el_data el') = label (el_data el)
    ∧ completed (el_data el')
      = or_else (completed (n_data n)) (completed (el_data el))
    ∧ rect (el_data el')
      = match completed (n_data n) with
        | Some _ => or_else (rect (n_data n)) (rect (el_data el))
        | None => rect (el_data el)
        end
    ∧ order (el_data el') = order (el_data el)
    ∧ color (el_data el') = color (el_data el)
    ∧ fixedWidth (el_data el') = fixedWidth (el_data el)
    ∧ fixedHeight (el_data el') = fixedHeight (el_data el)
    ∧ el_id el' = el_id el
    ∧ el_source el' = el_source el ∧ el_target el' = el_target el
    ∧ has_id (n_id n) el' && is_node el' = true).
  { subst el'. unfold update_element. cbn [negb].
    destruct (completed (n_data n)) as [c|] eqn:Hc.
    - rewrite bool_decide_eq_true_2 by done.
      by destruct (rect (n_data n)).
    - rewrite bool_decide_eq_false_2 by (by intros ?). done. }
  destruct Hfacts as (F1 & F2 & F3 & F4 & F5 & F6 & F7 & I1 & I2 & I3 & F8).
  pose proof (find_first_insert _ _ _ _ Hi F8) as Hfound.
  clearbody el'.
  set (st1 := set_order _ (set_elements _ st)).
  assert (nodeCreationOrder st1
          = match order (n_data n) with
            | Some o => <[n_id n := o]> (nodeCreationOrder st)
            | None => nodeCreationOrder st
            end) as Hord by done.
  change (renderer st1) with (renderer st).
  destruct (renderer st) as [r|] eqn:Hr.
  2:{ exists st1, el', i, []. rewrite app_nil_r.
      repeat split; try done. by intros e He%elem_of_nil. }
  destruct (completed (n_data n)) as [c|] eqn:Hc.
  2:{ exists st1, el', i, []. rewrite app_nil_r.
      repeat split; try done. by intros e He%elem_of_nil. }
  destruct (find_first (has_id (n_id n)) (r_nodes r)) as [d3|] eqn:Hd.
  2:{ exists st1, el', i, []. rewrite app_nil_r.
      repeat split; try done. by intros e He%elem_of_nil. }
  eexists _, el', i, _. split; [reflexivity|].
  repeat split; try done. apply strikethrough_only.
Qed.

Lemma C4_witness :
  update_in_scope demo_ctx demo_done_reordered = true
  ∧ ∃ s el' i es,
      handleRealtimeNodeUpdate (λ s, s) ascii_trim_is_blank (λ _, O) (λ s, s)
        demo_ctx 8 demo_world 9000 demo_dirty_ordered
        (Some demo_done_reordered)
      = Some s
      ∧ elements demo_dirty_ordered !! i = Some (node_el "n1" "A")
      ∧ elements s = <[i:=el']> (elements demo_dirty_ordered)
      ∧ store_node (elements s) "n1" = Some el'
      ∧ label (el_data el') = Some "A"
      ∧ completed (el_data el') = Some true
      ∧ rect (el_data el') = Some (mkRect 300 60)
      ∧ order (el_data el') = None
      ∧ color (el_data el') = None
      ∧ fixedWidth (el_data el') = None
      ∧ fixedHeight (el_data el') = None
      ∧ el_id el' = "n1"
      ∧ el_source el' = None ∧ el_target el' = None
      ∧ nodeCreationOrder s
        = <["n1" := 7]> (nodeCreationOrder demo_dirty_ordered)
      ∧ selectedNode s = Some "n1" ∧ editingNode s = Some "n1"
      ∧ editingStartTime s = Some 1000
      ∧ changedNodeIds s = changedNodeIds demo_dirty_ordered
      ∧ trace s = trace demo_dirty_ordered ++ es
      ∧ only_restyles "n1" es.
Proof.
  split; [reflexivity|].
  apply (C4_dirty_edit_keeps_label (λ s, s) ascii_trim_is_blank (λ _, O)
           (λ s, s) demo_ctx 8 demo_world 9000 demo_dirty_ordered
           demo_done_reordered
           (mkNode "n1"
              (mkData (Some "X") (Some true) (Some (mkRect 300 60)) (Some 7)
                 None None None))
           (node_el "n1" "A")).
  - reflexivity.
  - reflexivity.
  - reflexivity.
  - reflexivity.
  - vm_compute. reflexivity.
  - reflexivity.
Defined.

(** C4, the claim as written: the event for the dirty active node [n1]
    carries [completed] and [rect]; the stored rect of [n1] changes. *)
Lemma C4_counterexample :
  ∃ s, handleRealtimeNodeUpdate (λ s, s) ascii_trim_is_blank (λ _, O)
         (λ s, s) demo_ctx 8 demo_world 9000 demo_dirty
         (Some demo_done_resized) = Some s
       ∧ editingNode demo_dirty = Some "n1"
       ∧ "n1" ∈ changedNodeIds demo_dirty
       ∧ (store_node (elements demo_dirty) "n1" ≫= λ el, rect (el_data el))
         = None
       ∧ (store_node (elements s) "n1" ≫= λ el, rect (el_data el))
         = Some (mkRect 300 60)
       ∧ store_label (elements s) "n1" = Some "A".
Proof.
  eexists. split; [vm_compute; reflexivity|].
  repeat split; vm_compute; reflexivity.
Qed.

(** ** Updates and batches that reach the node under edit *)

(** Whenever the updated node is the one under edit when the callback
    runs, the callback returns before it schedules the content pass. *)
Lemma tick_render_returns_early ctx w k st r2 :
  same_id (n_id (uk_remoteNode k)) (editingNode st) = true →
  (tick_render ctx w k st r2).2 = false.
Proof.
  intros He. unfold tick_render.
  destruct (tick_patch_d3 ctx w k (changedNodeIds st) r2) as [r3 es].
  cbn [editingNode emit set_renderer]. rewrite He.
  by destruct (uk_isNewNode k).
Qed.

Lemma find_first_filter {A} (p : A → bool) (Q : A → Prop)
    `{!∀ x, Decision (Q x)} (l : list A) :
  (∀ x, p x = true → Q x) → find_first p (filter Q l) = find_first p l.
Proof.
  intros HPQ. induction l as [|x l IH]; [done|].
  rewrite filter_cons. simpl. destruct (p x) eqn:Hp.
  - rewrite decide_True by auto. simpl. by rewrite Hp.
  - case_decide; simpl; by rewrite ?Hp.
Qed.

Lemma find_first_app_Some {A} (p : A → bool) (l k : list A) x :
  find_first p l = Some x → find_first p (l ++ k) = Some x.
Proof.
  induction l as [|y l IH]; simpl; [done|]. by destruct (p y).
Qed.

Lemma store_node_replace_edge e els i x :
  store_node els i = Some x → store_node (replace_edge e els) i = Some x.
Proof.
  unfold store_node, replace_edge. intros H.
  apply find_first_app_Some. rewrite find_first_filter; [done|].
  intros y [_ Hy]%andb_true_iff. unfold is_node in Hy.
  apply andb_true_iff in Hy as [Hs Ht].
  apply Is_true_true. by rewrite Hs.
Qed.

(** C3, as amended. Inside the grace window and with no local changes,
    an update for the node under edit is let through the gate: its
    [completed] and [rect] are merged into the stored node, the callback
    is scheduled, and the stored label stays the local one whenever the
    local label is not empty. *)
Theorem C3_grace_update_keeps_label nfc trim imageCount rebuild ctx fuel w
    now st p n el :
  update_in_scope ctx p = true →
  isSaving st && same_id (u_node_id p) (editingNode st) = false →
  u_node p = Some n →
  editingNode st = Some (n_id n) →
  n_id n ∉ changedNodeIds st →
  within_grace now (editingStartTime st) = true →
  store_node (elements st) (n_id n) = Some el →
  (∃ el',
     store_node (elements (nodeUpdate_sync ctx w now st (Some p)).1) (n_id n)
     = Some el'
     ∧ label (el_data el')
       = match completed (n_data n) with
         | Some _ => label (el_data el)
         | None =>
             label_or (label (el_data el))
               (or_else (label (n_data n)) (label (el_data el)))
         end
     ∧ (truthy (label (el_data el)) = true →
        label (el_data el') = label (el_data el))
     ∧ completed (el_data el')
       = or_else (completed (n_data n)) (completed (el_data el))
     ∧ rect (el_data el') = or_else (rect (n_data n)) (rect (el_data el)))
  ∧ (is_Some (renderer st) →
     is_Some (nodeUpdate_sync ctx w now st (Some p)).2)
  ∧ match handleRealtimeNodeUpdate nfc trim imageCount rebuild ctx fuel w
            now st (Some p) with
    | Some s =>
        elements s = elements (nodeUpdate_sync ctx w now st (Some p)).1
    | None => True
    end.
Proof.
  intros Hscope Hsave Hnode Hedit Hclean Hgrace Hstore.
  split; [|split].
  3:{ unfold handleRealtimeNodeUpdate.
      destruct (nodeUpdate_sync ctx w now st (Some p)) as [s1 [k|]]; [|done].
      destruct (nodeUpdate_tick ctx fuel w k s1) as [[s2 go]|] eqn:Ht; [|done].
      apply nodeUpdate_tick_store in Ht as [Ht _]. simpl.
      destruct go; [|done].
      pose proof (setContentStep_store nfc trim imageCount rebuild w k s2)
        as [Hc _]. by rewrite Hc. }
  all: apply find_first_Some in Hstore as (i & Hi & Hel & HP).
  all: apply scope_gates in Hscope as [Hg1 Hg2].
  all: unfold nodeUpdate_sync.
  all: rewrite Hg1, Hg2, Hsave, Hnode, Hi, Hel.
  all: rewrite (same_id_true _ _ Hedit).
  all: rewrite (bool_decide_eq_false_2 _ Hclean).
  all: cbn [negb andb orb].
  all: rewrite (bool_decide_eq_false_2 (Some i = None)) by done.
  all: rewrite !andb_false_r, !andb_true_r.
  all: set (el' := update_element n false _ false el).
  all: set (st1 := set_order _ (set_elements _ st)).
  all: change (editingStartTime st1) with (editingStartTime st).
  all: rewrite Hgrace; cbn [negb].
  - assert (Hfacts :
      label (el_data el')
      = match completed (n_data n) with
        | Some _ => label (el_data el)
        | None =>
            label_or (label (el_data el))
              (or_else (label (n_data n)) (label (el_data el)))
        end
      ∧ completed (el_data el')
        = or_else (completed (n_data n)) (completed (el_data el))
      ∧ rect (el_data el') = or_else (rect (n_data n)) (rect (el_data el))
      ∧ has_id (n_id n) el' && is_node el' = true).
    { subst el'. unfold update_element. cbn [negb].
      destruct (completed (n_data n)) as [c|] eqn:Hc.
      - rewrite bool_decide_eq_true_2 by done.
        by destruct (rect (n_data n)).
      - rewrite bool_decide_eq_false_2 by (by intros ?).
        simpl. by rewrite Hc. }
    destruct Hfacts as (F1 & F2 & F3 & F4).
    pose proof (find_first_insert _ _ _ _ Hi F4) as Hfound.
    exists el'. split; [|split; [done|split; [|done]]].
    + destruct (u_edge p) as [e|]; destruct (renderer _); simpl;
        try apply store_node_replace_edge; exact Hfound.
    + intros Ht. rewrite F1. destruct (completed (n_data n)); [done|].
      unfold label_or. by rewrite Ht.
  - intros [r Hr].
    destruct (u_edge p) as [e|]; simpl;
      change (renderer st1) with (renderer st); rewrite Hr; eauto.
Qed.

Lemma C3_witness :
  within_grace 1500 (editingStartTime demo_fresh) = true
  ∧ store_node (elements demo_fresh) "n1" = Some (node_el "n1" "A")
  ∧ (∃ el',
       store_node
         (elements (nodeUpdate_sync demo_ctx demo_world 1500 demo_fresh
                      (Some demo_done_resized)).1) "n1" = Some el'
       ∧ label (el_data el') = Some "A"
       ∧ (truthy (Some "A") = true → label (el_data el') = Some "A")
       ∧ completed (el_data el') = Some true
       ∧ rect (el_data el') = Some (mkRect 300 60))
  ∧ (is_Some (renderer demo_fresh) →
     is_Some (nodeUpdate_sync demo_ctx demo_world 1500 demo_fresh
                (Some demo_done_resized)).2)
  ∧ match handleRealtimeNodeUpdate (λ s, s) ascii_trim_is_blank (λ _, O)
            (λ s, s) demo_ctx 8 demo_world 1500 demo_fresh
            (Some demo_done_resized) with
    | Some s =>
        elements s
        = elements (nodeUpdate_sync demo_ctx demo_world 1500 demo_fresh
                      (Some demo_done_resized)).1
    | None => True
    end.
Proof.
  split; [reflexivity|]. split; [reflexivity|].
  apply (C3_grace_update_keeps_label (λ s, s) ascii_trim_is_blank (λ _, O)
           (λ s, s) demo_ctx 8 demo_world 1500 demo_fresh demo_done_resized
           (mkNode "n1"
              (mkData (Some "X") (Some true) (Some (mkRect 300 60)) None None
                 None None))
           (node_el "n1" "A")).
  - reflexivity.
  - reflexivity.
  - reflexivity.
  - reflexivity.
  - vm_compute. intros [=].
  - reflexivity.
  - reflexivity.
Defined.

(** C3, the claim as written: [n1] was opened 500 ms ago and nothing was
    typed; the update for [n1] carries the label ["X"]. The store keeps
    ["A"], and no command at all reaches the editor. *)
Lemma C3_counterexample :
  editingNode demo_fresh = Some "n1"
  ∧ changedNodeIds demo_fresh = ∅
  ∧ within_grace 1500 (editingStartTime demo_fresh) = true
  ∧ ∃ s, handleRealtimeNodeUpdate (λ s, s) ascii_trim_is_blank (λ _, O)
           (λ s, s) demo_ctx 8 demo_world 1500 demo_fresh
           (Some demo_rewrite) = Some s
         ∧ store_label (elements s) "n1" = Some "A"
         ∧ trace s = [].
Proof.
  repeat split; try reflexivity.
  eexists. split; [vm_compute; reflexivity|].
  split; vm_compute; reflexivity.
Qed.

(** C1, evaluated. [n1] is under edit with the label ["A"]; the batch
    adds the new node [n5] and carries a patch for [n1] with the label
    ["B"]. Whatever the widgets answer, the new node is stored and a
    render runs, and the stored label of [n1] becomes ["B"]. *)
Theorem C1_batch_overwrites_active_label w :
  editingNode demo_dirty = Some "n1"
  ∧ store_label (elements demo_dirty) "n1" = Some "A"
  ∧ store_node (elements demo_dirty) "n5" = None
  ∧ ∃ s, handleRealtimeNodesBatchUpdate demo_ctx 8 w demo_dirty
           (Some demo_batch) = Some s
         ∧ store_label (elements s) "n5" = Some "new"
         ∧ Render ∈ trace s
         ∧ store_label (elements s) "n1" = Some "B".
Proof.
  repeat split; try reflexivity.
  eexists. split; [vm_compute; reflexivity|].
  split; [vm_compute; reflexivity|]. split; [|vm_compute; reflexivity].
  vm_compute. do 2 constructor 2. constructor 1.
Qed.

(** ** Subtree invalidation of the position cache *)

Section subtree.
Context (els : list Element) (rank : string → nat).
Hypothesis Hranked : ranked els rank = true.

Lemma ranked_child a b : child els a b → (rank b < rank a)%nat.
Proof.
  intros (e & He & Hs & Ht). unfold ranked in Hranked.
  pose proof (proj1 (forallb_forall _ _) Hranked e) as Hr.
  apply list_elem_of_In in He. specialize (Hr He). cbv beta in Hr.
  rewrite Hs, Ht in Hr.
  by apply bool_decide_eq_true_1 in Hr.
Qed.

Lemma edge_has_target e : e ∈ edges_of els → ∃ t, el_target e = Some t.
Proof.
  intros [He _]%list_elem_of_filter. unfold is_edge in He.
  apply andb_prop_elim in He as [_ Ht].
  destruct (el_target e); [eauto|done].
Qed.

(** One round of the loop over the child edges, given that the recursive
    calls with fuel [f] behave. *)
Lemma clearChildren_fold f nodeId :
  (∀ t pos, (rank t < f)%nat →
     ∃ pos', clearChildrenPositions f els t pos = Some pos'
             ∧ (∀ d, descendant els t d → pos' !! d = None)
             ∧ deletes_within els t false pos pos') →
  (rank nodeId ≤ f)%nat →
  ∀ ces pos,
    (∀ e, e ∈ ces → e ∈ edges_of els ∧ el_source e = Some nodeId) →
    ∃ pos',
      foldl (λ acc childEdge,
               pos' ← acc;
               match el_target childEdge with
               | Some t => clearChildrenPositions f els t (delete t pos')
               | None => Some pos'
               end) (Some pos) ces = Some pos'
      ∧ (∀ e t d, e ∈ ces → el_target e = Some t →
                  d = t ∨ descendant els t d → pos' !! d = None)
      ∧ deletes_within els nodeId false pos pos'.
Proof.
  intros IH Hrk ces. induction ces as [|e ces IHces]; intros pos Hces.
  - exists pos. split; [done|]. split.
    + intros e t d He. by apply elem_of_nil in He.
    + intros x. by left.
  - destruct (Hces e) as [He Hsrc]; [by left|].
    destruct (edge_has_target e He) as [t Ht].
    assert (Hch : child els nodeId t) by (by exists e).
    pose proof (ranked_child _ _ Hch) as Hlt.
    destruct (IH t (delete t pos)) as (pos1 & Hrun & Hdesc & Hfr); [lia|].
    destruct (IHces pos1) as (pos' & Hfold & Hcov & Hfr').
    { intros e' He'. apply Hces. by right. }
    exists pos'. split; [|split].
    + simpl. rewrite Ht, Hrun. exact Hfold.
    + intros e' t' d He' Ht' Hd.
      apply elem_of_cons in He' as [->|He']; [|by eapply Hcov].
      rewrite Ht in Ht'. injection Ht' as <-.
      assert (H1 : pos1 !! d = None).
      { destruct Hd as [->|Hd]; [|by apply Hdesc].
        destruct (Hfr t) as [Heq|[Hn _]]; [|done].
        by rewrite Heq, lookup_delete_eq. }
      destruct (Hfr' d) as [Heq|[Hn _]]; [by rewrite Heq|done].
    + intros x. destruct (Hfr' x) as [Heq|[Hn Hd]]; [|by right].
      rewrite Heq. destruct (Hfr x) as [Heq1|[Hn1 [[? _]|Hd1]]]; [|done|].
      * rewrite Heq1. destruct (decide (x = t)) as [->|Hne].
        -- right. rewrite lookup_delete_eq. split; [done|].
           right. by apply tc_once.
        -- left. by rewrite lookup_delete_ne.
      * right. split; [done|]. right. by eapply tc_l.
Qed.

Lemma clearChildrenPositions_spec fuel :
  ∀ nodeId pos, (rank nodeId < fuel)%nat →
    ∃ pos', clearChildrenPositions fuel els nodeId pos = Some pos'
            ∧ (∀ d, descendant els nodeId d → pos' !! d = None)
            ∧ deletes_within els nodeId false pos pos'.
Proof.
  induction fuel as [|f IH]; intros nodeId pos Hrk; [lia|].
  destruct (clearChildren_fold f nodeId IH ltac:(lia)
              (filter (λ e, same_id nodeId (el_source e)) (edges_of els))
              pos) as (pos' & Hrun & Hcov & Hfr).
  { intros e [Hs He]%list_elem_of_filter. split; [done|].
    unfold same_id in Hs. by apply bool_decide_unpack in Hs. }
  exists pos'. split; [exact Hrun|]. split; [|done].
  intros d Hd.
  assert (Hstep : ∃ e t, e ∈ edges_of els ∧ el_source e = Some nodeId
                         ∧ el_target e = Some t
                         ∧ (d = t ∨ descendant els t d)).
  { inversion Hd as [? ? (e & He & Hs & Ht)|? y ? (e & He & Hs & Ht) Hyd];
      subst; exists e; eauto 10. }
  destruct Hstep as (e & t & He & Hs & Ht & Hdt).
  eapply Hcov; [|done|done].
  apply list_elem_of_filter. split; [|done].
  unfold same_id. apply bool_decide_pack. done.
Qed.

Lemma clearSubtree_spec fuel nodeId pos :
  (rank nodeId < fuel)%nat →
  ∃ pos', clearSubtree fuel els nodeId pos = Some pos'
          ∧ pos' !! nodeId = None
          ∧ (∀ d, descendant els nodeId d → pos' !! d = None)
          ∧ deletes_within els nodeId true pos pos'.
Proof.
  intros Hrk. unfold clearSubtree.
  destruct (clearChildrenPositions_spec fuel nodeId (delete nodeId pos) Hrk)
    as (pos' & Hrun & Hcov & Hfr).
  exists pos'. split; [done|]. split; [|split; [done|]].
  - destruct (Hfr nodeId) as [Heq|[Hn _]]; [|done].
    by rewrite Heq, lookup_delete_eq.
  - intros x. destruct (Hfr x) as [Heq|[Hn [[? _]|Hd]]]; [|done|].
    + rewrite Heq. destruct (decide (x = nodeId)) as [->|Hne].
      * right. rewrite lookup_delete_eq. eauto.
      * left. by rewrite lookup_delete_ne.
    + right. eauto.
Qed.
End subtree.

(** The rest of a callback does not touch the position cache. *)





Section content_renderer.
Context (nfc trim : string → string) (imageCount : string → nat)
        (rebuild : string → string) (w : World).


End content_renderer.









(** ** Forced render: preserve and restore *)

Lemma awaitEditor_commands w fuel a :
  (length (filter is_frame (awaitEditor w fuel a).1) ≤ fuel)%nat
  ∧ filter is_focus (awaitEditor w fuel a).1 = []
  ∧ ∀ x, x ∈ (awaitEditor w fuel a).1 → x = Sleep 50 ∨ x = AnimationFrame.
Proof.
  revert a. induction fuel as [|f IH]; intros a; simpl.
  - split; [done|]. split; [done|]. by intros x Hx%elem_of_nil.
  - destruct (usable (w_poll w a)).
    + simpl. split; [lia|]. split; [done|]. intros x Hx.
      apply elem_of_cons in Hx as [->|Hx]; [by left|].
      apply list_elem_of_singleton in Hx as ->. by right.
    + destruct (IH (S a)) as (Hlen & Hfoc & Hcmd).
      destruct (awaitEditor w f (S a)) as [es r]. simpl in *.
      split; [lia|]. split; [done|]. intros x Hx.
      apply elem_of_cons in Hx as [->|Hx]; [by left|].
      apply elem_of_cons in Hx as [->|Hx]; [by right|auto].
Qed.

Lemma awaitEditor_Some w fuel a e' :
  (awaitEditor w fuel a).2 = Some e' →
  ∃ j, (a ≤ j < a + fuel)%nat ∧ w_poll w j = Some e'
       ∧ usable (Some e') = true.
Proof.
  revert a. induction fuel as [|f IH]; intros a; simpl; [done|].
  destruct (usable (w_poll w a)) eqn:Hu.
  - simpl. intros He. exists a. rewrite He in Hu. split; [lia|done].
  - specialize (IH (S a)). destruct (awaitEditor w f (S a)) as [es r].
    simpl in *. intros He. destruct (IH He) as (j & Hj & Hp & Hus).
    exists j. split; [lia|done].
Qed.

Lemma awaitEditor_found w fuel a j :
  (a ≤ j < a + fuel)%nat → usable (w_poll w j) = true →
  (∀ i, (a ≤ i < j)%nat → usable (w_poll w i) = false) →
  (awaitEditor w fuel a).2 = w_poll w j.
Proof.
  revert a. induction fuel as [|f IH]; intros a Hj Hu Hbefore; [lia|].
  simpl. destruct (decide (a = j)) as [->|Hne].
  - by rewrite Hu.
  - rewrite Hbefore by lia. specialize (IH (S a)).
    destruct (awaitEditor w f (S a)) as [es r]. simpl in *.
    apply IH; [lia|done|]. intros i Hi. apply Hbefore. lia.
Qed.

Lemma refocus_commands w n fuel a :
  (length (filter is_focus (refocus w n fuel a)) ≤ fuel)%nat
  ∧ filter is_frame (refocus w n fuel a) = []
  ∧ ∀ x, x ∈ refocus w n fuel a → x = FocusEnd n ∨ x = Sleep 50.
Proof.
  revert a. induction fuel as [|f IH]; intros a; simpl.
  - split; [done|]. split; [done|]. by intros x Hx%elem_of_nil.
  - destruct (w_focused w a).
    + split; [simpl; lia|]. split; [done|]. by intros x Hx%elem_of_nil.
    + destruct (IH (S a)) as (Hlen & Hfr & Hcmd).
      rewrite !filter_cons. simpl.
      split; [lia|]. split; [done|]. intros x Hx.
      apply elem_of_cons in Hx as [->|Hx]; [by left|].
      apply elem_of_cons in Hx as [->|Hx]; [by right|auto].
Qed.

Lemma clamp_bounds x d : 0 ≤ clamp x d ∧ (0 ≤ d → clamp x d ≤ d).
Proof. unfold clamp. lia. Qed.

Lemma filter_frame_app (a b : list Effect) :
  length (filter is_frame (a ++ b))
  = (length (filter is_frame a) + length (filter is_frame b))%nat.
Proof. by rewrite filter_app, length_app. Qed.

Lemma filter_focus_app (a b : list Effect) :
  length (filter is_focus (a ++ b))
  = (length (filter is_focus a) + length (filter is_focus b))%nat.
Proof. by rewrite filter_app, length_app. Qed.

(** What [restoreEditorState] sends to the editor of [n], given the
    snapshot [(focused, sel)] taken before the render. *)
Lemma restoreEditorState_commands w r n focused sel content :
  let es := restoreEditorState w (Some r)
              (Some (mkPreserved n focused sel content)) in
  (length (filter is_frame es) ≤ 10)%nat
  ∧ (length (filter is_focus es) ≤ 3)%nat
  ∧ (∀ x, x ∈ es → restore_command n x)
  ∧ (∀ a b, SetTextSelection n a b ∈ es →
       a ≠ b
       ∧ ∃ j e', (j < 10)%nat ∧ w_poll w j = Some e'
                 ∧ usable (Some e') = true
                 ∧ a = clamp (sel_from sel) (docSize e')
                 ∧ b = clamp (sel_to sel) (docSize e')
                 ∧ 0 ≤ a ≤ docSize e' ∧ 0 ≤ b ≤ docSize e')
  ∧ (FocusEnd n ∈ es → focused = true)
  ∧ (∀ j e', (j < 10)%nat → w_poll w j = Some e' →
       usable (Some e') = true →
       (∀ i, (i < j)%nat → usable (w_poll w i) = false) →
       (clamp (sel_from sel) (docSize e') ≠ clamp (sel_to sel) (docSize e') →
        SetTextSelection n (clamp (sel_from sel) (docSize e'))
          (clamp (sel_to sel) (docSize e')) ∈ es)
       ∧ (focused = true → w_focused w 0 = false → FocusEnd n ∈ es)).
Proof.
  unfold restoreEditorState. cbn [p_selection p_nodeId p_isFocused].
  pose proof (awaitEditor_commands w 10 0) as (Hwf & Hwo & Hwc).
  pose proof (awaitEditor_Some w 10 0) as Hsome.
  pose proof (awaitEditor_found w 10 0) as Hfound.
  destruct (awaitEditor w 10 0) as [waited inst]. cbn [fst snd] in *.
  assert (Hnosel : ∀ a b, SetTextSelection n a b ∉ waited).
  { intros a b Hin. apply Hwc in Hin as [H|H]; discriminate. }
  assert (Hnofoc : FocusEnd n ∉ waited).
  { intros Hin. apply Hwc in Hin as [H|H]; discriminate. }
  assert (Hwcmd : ∀ x, x ∈ waited → restore_command n x).
  { intros x Hx. apply Hwc in Hx as [-> | ->]; [by left|right; right; by left]. }
  destruct inst as [e'|].
  2:{ split; [done|]. split; [rewrite Hwo; simpl; lia|].
      split; [done|]. split; [by intros a b Hin%Hnosel|].
      split; [by intros Hin%Hnofoc|].
      intros j e1 Hj Hp Hu Hbefore. exfalso.
      assert (Hf : None = w_poll w j).
      { apply Hfound; [lia|by rewrite Hp|]. intros i Hi. apply Hbefore. lia. }
      by rewrite Hp in Hf. }
  destruct (Hsome e' eq_refl) as (j0 & Hj0 & Hp0 & Hu0).
  pose proof (refocus_commands w n 3 0) as (Hfl & Hff & Hfc).
  set (validFrom := clamp (sel_from sel) (docSize e')).
  set (validTo := clamp (sel_to sel) (docSize e')).
  pose proof (clamp_bounds (sel_from sel) (docSize e')) as [Hb1 Hb2].
  pose proof (clamp_bounds (sel_to sel) (docSize e')) as [Hb3 Hb4].
  fold validFrom in Hb1, Hb2. fold validTo in Hb3, Hb4.
  set (selected := if _ : bool then [SetTextSelection n validFrom validTo]
                   else []).
  set (focus := if focused then Sleep 100 :: refocus w n 3 0 else []).
  assert (Hsel : ∀ x, x ∈ selected →
                      x = SetTextSelection n validFrom validTo
                      ∧ validFrom ≠ validTo ∧ validTo ≤ docSize e').
  { subst selected. intros x Hx.
    destruct (bool_decide (validFrom ≠ validTo)) eqn:H1; simpl in Hx;
      [|by apply elem_of_nil in Hx].
    rewrite (bool_decide_eq_true_2 (0 ≤ validFrom)) in Hx by done.
    simpl in Hx. destruct (bool_decide (validTo ≤ docSize e')) eqn:H2;
      [|by apply elem_of_nil in Hx].
    apply list_elem_of_singleton in Hx as ->.
    apply bool_decide_eq_true_1 in H1, H2. done. }
  assert (Hfoc : ∀ x, x ∈ focus →
                      focused = true
                      ∧ (x = Sleep 100 ∨ x = FocusEnd n ∨ x = Sleep 50)).
  { subst focus. intros x Hx. destruct focused; [|by apply elem_of_nil in Hx].
    split; [done|].
    apply elem_of_cons in Hx as [->|Hx]; [by left|]. right. by apply Hfc. }
  assert (Hselfr : filter is_frame selected = []
                   ∧ filter is_focus selected = []).
  { subst selected. by destruct (_ && _ && _). }
  assert (Hfocfr : filter is_frame focus = []
                   ∧ (length (filter is_focus focus) ≤ 3)%nat).
  { subst focus. destruct focused; [|by split; [|simpl; lia]].
    split; [by rewrite filter_cons|]. by rewrite filter_cons. }
  destruct Hselfr as [Hs1 Hs2], Hfocfr as [Hf1 Hf2].
  assert (Hselpos : validFrom ≠ validTo →
                    SetTextSelection n validFrom validTo ∈ selected).
  { subst selected. intros Hne.
    rewrite (bool_decide_eq_true_2 (validFrom ≠ validTo)) by done.
    rewrite (bool_decide_eq_true_2 (0 ≤ validFrom)) by done.
    rewrite (bool_decide_eq_true_2 (validTo ≤ docSize e')).
    - by apply list_elem_of_singleton.
    - unfold validFrom, validTo, clamp in *. lia. }
  assert (Hfocpos : focused = true → w_focused w 0 = false →
                    FocusEnd n ∈ focus).
  { subst focus. intros -> Hnf. simpl. rewrite Hnf.
    apply list_elem_of_further, list_elem_of_here. }
  clearbody selected focus.
  split; [|split; [|split; [|split; [|split]]]].
  - rewrite !filter_frame_app, Hs1, Hf1. simpl. lia.
  - rewrite !filter_focus_app, Hwo, Hs2. simpl. lia.
  - intros x [Hx|[Hx|Hx]%elem_of_app]%elem_of_app; [auto| |].
    + apply Hsel in Hx as [-> _]. right. right. right. left. eauto.
    + apply Hfoc in Hx as [_ [-> | [-> | ->]]];
        [right; by left|by repeat right|by left].
  - intros a b [Hx|[Hx|Hx]%elem_of_app]%elem_of_app.
    + by apply Hnosel in Hx.
    + apply Hsel in Hx as ([= -> ->] & Hne & Hle).
      split; [done|]. exists j0, e'.
      repeat split; try done; lia.
    + by apply Hfoc in Hx as [_ [?|[?|?]]].
  - intros [Hx|[Hx|Hx]%elem_of_app]%elem_of_app.
    + by apply Hnofoc in Hx.
    + by apply Hsel in Hx as [? _].
    + by apply Hfoc in Hx as [? _].
  - intros j e1 Hj Hp Hu Hbefore.
    assert (He1 : Some e' = w_poll w j).
    { apply Hfound; [lia|by rewrite Hp|]. intros i Hi. apply Hbefore. lia. }
    rewrite Hp in He1. injection He1 as <-. split.
    + intros Hne. apply elem_of_app. right. apply elem_of_app. left. auto.
    + intros Hf Hnf. apply elem_of_app. right. apply elem_of_app. right. auto.
Qed.

(** C8, as amended. A forced render while [n] is under edit, with its
    editor available: the focus flag and the selection are read before
    the render command; after it the editor is awaited in at most 10
    rounds of 50 ms and one frame; the saved selection, clamped to the
    new document size, is set again when the clamped range is not empty;
    focus is asked for at most 3 times, 50 ms apart, and only if the
    editor was focused before. *)
Theorem C8_forced_render_restores w st r n e :
  renderer st = Some r → editingNode st = Some n → truthy_str n = true →
  w_editor w n = Some e → usable (Some e) = true →
  ∃ es,
    safeRender w st true = (emit (Render :: es) st, true)
    ∧ (length (filter is_frame es) ≤ 10)%nat
    ∧ (length (filter is_focus es) ≤ 3)%nat
    ∧ (∀ x, x ∈ es → restore_command n x)
    ∧ (∀ a b, SetTextSelection n a b ∈ es →
         a ≠ b
         ∧ ∃ j e', (j < 10)%nat ∧ w_poll w j = Some e'
                   ∧ usable (Some e') = true
                   ∧ a = clamp (sel_from (selection e)) (docSize e')
                   ∧ b = clamp (sel_to (selection e)) (docSize e')
                   ∧ 0 ≤ a ≤ docSize e' ∧ 0 ≤ b ≤ docSize e')
    ∧ (FocusEnd n ∈ es → isFocused e || domActive e = true)
    ∧ (∀ j e', (j < 10)%nat → w_poll w j = Some e' →
         usable (Some e') = true →
         (∀ i, (i < j)%nat → usable (w_poll w i) = false) →
         (clamp (sel_from (selection e)) (docSize e')
          ≠ clamp (sel_to (selection e)) (docSize e') →
          SetTextSelection n (clamp (sel_from (selection e)) (docSize e'))
            (clamp (sel_to (selection e)) (docSize e')) ∈ es)
         ∧ (isFocused e || domActive e = true → w_focused w 0 = false →
            FocusEnd n ∈ es)).
Proof.
  intros Hr Hedit Hn He Hu.
  exists (restoreEditorState w (Some r)
            (Some (mkPreserved n (isFocused e || domActive e) (selection e)
                     (docContent e)))).
  split; [|apply restoreEditorState_commands].
  unfold safeRender, preserveEditorState. rewrite Hr, Hedit. simpl.
  rewrite Hn, He. simpl in Hu. apply andb_true_iff in Hu as [Hd Hv].
  apply negb_true_iff in Hd. rewrite Hd, Hv. simpl.
  unfold emit. simpl. by rewrite <- app_assoc.
Qed.

Lemma C8_witness :
  editingNode demo_dirty = Some "n1"
  ∧ ∃ es,
      safeRender demo_slow_world demo_dirty true
      = (emit (Render :: es) demo_dirty, true)
      ∧ (length (filter is_frame es) ≤ 10)%nat
      ∧ (length (filter is_focus es) ≤ 3)%nat
      ∧ (∀ x, x ∈ es → restore_command "n1" x)
      ∧ (∀ a b, SetTextSelection "n1" a b ∈ es →
           a ≠ b
           ∧ ∃ j e', (j < 10)%nat ∧ w_poll demo_slow_world j = Some e'
                     ∧ usable (Some e') = true
                     ∧ a = clamp 2 (docSize e') ∧ b = clamp 5 (docSize e')
                     ∧ 0 ≤ a ≤ docSize e' ∧ 0 ≤ b ≤ docSize e')
      ∧ (FocusEnd "n1" ∈ es → true || false = true)
      ∧ (∀ j e', (j < 10)%nat → w_poll demo_slow_world j = Some e' →
           usable (Some e') = true →
           (∀ i, (i < j)%nat → usable (w_poll demo_slow_world i) = false) →
           (clamp 2 (docSize e') ≠ clamp 5 (docSize e') →
            SetTextSelection "n1" (clamp 2 (docSize e'))
              (clamp 5 (docSize e')) ∈ es)
           ∧ (true || false = true → w_focused demo_slow_world 0 = false →
              FocusEnd "n1" ∈ es)).
Proof.
  split; [reflexivity|].
  apply (C8_forced_render_restores demo_slow_world demo_dirty demo_renderer
           "n1" demo_editor); reflexivity.
Defined.

(** C8, the claim as written: the editor of [n1] shows a caret at offset
    3 and has the focus. The forced render is followed by one round of
    waiting and the pause before the focus check, and by no selection
    command: the caret is not put back. *)
Lemma C8_counterexample :
  editingNode demo_dirty = Some "n1"
  ∧ (selection <$> w_editor demo_caret_world "n1")
    = Some (mkSelection 3 3 3 3)
  ∧ (docSize <$> w_poll demo_caret_world 0) = Some 10
  ∧ safeRender demo_caret_world demo_dirty true
    = (emit [Render; Sleep 50; AnimationFrame; Sleep 100] demo_dirty, true).
Proof. repeat split; vm_compute; reflexivity. Qed.

(** ** The content pass and blank labels *)

Section blank_labels.
Context (nfc trim : string → string) (imageCount : string → nat)
        (rebuild : string → string) (w : World).

Lemma checkEditorReady_sleeps fuel a x :
  x ∈ (checkEditorReady w fuel a).1 → x = Sleep 50.
Proof.
  revert a. induction fuel as [|f IH]; intros a; simpl.
  - by repeat case_match; intros ?%elem_of_nil.
  - specialize (IH (S a)).
    destruct (checkEditorReady w f (S a)) as [es r].
    repeat case_match; simpl; try by intros ?%elem_of_nil.
    all: intros [->|Hx]%elem_of_cons; auto.
Qed.

Lemma checkAndSetContent_sleeps fuel a inst x :
  x ∈ (checkAndSetContent w fuel a inst).1 → x = Sleep 50.
Proof.
  revert a inst. induction fuel as [|f IH]; intros a inst; simpl.
  - by intros ?%elem_of_nil.
  - destruct (usable inst); [by intros ?%elem_of_nil|].
    specialize (IH (S a) (w_poll w (S a))).
    destruct (checkAndSetContent w f (S a) (w_poll w (S a))) as [es r].
    simpl in *. destruct f; simpl; [done|].
    intros [->|Hx]%elem_of_cons; auto.
Qed.

(** With a blank label the widget mounted by the pass is left as it was
    mounted: the pass waits for it and writes nothing. *)
Lemma proceedWithSetContent_blank n st :
  remote_blank nfc trim (label (n_data n)) = true →
  proceedWithSetContent nfc trim w n st
  = emit (checkEditorReady w 20 0).1 st.
Proof.
  intros Hb. unfold proceedWithSetContent.
  destruct (checkEditorReady w 20 0) as [waited inst]. simpl.
  destruct (usable inst); [|done].
  unfold remote_blank in Hb. destruct (label (n_data n)) as [s|]; simpl.
  - by rewrite Hb.
  - by unfold normalized, blank.
Qed.

(** The value handed to an editor that the pass mounts, [remoteLabel ||
    localLabel || ''], when the label of the event is blank: a label
    of whitespace goes in as it is, an absent or empty one gives way to
    the label that [renderer.nodes] holds. *)
Lemma mount_value_cases (remote held : option string) v :
  remote_blank nfc trim remote = true →
  v = default "" (label_or remote (label_or held (Some "")))
  ↔ ((∃ l, remote = Some l ∧ l ≠ "" ∧ blank trim (nfc l) = true ∧ v = l)
     ∨ ((remote = None ∨ remote = Some "") ∧ v = default "" held)).
Proof.
  intros Hb.
  assert (default "" (label_or held (Some "")) = default "" held) as Hheld.
  { unfold label_or. destruct held as [h|]; simpl; [|done].
    unfold truthy_str. case_bool_decide as Hh; [done|].
    simpl. by destruct (decide (h = "")) as [->|]. }
  destruct remote as [l|].
  - destruct (decide (l = "")) as [->|Hl].
    + unfold label_or at 1. simpl. rewrite Hheld. split.
      * intros ->. right. split; [by right|done].
      * intros [(l & [= <-] & Hl & _)|[_ ->]]; done.
    + assert (truthy_str l = true) as Ht
        by (by apply bool_decide_eq_true_2).
      unfold label_or at 1. simpl. rewrite Ht. simpl. split.
      * intros ->. left. exists l. repeat split; try done.
        unfold remote_blank, normalized in Hb. by rewrite Ht in Hb.
      * intros [(l' & [= <-] & _ & _ & ->)|[[[=]|[= ->]] _]]; done.
  - unfold label_or at 1. simpl. rewrite Hheld. split.
    + intros ->. right. split; [by left|done].
    + intros [(l & [=] & _)|[_ ->]]; done.
Qed.

Lemma mountAndSetContent_blank n st :
  remote_blank nfc trim (label (n_data n)) = true →
  ∃ es, trace (mountAndSetContent nfc trim w n st) = trace st ++ es
        ∧ (∀ i c, SetContent i c ∉ es)
        ∧ ∀ i v, MountNodeEditor i v ∈ es ↔
            i = n_id n
            ∧ ∃ r d3,
                renderer st = Some r
                ∧ find_first (has_id (n_id n)) (r_nodes r) = Some d3
                ∧ v = default ""
                        (label_or (label (n_data n))
                           (label_or (label (el_data d3)) (Some ""))).
Proof.
  intros Hb. unfold mountAndSetContent.
  destruct (renderer st) as [r|] eqn:Hr.
  2:{ exists []. split; [by rewrite app_nil_r|].
      split; [by intros i c ?%elem_of_nil|]. intros i v. split.
      - by intros ?%elem_of_nil.
      - by intros (_ & r & d3 & [=] & _). }
  destruct (find_first _ (r_nodes r)) as [nodeData|] eqn:Hd.
  2:{ exists []. split; [by rewrite app_nil_r|].
      split; [by intros i c ?%elem_of_nil|]. intros i v. split.
      - by intros ?%elem_of_nil.
      - intros (_ & r' & d3 & [= <-] & Hd' & _). congruence. }
  set (text := default "" _).
  assert (Hsleeps : ∀ x, x ∈ (checkEditorReady w 20 0).1 → x = Sleep 50).
  { intros x. apply checkEditorReady_sleeps. }
  assert (Hback : ∀ i v rest,
            i = n_id n
            ∧ (∃ r0 d3,
                 Some r = Some r0
                 ∧ find_first (has_id (n_id n)) (r_nodes r0) = Some d3
                 ∧ v = default ""
                         (label_or (label (n_data n))
                            (label_or (label (el_data d3)) (Some "")))) →
            MountNodeEditor i v ∈ MountNodeEditor (n_id n) text :: rest).
  { intros i v rest (-> & r0 & d3 & [= <-] & Hd3 & ->).
    rewrite Hd in Hd3. injection Hd3 as <-. by left. }
  repeat case_match; rewrite ?proceedWithSetContent_blank by done; simpl.
  all: rewrite <- ?app_assoc; eexists; split; [reflexivity|].
  all: split; [intros i c Hin|intros i v; split; [intros Hin|apply Hback]].
  all: simpl in Hin.
  all: repeat (apply elem_of_cons in Hin as [Hin|Hin];
               [first [ discriminate
                      | injection Hin as -> ->; split; [done|];
                        by exists r, nodeData ]|]).
  all: try by apply elem_of_nil in Hin.
  all: by apply Hsleeps in Hin.
Qed.

Lemma setContentMounted_blank n edited st :
  remote_blank nfc trim (label (n_data n)) = true →
  ∃ es,
    trace (setContentMounted nfc trim imageCount rebuild w n edited st).1
    = trace st ++ es
    ∧ (∀ i v, MountNodeEditor i v ∉ es)
    ∧ ∀ i c, SetContent i c ∈ es →
        i = n_id n
        ∧ (label (n_data n) = None ∨ label (n_data n) = Some "")
        ∧ ∃ r d3 l,
            renderer st = Some r
            ∧ find_first (has_id (n_id n)) (r_nodes r) = Some d3
            ∧ label (el_data d3) = Some l ∧ l ≠ ""
            ∧ blank trim (nfc l) = false
            ∧ (c = nfc l ∨ c = rebuild (nfc l)).
Proof.
  intros Hb. unfold setContentMounted.
  pose proof (checkAndSetContent_sleeps 5 0 (w_poll w 0)) as Hsl.
  destruct (checkAndSetContent w 5 0 (w_poll w 0)) as [waited inst].
  simpl in Hsl.
  assert (Hquiet : ∃ es,
            trace (emit waited st) = trace st ++ es
            ∧ (∀ i v, MountNodeEditor i v ∉ es)
            ∧ ∀ i c, SetContent i c ∈ es →
                i = n_id n
                ∧ (label (n_data n) = None ∨ label (n_data n) = Some "")
                ∧ ∃ r d3 l,
                    renderer st = Some r
                    ∧ find_first (has_id (n_id n)) (r_nodes r) = Some d3
                    ∧ label (el_data d3) = Some l ∧ l ≠ ""
                    ∧ blank trim (nfc l) = false
                    ∧ (c = nfc l ∨ c = rebuild (nfc l))).
  { exists waited. split; [done|].
    split; intros i c Hin; by apply Hsl in Hin. }
  destruct inst as [e|]; [|done].
  destruct (isDestroyed e || negb (hasView e)); [done|].
  cbn [renderer emit].
  set (remoteLabel := default "" (label (n_data n))).
  destruct (truthy_str remoteLabel) eqn:Hrl.
  { (* a non-empty blank label: the guard returns *)
    assert (Hlab : label (n_data n) = Some remoteLabel).
    { subst remoteLabel. destruct (label (n_data n)); [done|].
      simpl in Hrl. unfold truthy_str in Hrl.
      by apply bool_decide_eq_true_1 in Hrl. }
    unfold remote_blank in Hb. rewrite Hlab in Hb. by rewrite Hb. }
  assert (Hempty : label (n_data n) = None ∨ label (n_data n) = Some "").
  { subst remoteLabel. destruct (label (n_data n)) as [s|]; [|by left].
    right. simpl in Hrl. unfold truthy_str in Hrl.
    apply bool_decide_eq_false_1 in Hrl. f_equal.
    by destruct (decide (s = "")). }
  set (fallback := r ← renderer st; d3Node ← find_first _ (r_nodes r);
                   label (el_data d3Node)).
  destruct (truthy fallback) eqn:Hfb.
  2:{ unfold label_or. rewrite Hfb. simpl. by unfold normalized, blank. }
  unfold label_or. rewrite Hfb.
  destruct fallback as [l|] eqn:Hfl; [|done]. simpl.
  assert (Hl : l ≠ "").
  { simpl in Hfb. unfold truthy_str in Hfb.
    by apply bool_decide_eq_true_1 in Hfb. }
  assert (Hnorm : normalized nfc l = nfc l).
  { unfold normalized. simpl in Hfb. by rewrite Hfb. }
  rewrite Hnorm.
  destruct (blank trim (nfc l)) eqn:Hbl; [done|].
  destruct (_ && edited); [done|]. cbn [fst trace emit].
  exists (waited ++ [SetContent (n_id n)
                       (if bool_decide (2 < imageCount (nfc l))%nat
                        then rebuild (nfc l) else nfc l);
                     AnimationFrame]).
  split; [by rewrite app_assoc|]. split.
  { intros i v [Hin|Hin]%elem_of_app; [by apply Hsl in Hin|].
    apply elem_of_cons in Hin as [|Hin]; [discriminate|].
    apply list_elem_of_singleton in Hin. discriminate. }
  intros i c [Hin|Hin]%elem_of_app; [by apply Hsl in Hin|].
  apply elem_of_cons in Hin as [[= -> ->]|Hin].
  2:{ apply list_elem_of_singleton in Hin. discriminate. }
  split; [done|]. split; [done|].
  subst fallback. destruct (renderer st) as [r|]; [|done]. simpl in Hfl.
  destruct (find_first (has_id (n_id n)) (r_nodes r)) as [d3|] eqn:Hd3;
    [|done]. simpl in Hfl.
  exists r, d3, l. repeat split; try done.
  case_bool_decide; auto.
Qed.

(** C10, as amended. When the label of the event is absent, empty or
    blank once normalized, the content pass never writes that label
    with [setContent]: a widget it has just mounted is not written to,
    a whitespace-only label is dropped at the guard, and for an absent
    or empty label the pass falls back to the label that
    [renderer.nodes] holds for the node and writes that one (or its
    rebuilt form) when it is not blank. When the editor container of
    the node is empty, though, the pass mounts an editor, and the
    initial value it hands to [mountNodeEditor] is the label of the
    event whenever that label is not empty: a whitespace-only label
    reaches the new editor this way; an absent or empty one gives way
    to the label that [renderer.nodes] holds. *)
Theorem C10_blank_label_content_step k st :
  remote_blank nfc trim (label (n_data (uk_remoteNode k))) = true →
  ∃ es,
    trace (setContentStep nfc trim imageCount rebuild w k st).1
    = trace st ++ es
    ∧ (∀ i c, SetContent i c ∈ es →
         i = n_id (uk_remoteNode k)
         ∧ w_container w 0 ≠ Some false
         ∧ (label (n_data (uk_remoteNode k)) = None
            ∨ label (n_data (uk_remoteNode k)) = Some "")
         ∧ ∃ r d3 l,
             renderer st = Some r
             ∧ find_first (has_id i) (r_nodes r) = Some d3
             ∧ label (el_data d3) = Some l ∧ l ≠ ""
             ∧ blank trim (nfc l) = false
             ∧ (c = nfc l ∨ c = rebuild (nfc l)))
    ∧ ∀ i v, MountNodeEditor i v ∈ es ↔
        i = n_id (uk_remoteNode k)
        ∧ uk_isNodeBeingEdited k
          && bool_decide (n_id (uk_remoteNode k) ∈ changedNodeIds st)
          = false
        ∧ w_container w 0 = Some false
        ∧ ∃ r d3,
            renderer st = Some r
            ∧ find_first (has_id i) (r_nodes r) = Some d3
            ∧ ((∃ l, label (n_data (uk_remoteNode k)) = Some l ∧ l ≠ ""
                     ∧ blank trim (nfc l) = true ∧ v = l)
               ∨ ((label (n_data (uk_remoteNode k)) = None
                   ∨ label (n_data (uk_remoteNode k)) = Some "")
                  ∧ v = default "" (label (el_data d3)))).
Proof.
  intros Hb. unfold setContentStep.
  destruct (uk_isNodeBeingEdited k && _) eqn:Hgate.
  { exists []. split; [by rewrite app_nil_r|].
    split; [by intros i c ?%elem_of_nil|]. intros i v. split.
    - by intros ?%elem_of_nil.
    - by intros (_ & [=] & _). }
  destruct (w_container w 0) as [[|]|] eqn:Hc.
  2:{ destruct (mountAndSetContent_blank (uk_remoteNode k) st Hb)
        as (es & Htr & Hno & Hmount).
      exists es. split; [done|].
      split; [intros i c Hin; by apply Hno in Hin|].
      intros i v. rewrite Hmount. split.
      - intros (-> & r & d3 & Hr & Hd & Hv).
        repeat split; try done. exists r, d3. repeat split; try done.
        by apply (mount_value_cases _ _ _ Hb).
      - intros (-> & _ & _ & r & d3 & Hr & Hd & Hv).
        split; [done|]. exists r, d3. repeat split; try done.
        by apply (mount_value_cases _ _ _ Hb). }
  all: destruct (setContentMounted_blank (uk_remoteNode k)
                   (uk_isNodeBeingEdited k) st Hb)
         as (es & Htr & Hnomount & Hfacts).
  all: exists es; split; [done|]; split.
  all: try (intros i c Hin;
            destruct (Hfacts i c Hin) as (-> & Hlab & Hrest);
            by repeat split).
  all: intros i v; split;
         [intros Hin; by apply Hnomount in Hin
         |by intros (_ & _ & [=] & _)].
Qed.
End blank_labels.

(** The container of [n4] is empty when the pass looks at it first,
    and holds the editor from then on. *)
Lemma C10_witness :
  remote_blank (λ s, s) ascii_trim_is_blank
    (label (n_data (uk_remoteNode demo_blank_cont))) = true
  ∧ ∃ es,
      trace (setContentStep (λ s, s) ascii_trim_is_blank (λ _, O) (λ s, s)
               demo_mount_world demo_blank_cont demo_idle).1
      = trace demo_idle ++ es
      ∧ (∀ i c, SetContent i c ∉ es)
      ∧ MountNodeEditor "n4" " " ∈ es.
Proof.
  split; [reflexivity|].
  destruct (C10_blank_label_content_step (λ s, s) ascii_trim_is_blank
              (λ _, O) (λ s, s) demo_mount_world demo_blank_cont demo_idle)
    as (es & Htr & Hset & Hmount); [reflexivity|].
  exists es. split; [exact Htr|]. split.
  - intros i c Hin. destruct (Hset i c Hin) as (_ & Hc & _). by apply Hc.
  - apply Hmount. split; [reflexivity|]. split; [reflexivity|].
    split; [reflexivity|].
    exists demo_renderer, (node_el "n4" "D").
    split; [reflexivity|]. split; [reflexivity|].
    left. exists " ". by repeat split.
Defined.

(** C10, the claim as written: [n1] is selected and nobody edits; the
    update for [n1] carries no label. The content pass is not skipped:
    it writes the label ["A"] that the renderer holds for [n1] into the
    editor. *)
Lemma C10_counterexample :
  (u_node demo_no_label ≫= λ n, label (n_data n)) = None
  ∧ ∃ s, handleRealtimeNodeUpdate (λ s, s) ascii_trim_is_blank (λ _, O)
           (λ s, s) demo_ctx 8 demo_world 9000 demo_selected
           (Some demo_no_label) = Some s
         ∧ trace s = [SetData; Render; SetContent "n1" "A"; AnimationFrame].
Proof.
  split; [reflexivity|].
  eexists. split; vm_compute; reflexivity.
Qed.

(** ** Deferred size writes and the editing session *)

(** The two helpers check the session when they run: for the node under
    edit, [updateNodeSizeWithNewSize] changes nothing and
    [calculateAndUpdateNodeSize] hands no size on. *)
Lemma updateNodeSizeWithNewSize_guard st i sz :
  editingNode st = Some i → updateNodeSizeWithNewSize st i sz = st.
Proof.
  intros He. unfold updateNodeSizeWithNewSize.
  by rewrite (same_id_true _ _ He).
Qed.

Lemma calculateAndUpdateNodeSize_guard trim w st i :
  editingNode st = Some i → calculateAndUpdateNodeSize trim w st i = None.
Proof.
  intros He. unfold calculateAndUpdateNodeSize.
  by rewrite (same_id_true _ _ He).
Qed.

(** The inline pass checks the session once, when it starts. *)
Lemma inlineSize_start_guard trim w st n :
  editingNode st = Some (n_id n) → inlineSize_start trim w st n = false.
Proof.
  intros He. unfold inlineSize_start. by rewrite (same_id_true _ _ He).
Qed.

(** C9, evaluated. The inline size pass for [n4] starts while nobody
    edits and passes its check; the local user then opens [n4]; the
    later stages of the pass run on that state and write the width to
    the DOM, the size to the cache, to the renderer's node and to the
    store, and drop the position entry, although [n4] is now the node
    under edit. The two helpers, run on the same state, write nothing. *)
Theorem C9_inline_size_pass_overwrites :
  inlineSize_start ascii_trim_is_blank demo_world demo_idle demo_n4_patch
  = true
  ∧ editingNode demo_opened_n4 = Some "n4"
  ∧ inlineSize_measure demo_world demo_opened_n4 demo_n4_patch demo_editor
    = (Some (mkRect 150 43), emit [DomWidth "n4" 150] demo_opened_n4)
  ∧ cached_size demo_opened_n4 "n4" = None
  ∧ cached_size
      (inlineSize_write demo_world demo_opened_n4 demo_n4_patch
         (mkRect 150 43)) "n4" = Some (mkRect 150 43)
  ∧ store_rect (elements demo_opened_n4) "n4" = None
  ∧ store_rect
      (elements (inlineSize_write demo_world demo_opened_n4 demo_n4_patch
                   (mkRect 150 43))) "n4" = Some (mkRect 150 43)
  ∧ trace (inlineSize_write demo_world demo_opened_n4 demo_n4_patch
             (mkRect 150 43)) = [DomSize "n4" 150 43]
  ∧ cached_position demo_opened_n4 "n4" = Some (200, 80)
  ∧ cached_position
      (inlineSize_write demo_world demo_opened_n4 demo_n4_patch
         (mkRect 150 43)) "n4" = None
  ∧ updateNodeSizeWithNewSize demo_opened_n4 "n4" (mkRect 150 43)
    = demo_opened_n4
  ∧ calculateAndUpdateNodeSize ascii_trim_is_blank demo_world
      demo_opened_n4 "n4" = None.
Proof. repeat split; vm_compute; reflexivity. Qed.

(** The write stage of the inline pass never looks at the session. *)
Lemma inlineSize_write_ignores_session w st o n sz :
  inlineSize_write w (set_editing o st) n sz
  = set_editing o (inlineSize_write w st n sz).
Proof. done. Qed.

(** ** Worked deletion *)

Lemma C6_witness :
  deletion_accepted demo_ctx demo_idle (Some demo_delete) = true
  ∧ (elements
       (handleRealtimeNodesDeleted demo_ctx demo_world
          (handleRealtimeNodesDeleted demo_ctx demo_world demo_idle
             (Some demo_delete)) (Some demo_delete))
     = elements (handleRealtimeNodesDeleted demo_ctx demo_world demo_idle
                   (Some demo_delete))
     ∧ nodeCreationOrder
         (handleRealtimeNodesDeleted demo_ctx demo_world
            (handleRealtimeNodesDeleted demo_ctx demo_world demo_idle
               (Some demo_delete)) (Some demo_delete))
       = nodeCreationOrder
           (handleRealtimeNodesDeleted demo_ctx demo_world demo_idle
              (Some demo_delete)))
  ∧ ∀ e x,
      e ∈ edges_of (elements (handleRealtimeNodesDeleted demo_ctx demo_world
                                demo_idle (Some demo_delete))) →
      x ∈ d_node_ids demo_delete →
      el_source e ≠ Some x ∧ el_target e ≠ Some x.
Proof.
  destruct (C6_deletion_idempotent demo_ctx demo_world demo_world demo_idle
              (Some demo_delete)) as [Hidem Hedges].
  split; [reflexivity|]. split; [exact Hidem|].
  intros e x He Hx. exact (Hedges eq_refl demo_delete e x eq_refl He Hx).
Defined.

(** ** A batch that brings a new node while a node is under edit *)

Lemma existsb_witness {A} (f : A → bool) (l : list A) x :
  x ∈ l → f x = true → existsb f l = true.
Proof.
  intros Hx Hf. apply existsb_exists. exists x.
  split; [by apply list_elem_of_In|done].
Qed.

(** An accepted batch that contains a node unknown to the store stores
    that node, and, when a node is under edit, renders all the same. *)
Theorem batch_new_node_is_stored_and_rendered ctx fuel w st p r n :
  batch_accepted ctx st p = true →
  renderer st = Some r →
  truthy (editingNode st) = true →
  n ∈ b_nodes p → is_new (elements st) n = true →
  of_node n ∈ elements (nodesBatchUpdate_sync ctx st (Some p)).1
  ∧ match handleRealtimeNodesBatchUpdate ctx fuel w st (Some p) with
    | Some s => of_node n ∈ elements s ∧ Render ∈ trace s
    | None => True
    end.
Proof.
  intros Hacc Hr Hedit Hn Hnew.
  assert (Hsync : ∃ s1 k,
            nodesBatchUpdate_sync ctx st (Some p) = (s1, Some k)
            ∧ bk_hasNewNodes k = true ∧ of_node n ∈ elements s1
            ∧ renderer s1 = Some r ∧ editingNode s1 = editingNode st).
  { unfold batch_accepted in Hacc.
    repeat (apply andb_true_iff in Hacc as [Hacc ?]).
    apply bool_decide_eq_true_1 in Hacc.
    repeat match goal with
           | H : bool_decide _ = true |- _ => apply bool_decide_eq_true_1 in H
           | H : negb _ = true |- _ => apply negb_true_iff in H
           end.
    unfold nodesBatchUpdate_sync.
    rewrite (bool_decide_eq_false_2 (b_entity_name p ≠ _)) by (by intros ?).
    rewrite (bool_decide_eq_false_2 (b_modified_by p = _)) by done.
    rewrite (bool_decide_eq_false_2 (b_nodes p = [])) by done.
    repeat match goal with H : _ = false |- _ => rewrite H end.
    rewrite (existsb_witness _ _ n Hn Hnew).
    assert (Hin : of_node n
                  ∈ ((λ localNode,
                       match find_patch (b_nodes p) (el_id localNode) with
                       | Some remoteNode => el_spread localNode remoteNode
                       | None => localNode
                       end) <$> nodes_of (elements st))
                    ++ (of_node <$> filter (λ n, is_new (elements st) n)
                                      (b_nodes p))).
    { apply elem_of_app. right. apply list_elem_of_fmap. exists n.
      split; [done|]. apply list_elem_of_filter. split; [|done].
      by rewrite Hnew. }
    destruct (hasSaveSnapshot ctx); simpl; rewrite Hr;
      eexists _, _; (split; [reflexivity|]); simpl;
      repeat split; try done; apply elem_of_app; by left. }
  destruct Hsync as (s1 & k & Hsync & Hnewk & Hin & Hr1 & He1).
  rewrite Hsync. split; [done|].
  unfold handleRealtimeNodesBatchUpdate. rewrite Hsync.
  unfold nodesBatchUpdate_tick. rewrite Hr1.
  destruct (batch_invalidate fuel k (elements s1) r) as [r2|]; [|done].
  simpl. rewrite batch_render_elements. rewrite He1, Hedit, Hnewk.
  cbn [negb andb]. split; [done|].
  unfold batch_render. cbn [editingNode set_renderer].
  rewrite He1, Hedit, Hnewk. cbn [negb andb].
  unfold safeRender, setData. cbn [renderer emit with_renderer set_renderer
    editingNode fmap option_fmap option_map].
  rewrite He1, Hedit. cbn [negb andb fst trace emit].
  apply elem_of_app. left. apply elem_of_app. right.
  by apply list_elem_of_singleton.
Qed.

Lemma batch_new_node_witness :
  truthy (editingNode demo_busy) = true
  ∧ is_new (elements demo_busy) (mkNode "n5" (labelled "new")) = true
  ∧ of_node (mkNode "n5" (labelled "new"))
    ∈ elements (nodesBatchUpdate_sync demo_ctx demo_busy
                  (Some demo_batch)).1
  ∧ match handleRealtimeNodesBatchUpdate demo_ctx 8 demo_world demo_busy
            (Some demo_batch) with
    | Some s =>
        of_node (mkNode "n5" (labelled "new")) ∈ elements s
        ∧ Render ∈ trace s
    | None => True
    end.
Proof.
  split; [reflexivity|]. split; [reflexivity|].
  apply (batch_new_node_is_stored_and_rendered demo_ctx 8 demo_world
           demo_busy demo_batch demo_renderer).
  - reflexivity.
  - reflexivity.
  - reflexivity.
  - vm_compute. constructor 2. constructor 1.
  - reflexivity.
Defined.

(** ** The size helpers and the callback, for the node under edit *)

(** Run for the node under edit, [updateNodeSizeWithNewSize] returns the
    state as it found it and [calculateAndUpdateNodeSize] hands no size
    on. *)
Theorem size_helpers_abandon_for_edited_node trim w st i sz :
  editingNode st = Some i →
  updateNodeSizeWithNewSize st i sz = st
  ∧ calculateAndUpdateNodeSize trim w st i = None.
Proof.
  intros He. unfold updateNodeSizeWithNewSize, calculateAndUpdateNodeSize.
  by rewrite (same_id_true _ _ He).
Qed.

Lemma size_helpers_witness :
  editingNode demo_opened_n4 = Some "n4"
  ∧ updateNodeSizeWithNewSize demo_opened_n4 "n4" (mkRect 150 43)
    = demo_opened_n4
  ∧ calculateAndUpdateNodeSize ascii_trim_is_blank demo_world
      demo_opened_n4 "n4" = None.
Proof.
  split; [reflexivity|].
  apply (size_helpers_abandon_for_edited_node ascii_trim_is_blank demo_world
           demo_opened_n4 "n4" (mkRect 150 43)).
  reflexivity.
Defined.

(** * Remote editing marks *)

Lemma badges_agree_step ctx textWidth st payload :
  badges_agree st →
  badges_agree (handleRealtimeNodeEditing ctx textWidth st payload).
Proof.
  intros Hst. destruct payload as [p|]; [|done].
  unfold handleRealtimeNodeEditing.
  case_bool_decide; [done|]. case_bool_decide; [done|].
  intros g n ng Hg Hn. simpl in *.
  destruct (groups st) as [g0|] eqn:Hg0; [|done].
  simpl in Hg. injection Hg as <-.
  destruct (decide (n = ed_node_id p)) as [->|Hne].
  - destruct (g0 !! ed_node_id p) as [ng0|] eqn:Hng0.
    + rewrite lookup_insert in Hn. rewrite decide_True in Hn by done.
      injection Hn as <-.
      destruct (Hst g0 _ ng0 Hg0 Hng0) as [Hlen Hb].
      unfold decorate. destruct (nodeRect ng0) as [rs|] eqn:Hrect.
      * destruct (ed_is_editing p); simpl.
        -- split.
           ++ destruct (badges ng0) as [|b [|b' l]]; simpl in *; lia.
           ++ intros _. split; [done|]. rewrite lookup_insert.
              by rewrite decide_True.
        -- split.
           ++ destruct (badges ng0) as [|b [|b' l]]; simpl in *; lia.
           ++ destruct (badges ng0) as [|b [|b' l]]; simpl in *;
                [done|done|lia].
      * split; [done|]. intros Hne. by destruct (Hb Hne) as [[? ?] _].
    + rewrite Hng0 in Hn. done.
  - assert (g0 !! n = Some ng) as Hn0.
    { destruct (g0 !! ed_node_id p); [|done].
      by rewrite lookup_insert_ne in Hn. }
    destruct (Hst g0 n ng Hg0 Hn0) as [Hlen Hb].
    split; [done|]. intros Hbad. destruct (Hb Hbad) as [Hr Hu].
    split; [done|].
    destruct (ed_is_editing p).
    + by rewrite lookup_insert_ne.
    + by rewrite lookup_delete_ne.
Qed.

(** Starting from a drawing without badges, whatever editing events
    arrive, no node ever shows more than one badge, and a node that
    shows a badge has an entry in [nodeEditingUsers]. *)
Theorem editing_badges_stay_consistent ctx textWidth st payloads :
  (∀ g n ng, groups st = Some g → g !! n = Some ng → badges ng = []) →
  badges_agree (editing_events ctx textWidth st payloads).
Proof.
  intros Hclean.
  assert (badges_agree st) as Hst.
  { intros g n ng Hg Hn. rewrite (Hclean g n ng Hg Hn). simpl.
    split; [lia|done]. }
  clear Hclean. revert st Hst. unfold editing_events.
  induction payloads as [|p ps IH]; intros st Hst; [done|].
  simpl. apply IH. by apply badges_agree_step.
Qed.

Lemma editing_badges_witness :
  badges_agree
    (editing_events demo_ctx demo_textWidth demo_presence
       [Some demo_bob_starts; Some demo_carol_starts; Some demo_carol_stops]).
Proof.
  apply editing_badges_stay_consistent.
  intros g n ng [= <-] Hn.
  destruct (decide (n = "n1")) as [->|]; [by inversion Hn|].
  rewrite lookup_insert_ne in Hn by done.
  destruct (decide (n = "n4")) as [->|]; [by inversion Hn|].
  by rewrite lookup_insert_ne in Hn.
Defined.

(** When a second user starts editing a node that already shows a
    badge, [nodeEditingUsers] names the second user, and the badge
    stays as it is: it goes on showing the name it was made with. *)
Theorem editing_badge_is_not_renamed ctx textWidth st p g ng b bs :
  editing_accepted ctx p = true → ed_is_editing p = true →
  groups st = Some g → g !! ed_node_id p = Some ng →
  is_Some (nodeRect ng) → badges ng = b :: bs →
  let st' := handleRealtimeNodeEditing ctx textWidth st (Some p) in
  nodeEditingUsers st' !! ed_node_id p
  = Some (mkEditingUser (ed_user_id p) (ed_user_name p))
  ∧ ∃ ng', groups st' = Some (<[ed_node_id p := ng']> g)
           ∧ badges ng' = b :: bs.
Proof.
  intros Hacc Hed Hg Hn [rs Hrect] Hb st'. subst st'.
  unfold editing_accepted in Hacc. apply andb_true_iff in Hacc as [H1 H2].
  apply bool_decide_eq_true_1 in H1, H2.
  unfold handleRealtimeNodeEditing.
  rewrite (bool_decide_eq_false_2 (_ ≠ _)) by (by intros ?).
  rewrite (bool_decide_eq_false_2 (_ = _)) by done.
  rewrite Hed, Hg. simpl. rewrite Hn. split.
  - rewrite lookup_insert. by rewrite decide_True.
  - eexists. split; [done|].
    unfold decorate. by rewrite Hrect, Hed, Hb.
Qed.

Lemma editing_badge_witness :
  let st := handleRealtimeNodeEditing demo_ctx demo_textWidth demo_presence
              (Some demo_bob_starts) in
  let st' := handleRealtimeNodeEditing demo_ctx demo_textWidth st
               (Some demo_carol_starts) in
  nodeEditingUsers st' !! "n1" = Some (mkEditingUser "carol" "Carol")
  ∧ ∃ ng', groups st'
           = Some (<["n1" := ng']> (default ∅ (groups st)))
           ∧ badges ng' = [new_badge demo_textWidth "Bob"].
Proof.
  intros st.
  apply (editing_badge_is_not_renamed demo_ctx demo_textWidth st
           demo_carol_starts (default ∅ (groups st))
           (mkNodeGroup
              (Some (mkRectStyle (Some "#f59e0b") (Some "2px") (Some "4 2")))
              [new_badge demo_textWidth "Bob"])
           (new_badge demo_textWidth "Bob") []).
  - reflexivity.
  - reflexivity.
  - reflexivity.
  - reflexivity.
  - by eexists.
  - reflexivity.
Defined.

(** An editing mark that is set and then taken back leaves no trace:
    for a node without an entry, whose group is not decorated, a start
    event followed by a stop event from any remote user gives back the
    state they found. *)
Theorem editing_start_then_stop ctx textWidth st p q g :
  editing_accepted ctx p = true → editing_accepted ctx q = true →
  ed_is_editing p = true → ed_is_editing q = false →
  ed_node_id q = ed_node_id p →
  nodeEditingUsers st !! ed_node_id p = None →
  groups st = Some g →
  g !! ed_node_id p
  = Some (mkNodeGroup (Some (mkRectStyle None None None)) []) →
  handleRealtimeNodeEditing ctx textWidth
    (handleRealtimeNodeEditing ctx textWidth st (Some p)) (Some q)
  = st.
Proof.
  intros Hp Hq Hep Heq Hid Hu Hg Hn.
  unfold editing_accepted in Hp, Hq.
  apply andb_true_iff in Hp as [Hp1 Hp2].
  apply andb_true_iff in Hq as [Hq1 Hq2].
  apply bool_decide_eq_true_1 in Hp1, Hp2, Hq1, Hq2.
  unfold handleRealtimeNodeEditing.
  rewrite !(bool_decide_eq_false_2 (_ ≠ entityName ctx)) by (by intros ?).
  rewrite !(bool_decide_eq_false_2 (_ = currentUser ctx)) by done.
  rewrite Hep, Heq, Hid, Hg. simpl. rewrite Hn.
  rewrite lookup_insert, decide_True by done.
  destruct st as [users gs]. simpl in *. subst gs. f_equal.
  - by apply delete_insert_id.
  - f_equal. unfold decorate. simpl. rewrite Hep. simpl. rewrite Heq. simpl.
    rewrite insert_insert, decide_True by done. by apply insert_id.
Qed.

Lemma editing_start_then_stop_witness :
  handleRealtimeNodeEditing demo_ctx demo_textWidth
    (handleRealtimeNodeEditing demo_ctx demo_textWidth demo_presence
       (Some demo_bob_starts)) (Some demo_carol_stops)
  = demo_presence.
Proof.
  apply (editing_start_then_stop demo_ctx demo_textWidth demo_presence
           demo_bob_starts demo_carol_stops
           (<["n1" := mkNodeGroup (Some (mkRectStyle None None None)) []]>
              (<["n4" := mkNodeGroup (Some (mkRectStyle None None None)) []]>
                 ∅))); reflexivity.
Defined.

(** * Events that are not for this client *)

(** An event for another document, an event the local user caused, and
    a missing payload change nothing and send no command, in each of
    the four handlers. *)
Theorem events_out_of_scope_are_ignored nfc trim imageCount rebuild ctx fuel
    w now textWidth st ps pd pb pu pe :
  (out_of_scope ctx (d_entity_name pd) (d_modified_by pd) = true →
   handleRealtimeNodesDeleted ctx w st (Some pd) = st)
  ∧ (out_of_scope ctx (b_entity_name pb) (b_modified_by pb) = true →
     handleRealtimeNodesBatchUpdate ctx fuel w st (Some pb) = Some st)
  ∧ (out_of_scope ctx (u_entity_name pu) (u_modified_by pu) = true →
     handleRealtimeNodeUpdate nfc trim imageCount rebuild ctx fuel w now st
       (Some pu) = Some st)
  ∧ (out_of_scope ctx (ed_entity_name pe) (ed_user_id pe) = true →
     handleRealtimeNodeEditing ctx textWidth ps (Some pe) = ps)
  ∧ handleRealtimeNodesDeleted ctx w st None = st
  ∧ handleRealtimeNodesBatchUpdate ctx fuel w st None = Some st
  ∧ handleRealtimeNodeUpdate nfc trim imageCount rebuild ctx fuel w now st
      None = Some st
  ∧ handleRealtimeNodeEditing ctx textWidth ps None = ps.
Proof.
  unfold out_of_scope.
  repeat split; try done; intros H;
    unfold handleRealtimeNodesDeleted, nodesDeleted_sync,
      handleRealtimeNodesBatchUpdate, nodesBatchUpdate_sync,
      handleRealtimeNodeUpdate, nodeUpdate_sync, handleRealtimeNodeEditing;
    destruct (bool_decide (_ ≠ entityName ctx)); try done;
    simpl in H; by rewrite H.
Qed.

Lemma events_out_of_scope_witness :
  handleRealtimeNodesDeleted demo_ctx demo_world demo_idle
    (Some (mkDeleted "doc-2" "bob" ["n4"])) = demo_idle
  ∧ handleRealtimeNodeUpdate (λ s, s) ascii_trim_is_blank (λ _, O) (λ s, s)
      demo_ctx 8 demo_world 5000 demo_idle
      (Some (mkUpdate "doc-1" "alice" "n4"
               (Some (mkNode "n4" (labelled "D2"))) None))
    = Some demo_idle.
Proof.
  destruct (events_out_of_scope_are_ignored (λ s, s) ascii_trim_is_blank
              (λ _, O) (λ s, s) demo_ctx 8 demo_world 5000 demo_textWidth
              demo_idle demo_presence (mkDeleted "doc-2" "bob" ["n4"])
              demo_batch
              (mkUpdate "doc-1" "alice" "n4"
                 (Some (mkNode "n4" (labelled "D2"))) None)
              demo_bob_starts) as (Hd & _ & Hu & _).
  split; [apply Hd|apply Hu]; reflexivity.
Defined.

(** * Remote deletions, seen from the store *)

Lemma deletion_gates ctx st p :
  deletion_accepted ctx st (Some p) = true →
  bool_decide (d_entity_name p ≠ entityName ctx) = false
  ∧ bool_decide (d_modified_by p = currentUser ctx) = false
  ∧ isSaving st = false
  ∧ bool_decide (d_node_ids p = []) = false.
Proof.
  unfold deletion_accepted. intros H.
  repeat (apply andb_true_iff in H as [H ?]).
  repeat match goal with
         | H : bool_decide _ = true |- _ => apply bool_decide_eq_true_1 in H
         | H : negb _ = true |- _ => apply negb_true_iff in H
         end.
  repeat split; try done; apply bool_decide_eq_false_2; by try intros ?.
Qed.

Lemma find_first_app_None {A} (p : A → bool) (l k : list A) :
  Forall (λ x, p x = false) k → find_first p (l ++ k) = find_first p l.
Proof.
  intros Hk. induction l as [|x l IH]; simpl.
  - induction Hk as [|y k Hy Hk IH]; simpl; [done|]. by rewrite Hy.
  - by destruct (p x).
Qed.

Lemma find_first_none {A} (p : A → bool) (l : list A) :
  Forall (λ x, p x = false) l → find_first p l = None.
Proof. induction 1 as [|y k Hy Hk IH]; simpl; [done|]. by rewrite Hy. Qed.

Lemma store_node_survivors ids els x :
  store_node (surviving_nodes ids els ++ surviving_edges ids els) x
  = if decide (x ∈ ids) then None else store_node els x.
Proof.
  unfold store_node. rewrite find_first_app_None.
  2:{ apply Forall_forall. intros e He.
      pose proof (surviving_edges_are_edges ids els) as Hall.
      pose proof (proj1 (Forall_forall _ _) Hall e He) as Hedge.
      apply Is_true_true in Hedge. apply is_edge_not_node in Hedge.
      by rewrite Hedge, andb_false_r. }
  unfold surviving_nodes, nodes_of.
  destruct (decide (x ∈ ids)) as [Hx|Hx].
  - apply find_first_none, Forall_forall. intros e He.
    apply list_elem_of_filter in He as [He _].
    apply andb_false_iff. left. unfold has_id.
    apply bool_decide_eq_false_2. intros Heq. subst x.
    apply Is_true_true, negb_true_iff in He. unfold includes in He.
    by apply bool_decide_eq_false_1 in He.
  - rewrite find_first_filter.
    + apply find_first_filter. intros e He.
      apply andb_true_iff in He as [_ He]. by apply Is_true_true.
    + intros e He. apply andb_true_iff in He as [He _].
      unfold has_id in He. apply bool_decide_eq_true_1 in He. subst x.
      apply Is_true_true, negb_true_iff. unfold includes.
      by apply bool_decide_eq_false_2.
Qed.

Lemma surviving_node_ids ids els :
  el_id <$> surviving_nodes ids els
  = filter (λ i, i ∉ ids) (el_id <$> nodes_of els).
Proof.
  unfold surviving_nodes.
  induction (nodes_of els) as [|e l IH]; [done|].
  rewrite fmap_cons, !filter_cons.
  destruct (decide (el_id e ∈ ids)) as [Hin|Hin].
  - rewrite (decide_False
               (P := Is_true (negb (includes ids (Some (el_id e)))))).
    + rewrite (decide_False (P := el_id e ∉ ids)) by tauto. exact IH.
    + unfold includes. rewrite bool_decide_eq_true_2 by done. simpl. tauto.
  - rewrite (decide_True
               (P := Is_true (negb (includes ids (Some (el_id e)))))).
    + rewrite (decide_True (P := el_id e ∉ ids)) by done.
      rewrite fmap_cons. by f_equal.
    + unfold includes. rewrite bool_decide_eq_false_2 by done. simpl. tauto.
Qed.

Lemma deletion_node_ids ctx w st p :
  deletion_accepted ctx st (Some p) = true →
  node_ids (elements (handleRealtimeNodesDeleted ctx w st (Some p)))
  = filter (λ i, i ∉ d_node_ids p) (node_ids (elements st)).
Proof.
  intros Hacc.
  pose proof (nodesDeleted_store ctx w st (Some p)) as [_ Hstore].
  rewrite Hacc in Hstore. destruct Hstore as [Hel _]. rewrite Hel.
  unfold node_ids.
  destruct (views_of_split (surviving_nodes (d_node_ids p) (elements st))
              (surviving_edges (d_node_ids p) (elements st))
              (surviving_nodes_are_nodes _ _)
              (surviving_edges_are_edges _ _)) as [-> _].
  apply surviving_node_ids.
Qed.

(** An accepted deletion removes exactly the nodes it names: a deleted
    id is no longer found in the store or in the creation-order index,
    every other id is found as before, and the nodes that stay keep
    their order. *)
Theorem deletion_removes_exactly_the_named_nodes ctx w st p :
  deletion_accepted ctx st (Some p) = true →
  let s := handleRealtimeNodesDeleted ctx w st (Some p) in
  (∀ x, x ∈ d_node_ids p →
     store_node (elements s) x = None ∧ nodeCreationOrder s !! x = None)
  ∧ (∀ x, x ∉ d_node_ids p →
       store_node (elements s) x = store_node (elements st) x
       ∧ nodeCreationOrder s !! x = nodeCreationOrder st !! x)
  ∧ node_ids (elements s)
    = filter (λ i, i ∉ d_node_ids p) (node_ids (elements st)).
Proof.
  intros Hacc s.
  pose proof (nodesDeleted_store ctx w st (Some p)) as [_ Hstore].
  rewrite Hacc in Hstore. destruct Hstore as [Hel Hord]. fold s in Hel, Hord.
  rewrite Hel, Hord. split; [|split].
  - intros x Hx. rewrite store_node_survivors, lookup_foldl_delete.
    by rewrite !decide_True.
  - intros x Hx. rewrite store_node_survivors, lookup_foldl_delete.
    by rewrite !decide_False.
  - rewrite <- Hel. subst s. by apply deletion_node_ids.
Qed.

Lemma deletion_removes_exactly_witness :
  let s := handleRealtimeNodesDeleted demo_ctx demo_world demo_idle
             (Some demo_delete) in
  (∀ x, x ∈ d_node_ids demo_delete →
     store_node (elements s) x = None ∧ nodeCreationOrder s !! x = None)
  ∧ (∀ x, x ∉ d_node_ids demo_delete →
       store_node (elements s) x = store_node (elements demo_idle) x
       ∧ nodeCreationOrder s !! x = nodeCreationOrder demo_idle !! x)
  ∧ node_ids (elements s)
    = filter (λ i, i ∉ d_node_ids demo_delete)
        (node_ids (elements demo_idle)).
Proof.
  apply (deletion_removes_exactly_the_named_nodes demo_ctx demo_world
           demo_idle demo_delete).
  reflexivity.
Defined.

Lemma nodesDeleted_accepted ctx w st p :
  deletion_accepted ctx st (Some p) = true →
  handleRealtimeNodesDeleted ctx w st (Some p)
  = let ids := d_node_ids p in
    let st1 :=
      if includes ids (editingNode st) || includes ids (selectedNode st)
      then clear_focus st else st in
    let newNodes := surviving_nodes ids (elements st) in
    let newEdges := surviving_edges ids (elements st) in
    let st3 :=
      set_elements (newNodes ++ newEdges)
        (set_order (foldl (λ m k, delete k m) (nodeCreationOrder st1) ids)
           st1) in
    let st4 :=
      if hasSaveSnapshot ctx then emit [SaveSnapshot true] st3 else st3 in
    match renderer st4 with
    | None => st4
    | Some _ =>
        if truthy (editingNode st4)
        then with_renderer
               (updateRendererDataWithoutRender newNodes newEdges
                  (nodeCreationOrder st4)) st4
        else nodesDeleted_tick w (newNodes, newEdges) st4
    end.
Proof.
  intros Hacc. destruct (deletion_gates _ _ _ Hacc) as (H1 & H2 & H3 & H4).
  unfold handleRealtimeNodesDeleted, nodesDeleted_sync.
  rewrite H1, H2, H3, H4. cbv zeta.
  destruct (renderer _); [|done]. by destruct (truthy _).
Qed.

(** An accepted deletion that names the node under edit or the selected
    node ends both the selection and the editing session; any other
    deletion leaves both as they are. Either way neither of them names
    a deleted node afterwards. *)
Theorem deletion_resets_the_session ctx w st p :
  deletion_accepted ctx st (Some p) = true →
  let s := handleRealtimeNodesDeleted ctx w st (Some p) in
  let hit :=
    includes (d_node_ids p) (editingNode st)
    || includes (d_node_ids p) (selectedNode st) in
  (hit = true → editingNode s = None ∧ selectedNode s = None)
  ∧ (hit = false →
     editingNode s = editingNode st ∧ selectedNode s = selectedNode st)
  ∧ ∀ x, editingNode s = Some x ∨ selectedNode s = Some x →
         x ∉ d_node_ids p.
Proof.
  intros Hacc s hit.
  assert (editingNode s = (if hit then None else editingNode st)
          ∧ selectedNode s = (if hit then None else selectedNode st))
    as [He Hs].
  { subst s. rewrite nodesDeleted_accepted by done. cbv zeta. fold hit.
    destruct hit, (hasSaveSnapshot ctx), (renderer st) as [r|] eqn:Hr;
      simpl; rewrite ?Hr; simpl; try done;
      try (destruct (truthy (editingNode st)); simpl; try done);
      unfold nodesDeleted_tick;
      match goal with
      | |- context [safeRender ?w ?x ?f] =>
          pose proof (safeRender_frame w x f) as Hf; cbv zeta in Hf;
          destruct Hf as (_ & _ & Hf1 & Hf2 & _); by rewrite Hf1, Hf2
      end. }
  split; [|split].
  - intros Hhit. by rewrite He, Hs, Hhit.
  - intros Hhit. by rewrite He, Hs, Hhit.
  - intros x Hx. rewrite He, Hs in Hx.
    destruct hit eqn:Hhit; [by destruct Hx|].
    subst hit. apply orb_false_iff in Hhit as [H1 H2].
    destruct Hx as [Hx|Hx].
    + rewrite Hx in H1. unfold includes in H1.
      by apply bool_decide_eq_false_1 in H1.
    + rewrite Hx in H2. unfold includes in H2.
      by apply bool_decide_eq_false_1 in H2.
Qed.

Lemma deletion_resets_the_session_witness :
  let s := handleRealtimeNodesDeleted demo_ctx demo_world demo_opened_n4
             (Some demo_delete) in
  editingNode demo_opened_n4 = Some "n4"
  ∧ editingNode s = None ∧ selectedNode s = None.
Proof.
  intros s. split; [reflexivity|].
  destruct (deletion_resets_the_session demo_ctx demo_world demo_opened_n4
              demo_delete) as (H & _ & _); [reflexivity|].
  apply H. reflexivity.
Defined.

(** While a node that survives is under edit, an accepted deletion is
    applied without a layout and without a render: the store is
    written through to the renderer, whose size and position caches
    stay as they are, and the only command is the snapshot request. *)
Theorem deletion_spares_the_open_editor ctx w st p r :
  deletion_accepted ctx st (Some p) = true →
  renderer st = Some r → truthy (editingNode st) = true →
  includes (d_node_ids p) (editingNode st)
  || includes (d_node_ids p) (selectedNode st) = false →
  let s := handleRealtimeNodesDeleted ctx w st (Some p) in
  trace s
  = trace st ++ (if hasSaveSnapshot ctx then [SaveSnapshot true] else [])
  ∧ renderer s
    = Some (mkRenderer (nodes_of (elements s)) (edges_of (elements s))
              (nodeCreationOrder s) (nodeSizeCache r) (positions r))
  ∧ editingNode s = editingNode st.
Proof.
  intros Hacc Hr Hedit Hhit s. subst s.
  rewrite nodesDeleted_accepted by done. cbv zeta. rewrite Hhit.
  destruct (views_of_split (surviving_nodes (d_node_ids p) (elements st))
              (surviving_edges (d_node_ids p) (elements st))
              (surviving_nodes_are_nodes _ _)
              (surviving_edges_are_edges _ _)) as [Hn He].
  destruct (hasSaveSnapshot ctx); simpl; rewrite Hr, Hedit; simpl;
    rewrite Hr; simpl; rewrite Hn, He, ?app_nil_r; done.
Qed.

Lemma deletion_spares_the_open_editor_witness :
  let s := handleRealtimeNodesDeleted demo_ctx demo_world demo_busy
             (Some demo_delete) in
  trace s = [SaveSnapshot true]
  ∧ renderer s
    = Some (mkRenderer (nodes_of (elements s)) (edges_of (elements s))
              (nodeCreationOrder s) ∅ (Some demo_positions))
  ∧ editingNode s = Some "n3".
Proof.
  apply (deletion_spares_the_open_editor demo_ctx demo_world demo_busy
           demo_delete demo_renderer); reflexivity.
Defined.

Lemma NoDup_fmap_same {A B} (f : A → B) (l : list A) x y :
  NoDup (f <$> l) → x ∈ l → y ∈ l → f x = f y → x = y.
Proof.
  induction l as [|a l IH]; intros Hnd Hx Hy Hf; [by apply elem_of_nil in Hx|].
  rewrite fmap_cons in Hnd. apply NoDup_cons in Hnd as [Ha Hnd].
  apply elem_of_cons in Hx as [->|Hx]; apply elem_of_cons in Hy as [->|Hy].
  - done.
  - exfalso. apply Ha. rewrite Hf. apply list_elem_of_fmap. by exists y.
  - exfalso. apply Ha. rewrite <- Hf. apply list_elem_of_fmap. by exists x.
  - by apply IH.
Qed.

(** A deletion does not cascade. When a deleted node has a child that
    the event does not name, the child stays in the store as it was,
    and it is left without an incoming edge. *)
Theorem deletion_does_not_cascade ctx w st p e d c :
  deletion_accepted ctx st (Some p) = true →
  single_parent (elements st) →
  e ∈ edges_of (elements st) →
  el_source e = Some d → el_target e = Some c →
  d ∈ d_node_ids p → c ∉ d_node_ids p →
  let s := handleRealtimeNodesDeleted ctx w st (Some p) in
  store_node (elements s) c = store_node (elements st) c
  ∧ ∀ e', e' ∈ edges_of (elements s) → el_target e' ≠ Some c.
Proof.
  intros Hacc Hsp He Hsrc Htgt Hd Hc s.
  pose proof (nodesDeleted_store ctx w st (Some p)) as [_ Hstore].
  rewrite Hacc in Hstore. destruct Hstore as [Hel _]. fold s in Hel.
  rewrite Hel. split.
  - rewrite store_node_survivors. by rewrite decide_False.
  - destruct (views_of_split (surviving_nodes (d_node_ids p) (elements st))
                (surviving_edges (d_node_ids p) (elements st))
                (surviving_nodes_are_nodes _ _)
                (surviving_edges_are_edges _ _)) as [_ ->].
    intros e' He' Ht'. unfold surviving_edges in He'.
    apply list_elem_of_filter in He' as [Hkeep He'].
    assert (e' = e) as ->.
    { apply (NoDup_fmap_same el_target (edges_of (elements st))); try done.
      by rewrite Ht', Htgt. }
    apply Is_true_true, andb_true_iff in Hkeep as [Hkeep _].
    apply negb_true_iff in Hkeep. rewrite Hsrc in Hkeep.
    unfold includes in Hkeep. by apply bool_decide_eq_false_1 in Hkeep.
Qed.

Lemma deletion_does_not_cascade_witness :
  let s := handleRealtimeNodesDeleted demo_ctx demo_world demo_idle
             (Some (mkDeleted "doc-1" "bob" ["n1"])) in
  store_node (elements s) "n3" = store_node (elements demo_idle) "n3"
  ∧ ∀ e', e' ∈ edges_of (elements s) → el_target e' ≠ Some "n3".
Proof.
  apply (deletion_does_not_cascade demo_ctx demo_world demo_idle
           (mkDeleted "doc-1" "bob" ["n1"]) (edge_el "n1" "n3") "n1" "n3").
  - reflexivity.
  - apply (bool_decide_unpack _). vm_compute. exact I.
  - apply (bool_decide_unpack _). vm_compute. exact I.
  - reflexivity.
  - reflexivity.
  - apply (bool_decide_unpack _). vm_compute. exact I.
  - apply (bool_decide_unpack _). vm_compute. exact I.
Defined.

(** * The ids of the nodes *)

Lemma is_node_of_edge e : names_an_end e = true → is_node (of_edge e) = false.
Proof.
  unfold names_an_end, is_node, of_edge. simpl.
  by destruct (truthy_str (e_source e)), (truthy_str (e_target e)).
Qed.

Lemma nodes_of_replace_edge e els :
  names_an_end e = true → nodes_of (replace_edge e els) = nodes_of els.
Proof.
  intros He. unfold replace_edge. rewrite nodes_of_app.
  unfold nodes_of at 2. rewrite filter_cons, filter_nil.
  rewrite decide_False
    by (rewrite (is_node_of_edge e He); simpl; tauto).
  rewrite app_nil_r. unfold nodes_of.
  induction els as [|x els IH]; [done|].
  rewrite !filter_cons. destruct (is_node x) eqn:Hx.
  - rewrite (decide_True (P := Is_true true)) by done.
    rewrite decide_True.
    + rewrite filter_cons, Hx. rewrite decide_True by done. by f_equal.
    + unfold is_node in Hx. apply andb_true_iff in Hx as [Hx _].
      by rewrite Hx.
  - rewrite (decide_False (P := Is_true false)) by (simpl; tauto).
    case_decide; [|done]. rewrite filter_cons, Hx.
    by rewrite decide_False by (simpl; tauto).
Qed.

Lemma node_ids_insert els i el el' :
  els !! i = Some el → is_node el = true → is_node el' = true →
  el_id el' = el_id el →
  node_ids (<[i:=el']> els) = node_ids els.
Proof.
  unfold node_ids, nodes_of. revert i.
  induction els as [|x els IH]; intros [|i] Hi Hn Hn' Hid; simpl in *;
    try done.
  - injection Hi as ->. rewrite !filter_cons, Hn, Hn'.
    rewrite !decide_True by done. by rewrite !fmap_cons, Hid.
  - rewrite !filter_cons. case_decide; rewrite ?fmap_cons;
      by rewrite (IH i).
Qed.

Lemma node_ids_snoc els n :
  node_ids (els ++ [of_node n]) = node_ids els ++ [n_id n].
Proof.
  unfold node_ids. rewrite nodes_of_app, fmap_app. f_equal.
Qed.

Lemma update_element_node n a b c el :
  has_id (n_id n) el = true → is_node el = true →
  is_node (update_element n a b c el) = true
  ∧ el_id (update_element n a b c el) = el_id el.
Proof.
  intros Hid Hn. unfold has_id in Hid. apply bool_decide_eq_true_1 in Hid.
  unfold update_element.
  destruct a; [by split|]. destruct b; [by split|]. by destruct c.
Qed.

Lemma findIndex_None {A} (p : A → bool) (l : list A) :
  findIndex p l = None → Forall (λ x, p x = false) l.
Proof.
  induction l as [|x l IH]; simpl; [by constructor|].
  destruct (p x) eqn:Hp; [done|]. intros H. constructor; [done|].
  apply IH. by destruct (findIndex p l).
Qed.

Lemma findIndex_None_node_ids els i :
  findIndex (λ el, has_id i el && is_node el) els = None →
  i ∉ node_ids els.
Proof.
  intros H. apply findIndex_None in H.
  unfold node_ids, nodes_of. intros Hin.
  apply list_elem_of_fmap in Hin as (el & -> & Hel).
  apply list_elem_of_filter in Hel as [Hn Hel].
  pose proof (proj1 (Forall_forall _ _) H el Hel) as Hf. simpl in Hf.
  apply Is_true_true in Hn. rewrite Hn, andb_true_r in Hf.
  unfold has_id in Hf. by apply bool_decide_eq_false_1 in Hf.
Qed.

Lemma findIndex_Some_node_ids els i k :
  findIndex (λ el, has_id i el && is_node el) els = Some k →
  i ∈ node_ids els.
Proof.
  intros H. apply findIndex_Some in H as (x & Hx & Hp).
  apply andb_true_iff in Hp as [Hid Hn].
  unfold has_id in Hid. apply bool_decide_eq_true_1 in Hid. subst i.
  unfold node_ids, nodes_of. apply list_elem_of_fmap. exists x.
  split; [done|]. apply list_elem_of_filter. split; [by rewrite Hn|].
  by eapply list_elem_of_lookup_2.
Qed.

Lemma nodeUpdate_sync_node_ids ctx w now st p :
  (∀ e, u_edge p = Some e → names_an_end e = true) →
  node_ids (elements (nodeUpdate_sync ctx w now st (Some p)).1)
  = node_ids (elements st) ++ option_list (update_adds ctx st p).
Proof.
  intros Hedge. unfold nodeUpdate_sync, update_adds, update_in_scope.
  destruct (bool_decide (u_entity_name p ≠ entityName ctx)) eqn:H1.
  { apply bool_decide_eq_true_1 in H1.
    rewrite (bool_decide_eq_false_2 (_ = entityName ctx)) by done.
    simpl. by rewrite app_nil_r. }
  apply bool_decide_eq_false_1 in H1.
  rewrite (bool_decide_eq_true_2 (_ = entityName ctx))
    by (by destruct (decide (u_entity_name p = entityName ctx)); [|tauto]).
  destruct (bool_decide (u_modified_by p = currentUser ctx)) eqn:H2.
  { apply bool_decide_eq_true_1 in H2.
    rewrite (bool_decide_eq_false_2 (_ ≠ currentUser ctx)) by tauto.
    simpl. by rewrite app_nil_r. }
  apply bool_decide_eq_false_1 in H2.
  rewrite (bool_decide_eq_true_2 (_ ≠ currentUser ctx)) by done.
  destruct (isSaving st && _) eqn:H3.
  { simpl. by rewrite app_nil_r. }
  destruct (u_node p) as [n|]; [|by rewrite app_nil_r].
  simpl.
  set (P := λ el, has_id (n_id n) el && is_node el).
  set (els1 := match findIndex P (elements st) with
               | Some i => _ | None => _ end).
  assert (node_ids els1
          = node_ids (elements st)
            ++ option_list (if bool_decide (n_id n ∉ node_ids (elements st))
                            then Some (n_id n) else None)) as He1.
  { subst els1. destruct (findIndex P (elements st)) as [i|] eqn:Hi.
    - pose proof (findIndex_Some_node_ids _ _ _ Hi) as Hin.
      rewrite (bool_decide_eq_false_2 (n_id n ∉ node_ids (elements st)))
        by (intros Hno; by apply Hno).
      simpl. rewrite app_nil_r.
      apply findIndex_Some in Hi as (x & Hx & HP). rewrite Hx.
      subst P. simpl in HP. apply andb_true_iff in HP as [Hid Hn].
      destruct (update_element_node n
                  (negb (same_id (n_id n) (editingNode st))
                   && negb (same_id (n_id n) (selectedNode st)
                            && negb (same_id (n_id n) (editingNode st))))
                  (bool_decide (completed (n_data n) ≠ None)
                   && (same_id (n_id n) (editingNode st)
                       || same_id (n_id n) (selectedNode st)
                          && negb (same_id (n_id n) (editingNode st))))
                  (bool_decide (n_id n ∈ changedNodeIds st)
                   && same_id (n_id n) (editingNode st)) x Hid Hn)
        as [Hn' Hid'].
      by eapply node_ids_insert.
    - pose proof (findIndex_None_node_ids _ _ Hi) as Hin.
      rewrite (bool_decide_eq_true_2 (n_id n ∉ node_ids (elements st)))
        by done.
      apply node_ids_snoc. }
  clearbody els1.
  repeat (case_match; simpl; try done);
    unfold node_ids in *; rewrite ?nodes_of_replace_edge by (by apply Hedge);
    exact He1.
Qed.

Lemma batch_gates ctx st p :
  batch_accepted ctx st p = true →
  bool_decide (b_entity_name p ≠ entityName ctx) = false
  ∧ bool_decide (b_modified_by p = currentUser ctx) = false
  ∧ isSaving st = false
  ∧ bool_decide (b_nodes p = []) = false
  ∧ allNodesAreBeingEdited (n_id <$> b_nodes p) (editingNode st)
      (selectedNode st) = false.
Proof.
  unfold batch_accepted. intros H.
  repeat (apply andb_true_iff in H as [H ?]).
  repeat match goal with
         | H : bool_decide _ = true |- _ => apply bool_decide_eq_true_1 in H
         | H : negb _ = true |- _ => apply negb_true_iff in H
         end.
  repeat split; try done; apply bool_decide_eq_false_2; by try intros ?.
Qed.

Lemma batch_rejected ctx st p :
  batch_accepted ctx st p = false →
  nodesBatchUpdate_sync ctx st (Some p) = (st, None).
Proof.
  unfold batch_accepted, nodesBatchUpdate_sync. intros H.
  destruct (bool_decide (b_entity_name p ≠ entityName ctx)) eqn:H1; [done|].
  destruct (bool_decide (b_modified_by p = currentUser ctx)) eqn:H2; [done|].
  destruct (isSaving st); [done|].
  destruct (bool_decide (b_nodes p = [])) eqn:H3; [done|].
  destruct (allNodesAreBeingEdited _ _ _); [done|].
  exfalso.
  apply bool_decide_eq_false_1 in H1, H2, H3.
  rewrite (bool_decide_eq_true_2 (b_entity_name p = entityName ctx)) in H
    by (by destruct (decide (b_entity_name p = entityName ctx)); [|tauto]).
  rewrite (bool_decide_eq_true_2 (b_modified_by p ≠ currentUser ctx)) in H
    by done.
  rewrite (bool_decide_eq_true_2 (b_nodes p ≠ [])) in H by done.
  done.
Qed.

(** The element list that an accepted batch leaves in the store. *)
Lemma batch_elements ctx st p :
  batch_accepted ctx st p = true →
  elements (nodesBatchUpdate_sync ctx st (Some p)).1
  = ((λ localNode,
        match find_patch (b_nodes p) (el_id localNode) with
        | Some remoteNode => el_spread localNode remoteNode
        | None => localNode
        end) <$> nodes_of (elements st))
    ++ (of_node <$> filter (λ n, is_new (elements st) n) (b_nodes p))
    ++ match b_edges p with
       | Some payloadEdges => batch_edges (elements st) payloadEdges
       | None => edges_of (elements st)
       end.
Proof.
  intros Hacc. destruct (batch_gates _ _ _ Hacc) as (H1 & H2 & H3 & H4 & H5).
  unfold nodesBatchUpdate_sync. rewrite H1, H2, H3, H4, H5. cbv zeta.
  destruct (hasSaveSnapshot ctx && _); simpl;
    destruct (renderer st); simpl; by rewrite <- app_assoc.
Qed.

Lemma find_patch_id ns i n : find_patch ns i = Some n → n_id n = i.
Proof.
  unfold find_patch. intros H. apply find_first_Some in H as (_ & _ & _ & H).
  by apply bool_decide_eq_true_1 in H.
Qed.

Lemma batch_edges_no_nodes els es :
  Forall (λ e, names_an_end e = true) es →
  Forall (λ el, is_node el = false) (batch_edges els es).
Proof.
  intros Hes. unfold batch_edges. apply Forall_app. split.
  - apply Forall_forall. intros e He.
    apply list_elem_of_filter in He as [_ He].
    apply list_elem_of_filter in He as [He _].
    apply Is_true_true in He. by apply is_edge_not_node.
  - apply Forall_fmap. eapply Forall_impl; [exact Hes|].
    intros e He. by apply is_node_of_edge.
Qed.

Lemma edges_of_no_nodes els :
  Forall (λ el, is_node el = false) (edges_of els).
Proof.
  apply Forall_forall. intros e He.
  apply list_elem_of_filter in He as [He _].
  apply Is_true_true in He. by apply is_edge_not_node.
Qed.

Lemma nodes_of_none l :
  Forall (λ el, is_node el = false) l → nodes_of l = [].
Proof.
  intros H. apply filter_none. eapply Forall_impl; [exact H|].
  intros x Hx. rewrite Hx. simpl. tauto.
Qed.

Lemma nodes_of_all l :
  Forall (λ el, is_node el = true) l → nodes_of l = l.
Proof.
  intros H. apply filter_all. eapply Forall_impl; [exact H|].
  intros x Hx. by rewrite Hx.
Qed.

Lemma batch_edge_part_no_nodes els (o : option (list Edge)) :
  (∀ es, o = Some es → Forall (λ e, names_an_end e = true) es) →
  Forall (λ el, is_node el = false)
    match o with
    | Some payloadEdges => batch_edges els payloadEdges
    | None => edges_of els
    end.
Proof.
  intros H. destruct o as [es|].
  - apply batch_edges_no_nodes. by apply H.
  - apply edges_of_no_nodes.
Qed.

Lemma batch_node_part_nodes els ns :
  Forall (λ el, is_node el = true)
    (((λ localNode,
         match find_patch ns (el_id localNode) with
         | Some remoteNode => el_spread localNode remoteNode
         | None => localNode
         end) <$> nodes_of els)
     ++ (of_node <$> filter (λ n, is_new els n) ns)).
Proof.
  apply Forall_app. split.
  - apply Forall_fmap, Forall_forall. intros e He.
    apply list_elem_of_filter in He as [He _]. apply Is_true_true in He.
    simpl. by destruct (find_patch ns (el_id e)).
  - apply Forall_fmap, Forall_forall. by intros n _.
Qed.

Lemma nodesBatchUpdate_sync_node_ids ctx st p :
  batch_accepted ctx st p = true →
  (∀ es, b_edges p = Some es → Forall (λ e, names_an_end e = true) es) →
  node_ids (elements (nodesBatchUpdate_sync ctx st (Some p)).1)
  = node_ids (elements st)
    ++ (n_id <$> filter (λ n, is_new (elements st) n) (b_nodes p)).
Proof.
  intros Hacc Hedges. rewrite batch_elements by done.
  unfold node_ids. rewrite app_assoc, nodes_of_app.
  rewrite (nodes_of_none _ (batch_edge_part_no_nodes _ _ Hedges)).
  rewrite app_nil_r, (nodes_of_all _ (batch_node_part_nodes _ _)).
  rewrite fmap_app. f_equal.
  - rewrite <- list_fmap_compose. apply list_fmap_ext. intros i e He.
    simpl. destruct (find_patch _ _) as [n|] eqn:Hn; [|done].
    simpl. by apply find_patch_id in Hn.
  - by rewrite <- list_fmap_compose.
Qed.

Lemma deletion_rejected ctx w st payload :
  deletion_accepted ctx st payload = false →
  elements (handleRealtimeNodesDeleted ctx w st payload) = elements st.
Proof.
  intros Hacc.
  pose proof (nodesDeleted_store ctx w st payload) as [_ Hstore].
  destruct payload as [p|]; [|by destruct Hstore].
  rewrite Hacc in Hstore. by destruct Hstore.
Qed.

Lemma update_result_elements nfc trim imageCount rebuild ctx fuel w now st
    payload s :
  handleRealtimeNodeUpdate nfc trim imageCount rebuild ctx fuel w now st
    payload = Some s →
  elements s = elements (nodeUpdate_sync ctx w now st payload).1.
Proof.
  unfold handleRealtimeNodeUpdate.
  destruct (nodeUpdate_sync ctx w now st payload) as [st1 [k|]]; simpl.
  - destruct (nodeUpdate_tick ctx fuel w k st1) as [[st2 b]|] eqn:Ht;
      [|done].
    simpl. apply nodeUpdate_tick_store in Ht as [Hel _].
    destruct b; intros [= <-]; [|done].
    by destruct (setContentStep_store nfc trim imageCount rebuild w k st2)
      as [-> _].
  - by intros [= <-].
Qed.


(** No handler gives two nodes of the store the same id. If the ids of
    the nodes are pairwise distinct, they still are after a deletion,
    after an update whose edge names a source or a target, and after a
    batch whose edges do and whose new nodes have pairwise distinct
    ids. *)
Theorem node_ids_stay_unique nfc trim imageCount rebuild ctx fuel w now st
    pd pu pb :
  NoDup (node_ids (elements st)) →
  NoDup (node_ids (elements (handleRealtimeNodesDeleted ctx w st pd)))
  ∧ ((∀ e, u_edge pu = Some e → names_an_end e = true) →
     NoDup (node_ids (elements (nodeUpdate_sync ctx w now st (Some pu)).1))
     ∧ ∀ s, handleRealtimeNodeUpdate nfc trim imageCount rebuild ctx fuel w
              now st (Some pu) = Some s →
            NoDup (node_ids (elements s)))
  ∧ ((∀ es, b_edges pb = Some es →
            Forall (λ e, names_an_end e = true) es) →
     NoDup (n_id <$> filter (λ n, is_new (elements st) n) (b_nodes pb)) →
     NoDup (node_ids (elements (nodesBatchUpdate_sync ctx st (Some pb)).1))
     ∧ ∀ s, handleRealtimeNodesBatchUpdate ctx fuel w st (Some pb) = Some s →
            NoDup (node_ids (elements s))).
Proof.
  intros Hnd. split; [|split].
  - destruct (deletion_accepted ctx st pd) eqn:Hacc.
    + destruct pd as [p|]; [|done].
      rewrite deletion_node_ids by done. by apply NoDup_filter.
    + by rewrite deletion_rejected.
  - intros Hedge.
    assert (NoDup (node_ids
                     (elements (nodeUpdate_sync ctx w now st (Some pu)).1)))
      as Hsync.
    { rewrite nodeUpdate_sync_node_ids by done.
      unfold update_adds. destruct (_ && _); [|by rewrite app_nil_r].
      destruct (u_node pu) as [n|]; [|by rewrite app_nil_r].
      case_bool_decide as Hn; [|by rewrite app_nil_r].
      simpl. apply NoDup_app. split; [done|]. split.
      - intros x Hx Hx'. apply list_elem_of_singleton in Hx'. by subst x.
      - apply NoDup_singleton. }
    split; [done|]. intros s Hs.
    by rewrite (update_result_elements _ _ _ _ _ _ _ _ _ _ _ Hs).
  - intros Hedges Hnew.
    assert (NoDup (node_ids
                     (elements (nodesBatchUpdate_sync ctx st (Some pb)).1)))
      as Hsync.
    { destruct (batch_accepted ctx st pb) eqn:Hacc.
      - rewrite nodesBatchUpdate_sync_node_ids by done.
        apply NoDup_app. split; [done|]. split; [|done].
        intros x Hx Hx'.
        apply list_elem_of_fmap in Hx' as (n & -> & Hn).
        apply list_elem_of_filter in Hn as [Hn _].
        unfold is_new in Hn. apply Is_true_true in Hn.
        by apply bool_decide_eq_true_1 in Hn.
      - by rewrite batch_rejected. }
    split; [done|]. intros s Hs.
    by rewrite (batch_result_node_ids _ _ _ _ _ _ Hs).
Qed.

Lemma node_ids_stay_unique_witness :
  NoDup (node_ids (elements demo_idle))
  ∧ NoDup (node_ids
             (elements (nodeUpdate_sync demo_ctx demo_world 5000 demo_idle
                          (Some demo_move)).1))
  ∧ NoDup (node_ids
             (elements (nodesBatchUpdate_sync demo_ctx demo_idle
                          (Some demo_batch)).1)).
Proof.
  assert (NoDup (node_ids (elements demo_idle))) as Hnd.
  { apply (bool_decide_unpack _). vm_compute. exact I. }
  split; [exact Hnd|].
  destruct (node_ids_stay_unique (λ s, s) ascii_trim_is_blank (λ _, O)
              (λ s, s) demo_ctx 8 demo_world 5000 demo_idle
              (Some demo_delete) demo_move demo_batch Hnd)
    as (_ & Hu & Hb).
  split.
  - apply (proj1 (Hu ltac:(by intros e [= <-]))).
  - refine (proj1 (Hb _ _)).
    + intros es [= <-]. by repeat constructor.
    + apply (bool_decide_unpack _). vm_compute. exact I.
Defined.

(** * What a batch leaves in the store *)

Lemma find_first_app {A} (p : A → bool) (l k : list A) :
  find_first p (l ++ k)
  = match find_first p l with
    | Some x => Some x
    | None => find_first p k
    end.
Proof. induction l as [|x l IH]; simpl; [done|]. by destruct (p x). Qed.

Lemma find_first_fmap {A B} (p : A → bool) (q : B → bool) (f : A → B)
    (l : list A) :
  (∀ x, q (f x) = p x) → find_first q (f <$> l) = f <$> find_first p l.
Proof.
  intros H. induction l as [|x l IH]; simpl; [done|].
  rewrite H. by destruct (p x).
Qed.

Lemma store_node_nodes_of els x :
  find_first (λ el, has_id x el && is_node el) (nodes_of els)
  = store_node els x.
Proof.
  unfold store_node, nodes_of. apply find_first_filter.
  intros e He. apply andb_true_iff in He as [_ He]. by rewrite He.
Qed.

Lemma store_node_id els x el : store_node els x = Some el → el_id el = x.
Proof.
  unfold store_node. intros H.
  apply find_first_Some in H as (_ & _ & _ & H).
  apply andb_true_iff in H as [H _]. by apply bool_decide_eq_true_1 in H.
Qed.

Lemma batch_lookup ctx st p x :
  batch_accepted ctx st p = true →
  (∀ es, b_edges p = Some es → Forall (λ e, names_an_end e = true) es) →
  store_node (elements (nodesBatchUpdate_sync ctx st (Some p)).1) x
  = match find_patch (b_nodes p) x with
    | Some n =>
        Some match store_node (elements st) x with
             | Some el => el_spread el n
             | None => of_node n
             end
    | None => store_node (elements st) x
    end.
Proof.
  intros Hacc Hedges. rewrite batch_elements by done.
  set (f := λ localNode : Element,
              match find_patch (b_nodes p) (el_id localNode) with
              | Some remoteNode => el_spread localNode remoteNode
              | None => localNode
              end).
  set (px := λ el : Element, has_id x el && is_node el).
  unfold store_node at 1. fold px. rewrite find_first_app.
  rewrite (find_first_fmap px px f).
  2:{ intros e. subst px f. simpl.
      destruct (find_patch (b_nodes p) (el_id e)) as [n|] eqn:Hn; [|done].
      apply find_patch_id in Hn. unfold has_id, is_node. simpl.
      by rewrite Hn. }
  subst px. rewrite store_node_nodes_of.
  destruct (store_node (elements st) x) as [el|] eqn:Hel; simpl.
  - subst f. simpl. rewrite (store_node_id _ _ _ Hel).
    by destruct (find_patch (b_nodes p) x).
  - rewrite find_first_app.
    rewrite (find_first_fmap (λ n : Node, bool_decide (n_id n = x))
               (λ el, has_id x el && is_node el) of_node).
    2:{ intros n. unfold has_id, is_node. simpl. by rewrite andb_true_r. }
    rewrite find_first_filter.
    2:{ intros n Hn. apply bool_decide_eq_true_1 in Hn.
        unfold is_new. apply Is_true_true, bool_decide_eq_true_2.
        rewrite Hn. apply findIndex_None_node_ids.
        by apply find_first_None_findIndex. }
    fold (find_patch (b_nodes p) x).
    destruct (find_patch (b_nodes p) x) as [n|]; simpl; [done|].
    apply find_first_none.
    eapply Forall_impl; [apply (batch_edge_part_no_nodes _ _ Hedges)|].
    intros e He. simpl in He. by rewrite He, andb_false_r.
Qed.

(** What the whole handler leaves in the store for an accepted batch:
    the elements that its synchronous part stored, and, in the branch
    that does not render, the writes of the patches on the nodes. *)
Lemma batch_result_elements ctx fuel w st p s :
  batch_accepted ctx st p = true →
  handleRealtimeNodesBatchUpdate ctx fuel w st (Some p) = Some s →
  elements s
  = if batch_writes_through ctx st p
    then ((λ el, el_map_data (batch_written (b_nodes p) (el_id el)) el)
          <$> (((λ localNode,
                   match find_patch (b_nodes p) (el_id localNode) with
                   | Some remoteNode => el_spread localNode remoteNode
                   | None => localNode
                   end) <$> nodes_of (elements st))
               ++ (of_node <$> filter (λ n, is_new (elements st) n)
                                 (b_nodes p))))
         ++ match b_edges p with
            | Some payloadEdges => batch_edges (elements st) payloadEdges
            | None => edges_of (elements st)
            end
    else elements (nodesBatchUpdate_sync ctx st (Some p)).1.
Proof.
  intros Hacc. unfold batch_writes_through. rewrite Hacc. cbn [andb].
  destruct (batch_gates _ _ _ Hacc) as (H1 & H2 & H3 & H4 & H5).
  unfold handleRealtimeNodesBatchUpdate, nodesBatchUpdate_sync.
  rewrite H1, H2, H3, H4, H5. cbv zeta.
  set (ns := _ ++ (of_node <$> _)).
  set (es := match b_edges p with Some _ => _ | None => _ end).
  set (st2 := if _ : bool then _ else _).
  assert (renderer st2 = renderer st ∧ elements st2 = ns ++ es
          ∧ editingNode st2 = editingNode st) as (Hr2 & He2 & Hed2).
  { subst st2. by destruct (hasSaveSnapshot ctx && _). }
  rewrite Hr2. destruct (renderer st) as [r|] eqn:Hr.
  2:{ rewrite bool_decide_eq_false_2 by (by intros H; apply H).
      by intros [= <-]. }
  rewrite bool_decide_eq_true_2 by done. cbn [andb fst].
  unfold nodesBatchUpdate_tick. rewrite Hr2.
  destruct (batch_invalidate fuel _ (elements st2) r) as [r2|]; [|done].
  simpl. intros [= <-]. rewrite batch_render_elements.
  cbn [bk_hasNewNodes bk_remoteNodeUpdates bk_editingNodeId
       bk_selectedNodeId bk_updatedNodes].
  rewrite Hed2.
  destruct (truthy (editingNode st) && _ && _); [|done].
  by rewrite He2, drop_app_length.
Qed.

(** An accepted batch drops no node and moves none. The nodes of the
    store keep their places and the new nodes of the batch follow them
    in the order of the batch; when the store has been written, a node
    the batch names is looked up with the data of the first patch the
    batch holds for it, and every other node as it was. The callback
    keeps the nodes and their places. When it lays out and renders, it
    leaves the store as written; when it does not render, it writes
    every patch through to the [data] object of the stored node: the
    labels and [completed] flags of later patches for the same id
    replace those of the first, and a [rect] sets the fixed sizes. *)
Theorem batch_keeps_every_node ctx fuel w st p :
  batch_accepted ctx st p = true →
  (∀ es, b_edges p = Some es → Forall (λ e, names_an_end e = true) es) →
  let s1 := (nodesBatchUpdate_sync ctx st (Some p)).1 in
  node_ids (elements s1)
  = node_ids (elements st)
    ++ (n_id <$> filter (λ n, is_new (elements st) n) (b_nodes p))
  ∧ (∀ x, store_node (elements s1) x
          = match find_patch (b_nodes p) x with
            | Some n =>
                Some match store_node (elements st) x with
                     | Some el => el_spread el n
                     | None => of_node n
                     end
            | None => store_node (elements st) x
            end)
  ∧ ∀ s, handleRealtimeNodesBatchUpdate ctx fuel w st (Some p) = Some s →
         node_ids (elements s) = node_ids (elements s1)
         ∧ (batch_writes_through ctx st p = false →
            elements s = elements s1)
         ∧ (batch_writes_through ctx st p = true →
            ∀ x, store_node (elements s) x
                 = el_map_data (batch_written (b_nodes p) x)
                   <$> store_node (elements s1) x).
Proof.
  intros Hacc Hedges s1. split; [|split].
  - by apply nodesBatchUpdate_sync_node_ids.
  - intros x. by apply batch_lookup.
  - intros s Hs. split; [|split].
    + by apply (batch_result_node_ids _ _ _ _ _ _ Hs).
    + intros Hw. rewrite (batch_result_elements _ _ _ _ _ _ Hacc Hs).
      by rewrite Hw.
    + intros Hw x. rewrite (batch_result_elements _ _ _ _ _ _ Hacc Hs), Hw.
      subst s1. rewrite batch_elements by done. rewrite app_assoc.
      set (ns := _ ++ (of_node <$> _)).
      set (es := match b_edges p with Some _ => _ | None => _ end).
      set (px := λ el : Element, has_id x el && is_node el).
      unfold store_node. fold px. rewrite !find_first_app.
      rewrite (find_first_fmap px px).
      2:{ intros el. by destruct el. }
      assert (find_first px es = None) as ->.
      { apply find_first_none.
        eapply Forall_impl; [apply (batch_edge_part_no_nodes _ _ Hedges)|].
        intros e He. subst px. simpl in *. by rewrite He, andb_false_r. }
      destruct (find_first px ns) as [el|] eqn:Hel; simpl; [|done].
      apply find_first_Some in Hel as (_ & _ & _ & Hp).
      subst px. simpl in Hp. apply andb_true_iff in Hp as [Hp _].
      apply bool_decide_eq_true_1 in Hp. by rewrite Hp.
Qed.

Lemma batch_keeps_every_node_witness :
  let s1 := (nodesBatchUpdate_sync demo_ctx demo_dirty
               (Some demo_batch_twice)).1 in
  node_ids (elements s1) = ["root"; "n1"; "n3"; "n4"]
  ∧ store_node (elements s1) "n4"
    = Some (mkElement "n4" None None
              (mkData (Some "D2") None (Some (mkRect 300 60)) None None
                 None None))
  ∧ store_node (elements s1) "n3" = Some (node_el "n3" "C")
  ∧ ∀ s, handleRealtimeNodesBatchUpdate demo_ctx 8 demo_world demo_dirty
           (Some demo_batch_twice) = Some s →
         store_node (elements s) "n4"
         = Some (mkElement "n4" None None
                   (mkData (Some "D3") None (Some (mkRect 300 60)) None None
                      (Some 300) (Some 60)))
         ∧ store_node (elements s) "n3" = Some (node_el "n3" "C").
Proof.
  intros s1.
  destruct (batch_keeps_every_node demo_ctx 8 demo_world demo_dirty
              demo_batch_twice) as (Hids & Hlook & Hfinal).
  - reflexivity.
  - by intros es [=].
  - fold s1 in Hids, Hlook, Hfinal. split; [by rewrite Hids|].
    split; [by rewrite Hlook|]. split; [by rewrite Hlook|].
    intros s Hs. destruct (Hfinal s Hs) as (_ & _ & Hw).
    rewrite !Hw by reflexivity. by rewrite !Hlook.
Defined.

(** * What an update leaves in the store *)

Lemma find_first_insert_other {A} (q : A → bool) (l : list A) i a b :
  l !! i = Some a → q a = false → q b = false →
  find_first q (<[i:=b]> l) = find_first q l.
Proof.
  revert i. induction l as [|x l IH]; intros [|i] Hi Ha Hb; simpl in *;
    try done.
  - injection Hi as ->. by rewrite Ha, Hb.
  - destruct (q x); [done|]. by apply IH.
Qed.

Lemma store_node_replace_edge_eq e els x :
  names_an_end e = true →
  store_node (replace_edge e els) x = store_node els x.
Proof.
  intros He. unfold store_node, replace_edge.
  rewrite find_first_app_None.
  - apply find_first_filter. intros el Hel.
    apply andb_true_iff in Hel as [_ Hel]. unfold is_node in Hel.
    apply andb_true_iff in Hel as [Hel _]. by rewrite Hel.
  - constructor; [|constructor].
    by rewrite (is_node_of_edge e He), andb_false_r.
Qed.

(** The flags of the write to the store, as the handler computes
    them. *)
Lemma nodeUpdate_sync_lookup ctx w now st p n :
  update_in_scope ctx p = true →
  isSaving st && same_id (u_node_id p) (editingNode st) = false →
  u_node p = Some n →
  (∀ e, u_edge p = Some e → names_an_end e = true) →
  let s1 := (nodeUpdate_sync ctx w now st (Some p)).1 in
  let isNodeBeingEdited := same_id (n_id n) (editingNode st) in
  let isNodeSelected :=
    same_id (n_id n) (selectedNode st) && negb isNodeBeingEdited in
  store_node (elements s1) (n_id n)
  = Some match store_node (elements st) (n_id n) with
         | Some el =>
             update_element n (negb isNodeBeingEdited && negb isNodeSelected)
               (bool_decide (completed (n_data n) ≠ None)
                && (isNodeBeingEdited || isNodeSelected))
               (bool_decide (n_id n ∈ changedNodeIds st)
                && isNodeBeingEdited) el
         | None => of_node n
         end
  ∧ (∀ x, x ≠ n_id n →
       store_node (elements s1) x = store_node (elements st) x)
  ∧ nodeCreationOrder s1 = set_order_of n (nodeCreationOrder st).
Proof.
  intros Hscope Hsave Hn Hedge s1 edited selected. subst s1.
  destruct (scope_gates _ _ Hscope) as [H1 H2].
  unfold nodeUpdate_sync. rewrite H1, H2, Hsave, Hn. fold edited selected.
  set (P := λ el, has_id (n_id n) el && is_node el).
  set (els1 := match findIndex P (elements st) with
               | Some i => _ | None => _ end).
  assert (store_node els1 (n_id n)
          = Some match store_node (elements st) (n_id n) with
                 | Some el =>
                     update_element n (negb edited && negb selected)
                       (bool_decide (completed (n_data n) ≠ None)
                        && (edited || selected))
                       (bool_decide (n_id n ∈ changedNodeIds st) && edited)
                       el
                 | None => of_node n
                 end
          ∧ ∀ x, x ≠ n_id n →
                 store_node els1 x = store_node (elements st) x)
    as [Hself Hother].
  { subst els1. unfold store_node. fold P.
    rewrite (find_first_findIndex P (elements st)).
    destruct (findIndex P (elements st)) as [i|] eqn:Hi; simpl.
    - pose proof Hi as Hi'.
      apply findIndex_Some in Hi' as (el & Hel & HP). rewrite Hel.
      pose proof HP as HP'. apply andb_true_iff in HP' as [Hid Hnode].
      destruct (update_element_node n (negb edited && negb selected)
                  (bool_decide (completed (n_data n) ≠ None)
                   && (edited || selected))
                  (bool_decide (n_id n ∈ changedNodeIds st) && edited)
                  el Hid Hnode) as [Hnode' Hid'].
      split.
      + apply find_first_insert; [done|]. subst P. simpl.
        rewrite Hnode', andb_true_r. unfold has_id. rewrite Hid'.
        exact Hid.
      + intros x Hx. apply (find_first_insert_other _ _ _ el); [done| |].
        * apply andb_false_iff. left. unfold has_id in *.
          apply bool_decide_eq_true_1 in Hid.
          apply bool_decide_eq_false_2. congruence.
        * apply andb_false_iff. left. unfold has_id in *.
          apply bool_decide_eq_true_1 in Hid.
          apply bool_decide_eq_false_2. congruence.
    - split.
      + rewrite find_first_app.
        rewrite (find_first_findIndex P (elements st)), Hi. simpl.
        subst P. simpl. unfold has_id. simpl.
        by rewrite bool_decide_eq_true_2.
      + intros x Hx. apply find_first_app_None.
        constructor; [|constructor]. unfold has_id. simpl.
        rewrite bool_decide_eq_false_2 by congruence. done. }
  clearbody els1.
  repeat (case_match; simpl; try done);
    rewrite ?store_node_replace_edge_eq by (by apply Hedge);
    split; try done; split; try done; intros x Hx;
    rewrite ?store_node_replace_edge_eq by (by apply Hedge);
    by apply Hother.
Qed.

Lemma update_result_store nfc trim imageCount rebuild ctx fuel w now st
    payload s :
  handleRealtimeNodeUpdate nfc trim imageCount rebuild ctx fuel w now st
    payload = Some s →
  same_store s (nodeUpdate_sync ctx w now st payload).1.
Proof.
  unfold handleRealtimeNodeUpdate.
  destruct (nodeUpdate_sync ctx w now st payload) as [st1 [k|]]; simpl.
  - destruct (nodeUpdate_tick ctx fuel w k st1) as [[st2 b]|] eqn:Ht;
      [|done].
    simpl. apply nodeUpdate_tick_store in Ht.
    destruct b; intros [= <-]; [|done].
    eapply same_store_trans; [|exact Ht].
    apply setContentStep_store.
  - intros [= <-]. apply same_store_refl.
Qed.

(** An update for a node that the local user neither edits nor has
    selected replaces the node in the store by the node of the event,
    whole: when the synchronous part of the handler returns, the node
    is looked up as the event sent it, every other node as before, and
    the creation-order index holds the order the event carries. A node
    the store did not know is added the same way. The size passes that
    the handler schedules write the [rect] and the fixed sizes of the
    node later on. *)
Theorem update_replaces_an_idle_node ctx w now st p n :
  update_in_scope ctx p = true →
  isSaving st && same_id (u_node_id p) (editingNode st) = false →
  u_node p = Some n →
  same_id (n_id n) (editingNode st) = false →
  same_id (n_id n) (selectedNode st) = false →
  (∀ e, u_edge p = Some e → names_an_end e = true) →
  let s1 := (nodeUpdate_sync ctx w now st (Some p)).1 in
  store_node (elements s1) (n_id n) = Some (of_node n)
  ∧ (∀ x, x ≠ n_id n →
       store_node (elements s1) x = store_node (elements st) x)
  ∧ (∀ o, order (n_data n) = Some o →
       nodeCreationOrder s1 !! n_id n = Some o).
Proof.
  intros Hscope Hsave Hn Hed Hsel Hedge s1.
  destruct (nodeUpdate_sync_lookup ctx w now st p n Hscope Hsave Hn Hedge)
    as (Hself & Hother & Hord).
  fold s1 in Hself, Hother, Hord. rewrite Hed, Hsel in Hself.
  split; [|split; [done|]].
  - rewrite Hself. by destruct (store_node (elements st) (n_id n)).
  - intros o Ho. rewrite Hord. unfold set_order_of. rewrite Ho.
    rewrite lookup_insert. by rewrite decide_True.
Qed.

Lemma update_replaces_an_idle_node_witness :
  let s1 := (nodeUpdate_sync demo_ctx demo_world 5000 demo_dirty
               (Some demo_other)).1 in
  store_node (elements s1) "n4" = Some (node_el "n4" "D2")
  ∧ (∀ x, x ≠ "n4" →
       store_node (elements s1) x = store_node (elements demo_dirty) x).
Proof.
  intros s1.
  destruct (update_replaces_an_idle_node demo_ctx demo_world 5000 demo_dirty
              demo_other (mkNode "n4" (labelled "D2")))
    as (H1 & H2 & _); try reflexivity.
  - by intros e [=].
  - by split.
Defined.

(** An update for the node that is selected, and not under edit, never
    changes the label the store holds for it when that label is not
    empty; a [completed] field of the event is merged. *)
Theorem update_keeps_the_selected_label nfc trim imageCount rebuild ctx fuel
    w now st p n el :
  update_in_scope ctx p = true →
  isSaving st && same_id (u_node_id p) (editingNode st) = false →
  u_node p = Some n →
  same_id (n_id n) (editingNode st) = false →
  same_id (n_id n) (selectedNode st) = true →
  (∀ e, u_edge p = Some e → names_an_end e = true) →
  store_node (elements st) (n_id n) = Some el →
  truthy (label (el_data el)) = true →
  let s1 := (nodeUpdate_sync ctx w now st (Some p)).1 in
  (∃ el', store_node (elements s1) (n_id n) = Some el'
          ∧ label (el_data el') = label (el_data el)
          ∧ completed (el_data el')
            = or_else (completed (n_data n)) (completed (el_data el)))
  ∧ ∀ s, handleRealtimeNodeUpdate nfc trim imageCount rebuild ctx fuel w
           now st (Some p) = Some s →
         store_label (elements s) (n_id n) = label (el_data el).
Proof.
  intros Hscope Hsave Hn Hed Hsel Hedge Hel Hlab s1.
  destruct (nodeUpdate_sync_lookup ctx w now st p n Hscope Hsave Hn Hedge)
    as (Hself & _ & _).
  fold s1 in Hself. rewrite Hed, Hsel, Hel in Hself. simpl in Hself.
  rewrite andb_false_r in Hself. unfold update_element in Hself.
  assert (∃ el', store_node (elements s1) (n_id n) = Some el'
                 ∧ label (el_data el') = label (el_data el)
                 ∧ completed (el_data el')
                   = or_else (completed (n_data n)) (completed (el_data el)))
    as (el' & Hel' & Hl' & Hc').
  { eexists. split; [exact Hself|].
    destruct (completed (n_data n)) as [c|] eqn:Hcn.
    - rewrite bool_decide_eq_true_2 by done. simpl.
      by destruct (rect (n_data n)).
    - rewrite bool_decide_eq_false_2 by (by intros Hc; apply Hc). simpl.
      unfold label_or. by rewrite Hlab, Hcn. }
  split; [by exists el'|].
  intros s Hs. apply update_result_store in Hs as [Hs _].
  unfold store_label. rewrite Hs. fold s1. by rewrite Hel'.
Qed.

Lemma update_keeps_the_selected_label_witness :
  let s1 := (nodeUpdate_sync demo_ctx demo_world 5000 demo_selected
               (Some demo_done_resized)).1 in
  (∃ el', store_node (elements s1) "n1" = Some el'
          ∧ label (el_data el') = Some "A"
          ∧ completed (el_data el') = Some true)
  ∧ ∀ s, handleRealtimeNodeUpdate (λ s, s) ascii_trim_is_blank (λ _, O)
           (λ s, s) demo_ctx 8 demo_world 5000 demo_selected
           (Some demo_done_resized) = Some s →
         store_label (elements s) "n1" = Some "A".
Proof.
  apply (update_keeps_the_selected_label (λ s, s) ascii_trim_is_blank
           (λ _, O) (λ s, s) demo_ctx 8 demo_world 5000 demo_selected
           demo_done_resized
           (mkNode "n1"
              (mkData (Some "X") (Some true) (Some (mkRect 300 60)) None None
                 None None))
           (node_el "n1" "A")); try reflexivity.
  by intros e [=].
Defined.

(** * Renders that do not happen *)

Lemma dom_resize_in_place w i rc :
  ∀ e, e ∈ dom_resize w i rc → in_place i e.
Proof.
  intros e. unfold dom_resize. destruct (w_group w i) as [g|]; [|by intros ?%elem_of_nil].
  destruct (g_hasRect g && g_hasText g); [|by intros ?%elem_of_nil].
  intros ->%list_elem_of_singleton. left. eauto.
Qed.

Lemma strikethrough_in_place ctx w i old new :
  ∀ e, e ∈ strikethrough ctx w i old new → in_place i e.
Proof.
  intros e He. destruct (strikethrough_only ctx w i old new e He) as [c ->].
  right. eauto.
Qed.

Lemma tick_patch_d3_in_place ctx w k changed r :
  ∀ e, e ∈ (tick_patch_d3 ctx w k changed r).2 →
       in_place (n_id (uk_remoteNode k)) e.
Proof.
  intros e. unfold tick_patch_d3.
  destruct (find_first _ _) as [d3|]; [|by intros ?%elem_of_nil].
  destruct (rect (n_data (uk_remoteNode k))) as [rc|];
    [destruct (bool_decide (width rc ≠ 0) && bool_decide (height rc ≠ 0))|];
    destruct (completed (n_data (uk_remoteNode k))) as [c|];
    cbn [fst snd]; intros [He|He]%elem_of_app;
    try (by apply elem_of_nil in He);
    eauto using dom_resize_in_place, strikethrough_in_place.
Qed.

(** When the callback of an update runs while the node of the update is
    the node under edit, nothing is laid out or rendered and the
    content and size passes are not scheduled: the only commands are
    the size written to the node's group and the strikethrough of its
    title, and the store stays as it is. *)
Theorem callback_spares_the_node_under_edit ctx fuel w k st :
  same_id (n_id (uk_remoteNode k)) (editingNode st) = true →
  match nodeUpdate_tick ctx fuel w k st with
  | Some (s, scheduled) =>
      scheduled = false ∧ same_store s st
      ∧ ∃ es, trace s = trace st ++ es
              ∧ ∀ e, e ∈ es → in_place (n_id (uk_remoteNode k)) e
  | None => True
  end.
Proof.
  intros Hed. unfold nodeUpdate_tick.
  destruct (renderer st) as [r|] eqn:Hr.
  2:{ split; [done|]. split; [apply same_store_refl|].
      exists []. split; [by rewrite app_nil_r|]. by intros e ?%elem_of_nil. }
  destruct (tick_invalidate fuel k (elements st) r) as [r2|]; [|done].
  cbn [mbind option_bind].
  pose proof (tick_render_returns_early ctx w k st r2 Hed) as Hb.
  pose proof (tick_render_store ctx w k st r2) as Hs.
  assert (∃ es, trace (tick_render ctx w k st r2).1 = trace st ++ es
                ∧ ∀ e, e ∈ es → in_place (n_id (uk_remoteNode k)) e)
    as Htr.
  { unfold tick_render.
    pose proof (tick_patch_d3_in_place ctx w k (changedNodeIds st) r2)
      as Hes.
    destruct (tick_patch_d3 ctx w k (changedNodeIds st) r2) as [r3 es].
    simpl in Hes. exists es. split; [|done].
    cbn [editingNode emit set_renderer]. rewrite Hed.
    by destruct (uk_isNewNode k). }
  by destruct (tick_render ctx w k st r2) as [s b].
Qed.

Lemma callback_spares_witness :
  match nodeUpdate_tick demo_ctx 8 demo_world
          (mkUpdateCont
             (mkNode "n1"
                (mkData (Some "X") (Some true) (Some (mkRect 300 60)) None
                   None None None))
             None (Some "n1") (Some "n1") true false false false)
          demo_fresh with
  | Some (s, scheduled) =>
      scheduled = false ∧ same_store s demo_fresh
      ∧ ∃ es, trace s = trace demo_fresh ++ es
              ∧ ∀ e, e ∈ es → in_place "n1" e
  | None => True
  end.
Proof.
  apply (callback_spares_the_node_under_edit demo_ctx 8 demo_world
           (mkUpdateCont
              (mkNode "n1"
                 (mkData (Some "X") (Some true) (Some (mkRect 300 60)) None
                    None None None))
              None (Some "n1") (Some "n1") true false false false)
           demo_fresh).
  reflexivity.
Defined.

(** A batch that names the node under edit or the selected node and
    brings no new node is applied without a layout and without a
    render while a node is under edit: no command is sent at all. *)
Theorem batch_on_the_open_node_does_not_render ctx fuel w st p r :
  batch_accepted ctx st p = true →
  renderer st = Some r → truthy (editingNode st) = true →
  existsb (is_new (elements st)) (b_nodes p) = false →
  includes (n_id <$> b_nodes p) (editingNode st)
  || includes (n_id <$> b_nodes p) (selectedNode st) = true →
  match handleRealtimeNodesBatchUpdate ctx fuel w st (Some p) with
  | Some s => trace s = trace st ∧ editingNode s = editingNode st
  | None => True
  end.
Proof.
  intros Hacc Hr Hedit Hnew Hin.
  destruct (batch_gates _ _ _ Hacc) as (H1 & H2 & H3 & H4 & H5).
  unfold handleRealtimeNodesBatchUpdate, nodesBatchUpdate_sync.
  rewrite H1, H2, H3, H4, H5. cbv zeta. rewrite Hnew, andb_false_r.
  cbn [renderer set_elements set_order]. rewrite Hr.
  unfold nodesBatchUpdate_tick. cbn [renderer set_elements set_order].
  rewrite Hr.
  destruct (batch_invalidate _ _ _ _) as [r2|]; [|done].
  simpl. unfold batch_render.
  cbn [editingNode set_renderer set_elements set_order bk_hasNewNodes
       bk_remoteNodeUpdates bk_editingNodeId bk_selectedNodeId].
  rewrite Hedit, Hin. simpl. done.
Qed.

Lemma batch_on_the_open_node_witness :
  match handleRealtimeNodesBatchUpdate demo_ctx 8 demo_world demo_dirty
          (Some (mkBatch "doc-1" "bob"
                   [mkNode "n1" (labelled "B"); mkNode "n4" (labelled "D2")]
                   None)) with
  | Some s => trace s = trace demo_dirty ∧ editingNode s = editingNode demo_dirty
  | None => True
  end.
Proof.
  apply (batch_on_the_open_node_does_not_render demo_ctx 8 demo_world
           demo_dirty
           (mkBatch "doc-1" "bob"
              [mkNode "n1" (labelled "B"); mkNode "n4" (labelled "D2")] None)
           demo_renderer); reflexivity.
Defined.

(** * The position cache and the editor across a render *)

(** Invalidating a node's subtree deletes the position entries of the
    node and of its descendants and leaves every other entry as it is,
    on edges that form no cycle. *)
Theorem clearSubtree_clears_exactly_the_subtree els rank fuel nodeId pos :
  ranked els rank = true → (rank nodeId < fuel)%nat →
  ∃ pos', clearSubtree fuel els nodeId pos = Some pos'
          ∧ ∀ x, (x = nodeId ∨ descendant els nodeId x → pos' !! x = None)
                 ∧ (pos' !! x ≠ pos !! x →
                    x = nodeId ∨ descendant els nodeId x).
Proof.
  intros Hranked Hfuel.
  destruct (clearSubtree_spec els rank Hranked fuel nodeId pos Hfuel)
    as (pos' & Hrun & Hself & Hdesc & Hframe).
  exists pos'. split; [done|]. intros x. split.
  - intros [->|Hd]; [done|by apply Hdesc].
  - intros Hne. destruct (Hframe x) as [Heq|[_ [[_ ->]|Hd]]];
      [done|by left|by right].
Qed.

Lemma clearSubtree_exact_witness :
  ∃ pos', clearSubtree 8 demo_elements "n1" demo_positions = Some pos'
          ∧ ∀ x, (x = "n1" ∨ descendant demo_elements "n1" x →
                  pos' !! x = None)
                 ∧ (pos' !! x ≠ demo_positions !! x →
                    x = "n1" ∨ descendant demo_elements "n1" x).
Proof.
  apply (clearSubtree_clears_exactly_the_subtree demo_elements demo_rank 8
           "n1" demo_positions).
  - reflexivity.
  - vm_compute. lia.
Defined.



(** * Sizes *)



Lemma find_first_update_first {A} (p : A → bool) (f : A → A) (l : list A) :
  (∀ x, p x = true → p (f x) = true) →
  find_first p (update_first p f l) = f <$> find_first p l.
Proof.
  intros Hf. induction l as [|x l IH]; simpl; [done|].
  destruct (p x) eqn:Hp; simpl.
  - by rewrite Hf.
  - by rewrite Hp.
Qed.

Lemma find_first_update_other {A} (p q : A → bool) (f : A → A) (l : list A) :
  (∀ x, p x = true → q x = false ∧ q (f x) = false) →
  find_first q (update_first p f l) = find_first q l.
Proof.
  intros Hf. induction l as [|x l IH]; simpl; [done|].
  destruct (p x) eqn:Hp; simpl.
  - destruct (Hf x Hp) as [-> ->]. done.
  - destruct (q x); [done|]. exact IH.
Qed.

(** When [updateNodeSizeWithNewSize] runs for a node that is not under
    edit, the size reaches the size cache, the node in the store and
    the drawing, and the node's position entry is dropped; the size,
    the position and the stored data of every other node stay as they
    are. *)
Theorem size_write_reaches_cache_and_store st i sz r :
  renderer st = Some r → same_id i (editingNode st) = false →
  let s := updateNodeSizeWithNewSize st i sz in
  cached_size s i = Some sz
  ∧ cached_position s i = None
  ∧ (∀ el, store_node (elements st) i = Some el →
       ∃ el', store_node (elements s) i = Some el'
              ∧ rect (el_data el') = Some (mkRect (width sz) (height sz))
              ∧ fixedWidth (el_data el') = Some (width sz)
              ∧ fixedHeight (el_data el') = Some (height sz)
              ∧ label (el_data el') = label (el_data el))
  ∧ trace s = trace st ++ [DomSize i (width sz) (height sz)]
  ∧ ∀ x, x ≠ i →
      cached_size s x = cached_size st x
      ∧ cached_position s x = cached_position st x
      ∧ store_node (elements s) x = store_node (elements st) x.
Proof.
  intros Hr Hed s. subst s. unfold updateNodeSizeWithNewSize.
  rewrite Hed. unfold cached_size, cached_position.
  cbn [renderer with_renderer set_renderer set_elements emit elements trace
       fmap option_fmap option_map]. rewrite Hr.
  cbn [fmap option_fmap option_map mbind option_bind nodeSizeCache positions
       r_delete_position r_write_rect r_set_nodes r_set_sizes r_set_positions
       trace elements].
  split; [by rewrite lookup_insert, decide_True|].
  split.
  { destruct (positions r) as [pos|]; simpl; [|done].
    by rewrite lookup_delete_eq. }
  split.
  { intros el Hel. unfold store_node, store_write_rect.
    rewrite find_first_update_first.
    - unfold store_node in Hel. rewrite Hel. simpl. eexists.
      split; [done|]. by simpl.
    - intros x Hx. unfold has_id, is_node, el_map_data, el_set_data in *.
      by simpl. }
  split; [done|].
  intros x Hx. split; [by rewrite lookup_insert_ne|]. split.
  - destruct (positions r) as [pos|]; simpl; [|done].
    by rewrite lookup_delete_ne.
  - unfold store_node, store_write_rect.
    apply find_first_update_other. intros y Hy.
    apply andb_true_iff in Hy as [Hy _]. unfold has_id in *.
    apply bool_decide_eq_true_1 in Hy. simpl.
    rewrite !bool_decide_eq_false_2 by congruence. done.
Qed.

Lemma size_write_witness :
  let s := updateNodeSizeWithNewSize demo_busy "n4" (mkRect 150 43) in
  cached_size s "n4" = Some (mkRect 150 43)
  ∧ cached_position s "n4" = None
  ∧ store_rect (elements s) "n4" = Some (mkRect 150 43)
  ∧ trace s = [DomSize "n4" 150 43]
  ∧ cached_position s "n1" = Some (200, 0).
Proof.
  intros s.
  destruct (size_write_reaches_cache_and_store demo_busy "n4" (mkRect 150 43)
              demo_renderer) as (H1 & H2 & H3 & H4 & H5);
    [reflexivity|reflexivity|].
  fold s in H1, H2, H3, H4, H5.
  split; [exact H1|]. split; [exact H2|].
  destruct (H3 (node_el "n4" "D") eq_refl) as (el' & Hel' & Hrect & _).
  split; [unfold store_rect; by rewrite Hel'|].
  split; [exact H4|].
  destruct (H5 "n1") as (_ & -> & _); [done|reflexivity].
Defined.

(** * The selected node: the store and the widget *)

Section selected.
Variables (nfc trim : string → string) (imageCount : string → nat)
  (rebuild : string → string).

(** For a node that is not under edit, with a widget that is mounted
    and ready at the first look, the content pass writes the label of
    the event, normalized, whatever the widget shows. *)
Lemma setContentStep_writes w k st l e :
  uk_isNodeBeingEdited k = false →
  w_container w 0 ≠ Some false →
  w_poll w 0 = Some e → usable (Some e) = true →
  label (n_data (uk_remoteNode k)) = Some l → l ≠ "" →
  blank trim (nfc l) = false →
  trace (setContentStep nfc trim imageCount rebuild w k st).1
  = trace st
    ++ [SetContent (n_id (uk_remoteNode k))
          (if bool_decide (2 < imageCount (nfc l))%nat
           then rebuild (nfc l) else nfc l);
        AnimationFrame].
Proof.
  intros Hed Hc Hp Hu Hl Hne Hb.
  unfold setContentStep. rewrite Hed. cbn [andb].
  assert (setContentMounted nfc trim imageCount rebuild w (uk_remoteNode k)
            false st
          = (emit [SetContent (n_id (uk_remoteNode k))
                     (if bool_decide (2 < imageCount (nfc l))%nat
                      then rebuild (nfc l) else nfc l);
                   AnimationFrame] st,
             negb (same_id (n_id (uk_remoteNode k)) (editingNode st))))
    as Hm.
  { unfold setContentMounted.
    simpl in Hu. apply andb_true_iff in Hu as [Hd Hv].
    apply negb_true_iff in Hd.
    assert (checkAndSetContent w 5 0 (w_poll w 0) = ([], Some e)) as ->.
    { rewrite Hp. simpl. by rewrite Hd, Hv. }
    rewrite Hd, Hv, Hl. cbn [default from_option id orb negb].
    assert (truthy_str l = true) as Ht
      by (unfold truthy_str; by apply bool_decide_eq_true_2).
    assert (normalized nfc l = nfc l) as Hnorm
      by (unfold normalized; by rewrite Ht).
    rewrite Ht, Hnorm, Hb, andb_false_r.
    assert (emit [] st = st) as -> by (destruct st; unfold emit; simpl;
                                        by rewrite app_nil_r).
    done. }
  destruct (w_container w 0) as [[|]|]; [|done|]; by rewrite Hm.
Qed.

Lemma tick_render_schedules ctx w k st r2 :
  same_id (n_id (uk_remoteNode k)) (editingNode st) = false →
  (tick_render ctx w k st r2).2 = true.
Proof.
  intros Hed. unfold tick_render.
  destruct (tick_patch_d3 ctx w k (changedNodeIds st) r2) as [r3 es].
  cbn [editingNode emit set_renderer]. rewrite Hed.
  repeat (case_match; try done).
Qed.

Lemma nodeUpdate_sync_flags ctx w now st p n r :
  update_in_scope ctx p = true →
  isSaving st && same_id (u_node_id p) (editingNode st) = false →
  u_node p = Some n →
  same_id (n_id n) (editingNode st) = false →
  renderer st = Some r →
  ∃ s1 k, nodeUpdate_sync ctx w now st (Some p) = (s1, Some k)
          ∧ uk_remoteNode k = n ∧ uk_isNodeBeingEdited k = false
          ∧ editingNode s1 = editingNode st.
Proof.
  intros Hscope Hsave Hnode Hed Hr.
  apply scope_gates in Hscope as [Hg1 Hg2].
  unfold nodeUpdate_sync. rewrite Hg1, Hg2, Hsave, Hnode, Hed.
  cbn [andb negb].
  destruct (hasSaveSnapshot ctx && _), (u_edge p) as [e|];
    cbn [renderer set_order set_elements emit]; rewrite Hr; eauto 10.
Qed.

(** On edges that form no cycle the callback of an update returns:
    the subtree recursion ends within the fuel. *)
Lemma nodeUpdate_tick_returns ctx fuel w k st rank :
  ranked (elements st) rank = true →
  (rank (n_id (uk_remoteNode k)) < fuel)%nat →
  ∃ s b, nodeUpdate_tick ctx fuel w k st = Some (s, b).
Proof.
  intros Hrank Hfuel. unfold nodeUpdate_tick.
  destruct (renderer st) as [r|]; [|eauto].
  assert (∃ r2, tick_invalidate fuel k (elements st) r = Some r2)
    as [r2 ->].
  { unfold tick_invalidate. cbn [positions r_set_sizes].
    destruct (uk_edge k) as [e|]; [|eauto].
    destruct (positions r) as [pos|]; [|eauto].
    destruct (clearSubtree_spec (elements st) rank Hrank fuel
                (n_id (uk_remoteNode k)) pos Hfuel) as (pos' & -> & _).
    simpl. eauto. }
  simpl. destruct (tick_render ctx w k st r2) as [s b]. eauto.
Qed.

(** The store and the widget part ways on the selected node. An update
    for the node that is selected and not under edit runs to its end on
    edges that form no cycle; it leaves the label in the store as it
    is, when that label is not empty, and still writes the label of the
    event to the node's editing widget, once that widget is mounted and
    ready. *)
Theorem selected_node_store_and_widget_part_ways ctx fuel w now st p n el r
    l e rank :
  update_in_scope ctx p = true →
  isSaving st && same_id (u_node_id p) (editingNode st) = false →
  u_node p = Some n →
  same_id (n_id n) (editingNode st) = false →
  same_id (n_id n) (selectedNode st) = true →
  (∀ e, u_edge p = Some e → names_an_end e = true) →
  renderer st = Some r →
  store_node (elements st) (n_id n) = Some el →
  truthy (label (el_data el)) = true →
  label (n_data n) = Some l → l ≠ "" → blank trim (nfc l) = false →
  w_container w 0 ≠ Some false →
  w_poll w 0 = Some e → usable (Some e) = true →
  ranked (elements (nodeUpdate_sync ctx w now st (Some p)).1) rank = true →
  (rank (n_id n) < fuel)%nat →
  ∃ s, handleRealtimeNodeUpdate nfc trim imageCount rebuild ctx fuel w now
         st (Some p) = Some s
       ∧ store_label (elements s) (n_id n) = label (el_data el)
       ∧ SetContent (n_id n)
           (if bool_decide (2 < imageCount (nfc l))%nat
            then rebuild (nfc l) else nfc l) ∈ trace s.
Proof.
  intros Hscope Hsave Hn Hed Hsel Hedge Hr Hel Hlab Hl Hne Hb Hc Hp Hu
    Hrank Hfuel.
  destruct (nodeUpdate_sync_flags ctx w now st p n r Hscope Hsave Hn Hed Hr)
    as (s1 & k & Hsync & Hkn & Hke & He1).
  rewrite Hsync in Hrank. cbn [fst] in Hrank. rewrite <- Hkn in Hfuel.
  destruct (nodeUpdate_tick_returns ctx fuel w k s1 rank Hrank Hfuel)
    as (s2 & b & Ht).
  assert (b = true) as ->.
  { unfold nodeUpdate_tick in Ht.
    destruct (renderer s1) as [r1|] eqn:Hr1.
    - destruct (tick_invalidate fuel k (elements s1) r1) as [r2|]; [|done].
      simpl in Ht. injection Ht as Ht.
      assert (same_id (n_id (uk_remoteNode k)) (editingNode s1) = false)
        as Hx by (by rewrite Hkn, He1).
      pose proof (tick_render_schedules ctx w k s1 r2 Hx) as Hb'.
      by rewrite Ht in Hb'.
    - exfalso. unfold nodeUpdate_sync in Hsync.
      apply scope_gates in Hscope as [Hg1 Hg2].
      rewrite Hg1, Hg2, Hsave, Hn, Hed in Hsync. cbn [andb negb] in Hsync.
      destruct (hasSaveSnapshot ctx && _), (u_edge p) as [e0|];
        cbn [renderer set_order set_elements emit] in Hsync;
        rewrite Hr in Hsync; injection Hsync as <- _;
        cbn [renderer set_order set_elements emit] in Hr1; congruence. }
  assert (handleRealtimeNodeUpdate nfc trim imageCount rebuild ctx fuel w
            now st (Some p)
          = Some (setContentStep nfc trim imageCount rebuild w k s2).1)
    as Hs.
  { unfold handleRealtimeNodeUpdate. rewrite Hsync, Ht. done. }
  eexists. split; [exact Hs|]. split.
  { pose proof (update_result_store _ _ _ _ _ _ _ _ _ _ _ Hs) as [Hels _].
    destruct (nodeUpdate_sync_lookup ctx w now st p n Hscope Hsave Hn Hedge)
      as (Hself & _ & _).
    unfold store_label. rewrite Hels, Hself, Hed, Hsel, Hel. simpl.
    rewrite andb_false_r. unfold update_element. simpl.
    destruct (completed (n_data n)) as [c|] eqn:Hcn.
    - rewrite bool_decide_eq_true_2 by done. simpl.
      by destruct (rect (n_data n)).
    - rewrite bool_decide_eq_false_2 by (by intros Hx; apply Hx). simpl.
      unfold label_or. by rewrite Hlab. }
  rewrite <- Hkn in Hl.
  rewrite (setContentStep_writes w k s2 l e Hke Hc Hp Hu Hl Hne Hb).
  rewrite Hkn. apply elem_of_app. right. apply elem_of_cons. by left.
Qed.

End selected.

Lemma selected_node_witness :
  ∃ s, handleRealtimeNodeUpdate (λ s, s) ascii_trim_is_blank (λ _, O)
         (λ s, s) demo_ctx 8 demo_world 5000 demo_selected
         (Some demo_rewrite_moved) = Some s
       ∧ store_label (elements s) "n1" = Some "A"
       ∧ SetContent "n1" "X" ∈ trace s.
Proof.
  apply (selected_node_store_and_widget_part_ways (λ s, s)
           ascii_trim_is_blank (λ _, O) (λ s, s) demo_ctx 8 demo_world 5000
           demo_selected demo_rewrite_moved (mkNode "n1" (labelled "X"))
           (node_el "n1" "A") demo_renderer "X" demo_editor demo_rank);
    try reflexivity; try done.
  - by intros e [= <-].
  - vm_compute. lia.
Defined.

(** * Waiting for the editor *)

Lemma awaitEditor_gives_up w fuel a :
  (∀ i, (a ≤ i < a + fuel)%nat → usable (w_poll w i) = false) →
  awaitEditor w fuel a
  = (mjoin (replicate fuel [Sleep 50; AnimationFrame]), None).
Proof.
  revert a. induction fuel as [|f IH]; intros a Hno; [done|].
  simpl. rewrite Hno by lia. rewrite IH by (intros i Hi; apply Hno; lia).
  done.
Qed.

(** When the editor does not come back, [restoreEditorState] gives up
    after ten rounds of 50 ms and one frame each: it sets no selection
    and asks for no focus, and a forced render then sends the render
    command and these pauses only. *)
Theorem restore_gives_up_after_ten_rounds w st r n e :
  renderer st = Some r → editingNode st = Some n → truthy_str n = true →
  w_editor w n = Some e → usable (Some e) = true →
  (∀ i, (i < 10)%nat → usable (w_poll w i) = false) →
  safeRender w st true
  = (emit (Render :: mjoin (replicate 10 [Sleep 50; AnimationFrame])) st,
     true).
Proof.
  intros Hr He Hn Hw Hu Hno.
  unfold safeRender, preserveEditorState. rewrite Hr, He.
  cbn [truthy andb negb]. rewrite Hn, Hw. cbn [negb].
  unfold usable in Hu. apply andb_true_iff in Hu as [Hd Hv].
  apply negb_true_iff in Hd. rewrite Hd, Hv. cbn [orb negb].
  unfold restoreEditorState.
  rewrite (awaitEditor_gives_up w 10 0) by (intros i Hi; apply Hno; lia).
  unfold emit. simpl. by rewrite <- app_assoc.
Qed.

Lemma restore_gives_up_witness :
  safeRender
    (mkWorld (λ _, Some demo_editor) (λ _, None) (λ _, true)
       (λ _, Some (mkGroup true true)) (λ _, Some true) (λ _, true) true
       (100, 30) (λ _, mkRect 150 43) true 80)
    demo_dirty true
  = (emit (Render :: mjoin (replicate 10 [Sleep 50; AnimationFrame]))
       demo_dirty, true).
Proof.
  apply (restore_gives_up_after_ten_rounds _ demo_dirty demo_renderer "n1"
           demo_editor); try reflexivity.
Defined.

(** * The socket wrapper *)

Section wrapper.
Import RealTimeHandler.

Lemma wrapper_run_snoc steps s h : run (steps ++ [s]) h = step (run steps h) s.
Proof. unfold run. by rewrite foldl_app. Qed.

Lemma is_subscribe_snoc cs c :
  length (filter (λ c, is_subscribe c) (cs ++ [c]))
  = (length (filter (λ c, is_subscribe c) cs)
     + (if is_subscribe c then 1 else 0))%nat.
Proof.
  rewrite filter_app, length_app. f_equal.
  rewrite filter_cons, filter_nil.
  by destruct (is_subscribe c).
Qed.

Lemma throttled_step h budget s :
  through_methods s = true → throttled h budget →
  throttled (step h s) (budget + (if is_fire s then 1 else 0)).
Proof.
  intros Hs (Ht & Hflag & Hn). unfold throttled.
  destruct s; simpl in *;
    unfold on, off, emit, doc_open, doc_close, publish, emit,
      doc_unsubscribe, doc_subscribe, emit, timer_fires.
  - destruct (socket h); simpl; rewrite ?is_subscribe_snoc; simpl;
      repeat split; try tauto; try lia; destruct (subscribing h); lia.
  - destruct (socket h); simpl; rewrite ?is_subscribe_snoc; simpl;
      repeat split; try tauto; try lia; destruct (subscribing h); lia.
  - apply andb_true_iff in Hs as [Hs _]. apply negb_true_iff in Hs.
    destruct (socket h); simpl; rewrite ?is_subscribe_snoc; simpl;
      rewrite ?Hs; repeat split; try tauto; try lia;
      destruct (subscribing h); lia.
  - destruct (subscribing h) eqn:Hsub; simpl.
    { rewrite Hsub. repeat split; try tauto; lia. }
    assert (timers h = O) as Ht0.
    { destruct (timers h) as [|[|k]] eqn:E; [done| |lia].
      destruct Hflag as [_ Hflag]. by specialize (Hflag eq_refl). }
    case_bool_decide; simpl.
    { rewrite Hsub. repeat split; try tauto; lia. }
    simpl. destruct (socket h); simpl; rewrite ?is_subscribe_snoc; simpl;
      rewrite Ht0; repeat split; try done; lia.
  - destruct (socket h); simpl; rewrite ?is_subscribe_snoc; simpl;
      repeat split; try tauto; try lia; destruct (subscribing h); lia.
  - destruct (socket h); simpl; rewrite ?is_subscribe_snoc; simpl;
      repeat split; try tauto; try lia; destruct (subscribing h); lia.
  - destruct (socket h); simpl; rewrite ?is_subscribe_snoc; simpl;
      repeat split; try tauto; try lia; destruct (subscribing h); lia.
  - apply andb_true_iff in Hs as [Hs _]. apply negb_true_iff in Hs.
    destruct (socket h); simpl; rewrite ?is_subscribe_snoc; simpl;
      rewrite ?Hs; repeat split; try tauto; try lia;
      destruct (subscribing h); lia.
  - destruct (timers h) as [|[|k]] eqn:E; simpl; [| |lia].
    + rewrite E. split; [lia|]. split; [done|].
      destruct (subscribing h); lia.
    + split; [lia|]. split; [done|]. destruct (subscribing h); lia.
Qed.

Lemma throttled_run steps :
  Forall (λ s, through_methods s = true) steps →
  ∀ h budget, throttled h budget →
    throttled (run steps h)
      (budget + length (filter (λ s, is_fire s) steps)).
Proof.
  induction steps as [|s steps IH]; intros Hall h budget Hh.
  - simpl. by rewrite Nat.add_0_r.
  - apply Forall_cons in Hall as [Hs Hall]. simpl.
    pose proof (throttled_step h budget s Hs Hh) as H1.
    specialize (IH Hall _ _ H1).
    rewrite filter_cons. destruct (is_fire s); simpl in *.
    + by replace (budget + S (length (filter (λ s, is_fire s) steps)))%nat
        with (budget + 1 + length (filter (λ s, is_fire s) steps))%nat by lia.
    + by rewrite Nat.add_0_r in IH.
Qed.

(** Whatever is done with a wrapper, at most one of its timers is
    pending and [subscribing] is set exactly while one is; the number
    of [doc_subscribe] messages sent is at most one more than the
    number of times the timer has fired. *)
Theorem doc_subscribe_is_throttled sock steps :
  Forall (λ s, through_methods s = true) steps →
  let h := run steps (new sock) in
  (timers h ≤ 1)%nat
  ∧ (subscribing h = true ↔ timers h = 1%nat)
  ∧ (length (filter (λ c, is_subscribe c) (calls h))
     ≤ S (length (filter (λ s, is_fire s) steps)))%nat.
Proof.
  intros Hall h.
  assert (throttled (new sock) 0) as H0.
  { unfold throttled. simpl. repeat split; try done; lia. }
  destruct (throttled_run steps Hall _ _ H0) as (Ht & Hflag & Hn).
  fold h in Ht, Hflag, Hn. repeat split; try tauto; try lia.
Qed.

Lemma doc_subscribe_is_throttled_witness :
  let steps := [CallDocSubscribe "File" "a"; CallDocSubscribe "File" "b";
                TimerFires; CallDocSubscribe "File" "b";
                CallDocSubscribe "File" "c"] in
  let h := run steps (new true) in
  (timers h ≤ 1)%nat
  ∧ (subscribing h = true ↔ timers h = 1%nat)
  ∧ (length (filter (λ c, is_subscribe c) (calls h))
     ≤ S (length (filter (λ s, is_fire s) steps)))%nat.
Proof.
  apply (doc_subscribe_is_throttled true).
  repeat constructor.
Defined.

Lemma announced_snoc cs c :
  announced (cs ++ [c])
  = match c with
    | SocketEmit e [d; n] =>
        if bool_decide (e = "doc_subscribe") then {[key d n]} ∪ announced cs
        else if bool_decide (e = "doc_unsubscribe")
        then announced cs ∖ {[key d n]}
        else announced cs
    | _ => announced cs
    end.
Proof. unfold announced. by rewrite foldl_app. Qed.

Lemma announced_other cs e a :
  e ≠ "doc_subscribe" → e ≠ "doc_unsubscribe" →
  announced (cs ++ [SocketEmit e a]) = announced cs.
Proof.
  intros H1 H2. rewrite announced_snoc.
  destruct a as [|? [|? [|]]]; try done.
  by rewrite !bool_decide_eq_false_2.
Qed.

Lemma mirror_step h s :
  through_methods s = true →
  open_docs h = announced (calls h) →
  open_docs (step h s) = announced (calls (step h s)).
Proof.
  intros Hs Hh.
  destruct s; simpl in *;
    unfold on, off, emit, doc_open, doc_close, publish, emit,
      doc_unsubscribe, doc_subscribe, emit, timer_fires.
  - destruct (socket h); simpl; by rewrite ?announced_snoc.
  - destruct (socket h); simpl; by rewrite ?announced_snoc.
  - apply andb_true_iff in Hs as [H1 H2].
    apply negb_true_iff, bool_decide_eq_false_1 in H1.
    apply negb_true_iff, bool_decide_eq_false_1 in H2.
    destruct (socket h); simpl; by rewrite ?announced_other.
  - destruct (subscribing h); [done|].
    case_bool_decide; [done|].
    simpl. destruct (socket h); simpl; [|done].
    rewrite announced_snoc. rewrite bool_decide_eq_true_2 by done.
    by rewrite Hh.
  - destruct (socket h); simpl; [|done].
    rewrite announced_snoc. rewrite bool_decide_eq_false_2 by done.
    rewrite bool_decide_eq_true_2 by done. by rewrite Hh.
  - destruct (socket h); simpl; by rewrite ?announced_other.
  - destruct (socket h); simpl; by rewrite ?announced_other.
  - apply andb_true_iff in Hs as [H1 H2].
    apply negb_true_iff, bool_decide_eq_false_1 in H1.
    apply negb_true_iff, bool_decide_eq_false_1 in H2.
    destruct (socket h); simpl; by rewrite ?announced_other.
  - destruct (timers h); by simpl.
Qed.

(** The set [open_docs] is at every moment the set of documents the
    socket has been told are open: those with a [doc_subscribe] message
    and no [doc_unsubscribe] message after it. *)
Theorem open_docs_mirrors_the_messages sock steps :
  Forall (λ s, through_methods s = true) steps →
  open_docs (run steps (new sock))
  = announced (calls (run steps (new sock))).
Proof.
  intros Hall.
  assert (∀ h, open_docs h = announced (calls h) →
               open_docs (run steps h) = announced (calls (run steps h)))
    as Hgen.
  { induction Hall as [|s steps Hs Hall IH]; intros h Hh; [done|].
    simpl. apply IH. by apply mirror_step. }
  by apply Hgen.
Qed.

Lemma open_docs_mirrors_witness :
  let steps := [CallDocSubscribe "File" "a"; TimerFires;
                CallDocSubscribe "File" "b"; CallDocUnsubscribe "File" "a";
                CallPublish "ping" "x"] in
  open_docs (run steps (new true)) = announced (calls (run steps (new true))).
Proof.
  apply (open_docs_mirrors_the_messages true).
  repeat constructor.
Defined.

Lemma key_colon_free d n d' n' :
  no_colon d = true → no_colon d' = true →
  key d n = key d' n' → d = d' ∧ n = n'.
Proof.
  unfold key. revert d'.
  induction d as [|c d IH]; intros [|c' d'] Hd Hd' Hk; simpl in *.
  - by inversion Hk.
  - inversion Hk; subst. by rewrite bool_decide_eq_true_2 in Hd'.
  - inversion Hk; subst. by rewrite bool_decide_eq_true_2 in Hd.
  - inversion Hk; subst.
    apply andb_true_iff in Hd as [_ Hd]. apply andb_true_iff in Hd' as [_ Hd'].
    destruct (IH d' Hd Hd' H1) as [-> ->]. done.
Qed.

(** With doctypes that hold no colon, a document that is not among the
    open ones is never taken for one of them: when the throttle is
    down, [doc_subscribe] sends its message and records the
    document. *)
Theorem doc_subscribe_tells_documents_apart docs d n h :
  Forall (λ p, no_colon p.1 = true) docs → no_colon d = true →
  (d, n) ∉ docs →
  open_docs h = list_to_set ((λ p, key p.1 p.2) <$> docs) →
  socket h = true → subscribing h = false →
  doc_subscribe d n h
  = (set_open_docs ({[key d n]} ∪ open_docs h)
       (call (SocketEmit "doc_subscribe" [d; n])
          (set_timers (S (timers h)) (set_subscribing true h))), Some ()).
Proof.
  intros Hdocs Hd Hnew Hopen Hsock Hsub.
  unfold doc_subscribe, emit. rewrite Hsub.
  rewrite bool_decide_eq_false_2.
  { simpl. by rewrite Hsock. }
  rewrite Hopen. intros Hin.
  apply elem_of_list_to_set, list_elem_of_fmap in Hin as ([d' n'] & Hk & Hin).
  simpl in Hk.
  pose proof (proj1 (Forall_forall _ _) Hdocs _ Hin) as Hd'. simpl in Hd'.
  destruct (key_colon_free _ _ _ _ Hd Hd' Hk) as [-> ->]. done.
Qed.

Lemma doc_subscribe_tells_apart_witness :
  let h := run [CallDocSubscribe "File" "a"; TimerFires] (new true) in
  doc_subscribe "File" "b" h
  = (set_open_docs ({[key "File" "b"]} ∪ open_docs h)
       (call (SocketEmit "doc_subscribe" ["File"; "b"])
          (set_timers (S (timers h)) (set_subscribing true h))), Some ()).
Proof.
  intros h.
  apply (doc_subscribe_tells_documents_apart [("File", "a")] "File" "b" h).
  - repeat constructor.
  - reflexivity.
  - rewrite list_elem_of_singleton. by intros [=].
  - vm_compute. reflexivity.
  - reflexivity.
  - reflexivity.
Defined.

Lemma no_socket_step h s :
  socket h = false → open_docs h = ∅ → calls h = [] →
  socket (step h s) = false ∧ open_docs (step h s) = ∅
  ∧ calls (step h s) = [].
Proof.
  intros Hs Ho Hc.
  destruct s; simpl;
    unfold on, off, doc_open, doc_close, publish, doc_unsubscribe,
      doc_subscribe, emit, timer_fires; simpl; rewrite ?Hs; simpl; try done.
  - destruct (subscribing h); [done|]. by case_bool_decide.
  - by destruct (timers h).
Qed.

(** A wrapper built without a socket never reaches a socket and never
    records a document as open. Its [on], [off] and [publish] return
    without doing anything; [doc_unsubscribe], [doc_open] and
    [doc_close] throw; [doc_subscribe] throws too, after it has set the
    throttle. *)
Theorem wrapper_without_socket steps :
  let h := run steps (new false) in
  open_docs h = ∅ ∧ calls h = []
  ∧ ∀ e c m d n,
      on e c h = (h, Some ()) ∧ off e c h = (h, Some ())
      ∧ publish e m h = (h, Some ())
      ∧ doc_unsubscribe d n h = (h, None)
      ∧ doc_open d n h = (h, None) ∧ doc_close d n h = (h, None)
      ∧ (subscribing h = false →
         doc_subscribe d n h
         = (set_timers (S (timers h)) (set_subscribing true h), None)).
Proof.
  intros h.
  assert (socket h = false ∧ open_docs h = ∅ ∧ calls h = [])
    as (Hs & Ho & Hc).
  { subst h. induction steps as [|s steps IH] using rev_ind; [done|].
    rewrite wrapper_run_snoc. destruct IH as (? & ? & ?).
    by apply no_socket_step. }
  split; [done|]. split; [done|]. intros e c m d n.
  unfold on, off, publish, doc_unsubscribe, doc_open, doc_close, emit.
  rewrite Hs. repeat split. intros Hsub.
  unfold doc_subscribe, emit. rewrite Hsub, Ho.
  rewrite bool_decide_eq_false_2 by apply not_elem_of_empty.
  simpl. by rewrite Hs.
Qed.

Lemma wrapper_without_socket_witness :
  let h := run [CallDocSubscribe "File" "a"; TimerFires] (new false) in
  subscribing h = false
  ∧ doc_subscribe "File" "b" h
    = (set_timers (S (timers h)) (set_subscribing true h), None).
Proof.
  intros h. split; [reflexivity|].
  destruct (wrapper_without_socket [CallDocSubscribe "File" "a"; TimerFires])
    as (_ & _ & H).
  destruct (H "" O "" "File" "b") as (_ & _ & _ & _ & _ & _ & Hsub).
  apply Hsub. reflexivity.
Defined.

(** Subscribing to a document and unsubscribing from it again leaves
    [open_docs] as it was and sends the two messages; the throttle
    stays set, so that a subscription asked for before the timer fires
    is dropped, and a second unsubscription still sends its message and
    reports that the document was not open. *)
Theorem subscribe_then_unsubscribe d n h :
  socket h = true → subscribing h = false → key d n ∉ open_docs h →
  let h2 := (doc_unsubscribe d n (doc_subscribe d n h).1).1 in
  (doc_subscribe d n h).2 = Some ()
  ∧ (doc_unsubscribe d n (doc_subscribe d n h).1).2 = Some true
  ∧ open_docs h2 = open_docs h
  ∧ calls h2 = calls h ++ [SocketEmit "doc_subscribe" [d; n];
                           SocketEmit "doc_unsubscribe" [d; n]]
  ∧ (∀ d' n', doc_subscribe d' n' h2 = (h2, Some ()))
  ∧ doc_unsubscribe d n h2
    = (call (SocketEmit "doc_unsubscribe" [d; n]) h2, Some false).
Proof.
  intros Hs Hsub Hk h2. subst h2.
  unfold doc_subscribe, doc_unsubscribe, emit.
  rewrite Hsub, (bool_decide_eq_false_2 _ Hk). simpl. rewrite Hs. simpl.
  rewrite Hs. simpl.
  assert (({[key d n]} ∪ open_docs h) ∖ {[key d n]} = open_docs h) as Heq.
  { apply set_eq. intros x.
    rewrite elem_of_difference, elem_of_union, elem_of_singleton.
    split; [by intros [[->|?] ?]|].
    intros Hx. split; [by right|]. by intros ->. }
  assert (open_docs h ∖ {[key d n]} = open_docs h) as Heq'.
  { apply set_eq. intros x. rewrite elem_of_difference, elem_of_singleton.
    split; [by intros [? ?]|]. intros Hx. split; [done|]. by intros ->. }
  rewrite Heq.
  split; [done|]. split.
  { f_equal. apply bool_decide_eq_true_2, elem_of_union. left.
    by apply elem_of_singleton. }
  split; [done|]. split; [by rewrite <- app_assoc|].
  split; [done|].
  rewrite Hs. simpl. rewrite (bool_decide_eq_false_2 _ Hk).
  f_equal. unfold set_open_docs, call. simpl. by rewrite Heq'.
Qed.

Lemma subscribe_then_unsubscribe_witness :
  let h := new true in
  let h2 := (doc_unsubscribe "File" "a" (doc_subscribe "File" "a" h).1).1 in
  (doc_subscribe "File" "a" h).2 = Some ()
  ∧ (doc_unsubscribe "File" "a" (doc_subscribe "File" "a" h).1).2 = Some true
  ∧ open_docs h2 = open_docs h
  ∧ calls h2 = calls h ++ [SocketEmit "doc_subscribe" ["File"; "a"];
                           SocketEmit "doc_unsubscribe" ["File"; "a"]]
  ∧ (∀ d' n', doc_subscribe d' n' h2 = (h2, Some ()))
  ∧ doc_unsubscribe "File" "a" h2
    = (call (SocketEmit "doc_unsubscribe" ["File"; "a"]) h2, Some false).
Proof.
  intros h.
  apply (subscribe_then_unsubscribe "File" "a" h).
  - reflexivity.
  - reflexivity.
  - apply not_elem_of_empty.
Defined.

End wrapper.

(** * The cookie lookup *)

Section strings.
#[local] Arguments String.append !_ _ / : simpl nomatch.

Lemma string_app_nil_r (s : string) : s +:+ "" = s.
Proof. induction s; simpl; congruence. Qed.

Lemma string_app_assoc (a b c : string) : (a +:+ b) +:+ c = a +:+ (b +:+ c).
Proof. induction a; simpl; congruence. Qed.

Lemma starts_with_app (a b c : string) :
  starts_with (a +:+ b) (a +:+ c) = starts_with b c.
Proof.
  induction a as [|x a IH]; simpl; [done|].
  by rewrite bool_decide_eq_true_2.
Qed.

(** Two names, each followed by an equals sign: one is a prefix of the
    other only if they are the same name. *)
Lemma starts_with_name (a b r : string) :
  has_char "=" a = false → has_char "=" b = false →
  starts_with (a +:+ "=") (b +:+ "=" +:+ r) = true → a = b.
Proof.
  revert b. induction a as [|x a IH]; intros [|y b] Ha Hb Hp; simpl in *.
  - done.
  - apply andb_true_iff in Hp as [Hp _]. apply bool_decide_eq_true_1 in Hp.
    subst y. by rewrite bool_decide_eq_true_2 in Hb.
  - apply andb_true_iff in Hp as [Hp _]. apply bool_decide_eq_true_1 in Hp.
    subst x. by rewrite bool_decide_eq_true_2 in Ha.
  - apply andb_true_iff in Hp as [Hxy Hp]. apply bool_decide_eq_true_1 in Hxy.
    subst y.
    apply orb_false_iff in Ha as [_ Ha]. apply orb_false_iff in Hb as [_ Hb].
    f_equal. by apply IH.
Qed.

(** Text without the first character of the separator is read
    through. *)
Lemma split_go_through (sp t cur rest : string) c :
  has_char c t = false →
  split_go (String c sp) 0 cur (t +:+ rest)
  = split_go (String c sp) 0 (cur +:+ t) rest.
Proof.
  revert cur. induction t as [|x t IH]; intros cur Ht; simpl in *.
  - by rewrite string_app_nil_r.
  - apply orb_false_iff in Ht as [Hx Ht]. apply bool_decide_eq_false_1 in Hx.
    rewrite (bool_decide_eq_false_2 (c = x)) by congruence. simpl.
    rewrite IH by done. by rewrite string_app_assoc.
Qed.

(** A matched separator is passed over. *)
Lemma split_go_skip (sp t cur rest : string) :
  split_go sp (String.length t) cur (t +:+ rest) = split_go sp 0 cur rest.
Proof. induction t as [|x t IH]; simpl; [done|]. apply IH. Qed.

Lemma has_char_app c (a b : string) :
  has_char c (a +:+ b) = has_char c a || has_char c b.
Proof. induction a; simpl; [done|]. by rewrite IHa, orb_assoc. Qed.

End strings.

Section cookies.
#[local] Arguments String.append !_ _ / : simpl nomatch.
Variable name : string.
Hypothesis name_syntax : has_char ";" name = false ∧ has_char "=" name = false.

Lemma split_go_other p cur rest :
  cookie_syntax p = true → p.1 ≠ name →
  split_go (cookie_separator name) 0 cur (cookie_chunk p +:+ rest)
  = split_go (cookie_separator name) 0 (cur +:+ cookie_chunk p) rest.
Proof.
  intros Hp Hne. unfold cookie_syntax in Hp.
  apply andb_true_iff in Hp as [Hp Hv]. apply andb_true_iff in Hp as [Hk He].
  apply negb_true_iff in Hk, He, Hv.
  unfold cookie_chunk, cookie_separator. simpl.
  destruct (starts_with _ _) eqn:Hpre.
  { exfalso. apply Hne. symmetry.
    destruct name_syntax as [_ Hn].
    apply (starts_with_name name p.1 (p.2 +:+ rest)); try done.
    rewrite string_app_assoc in Hpre. exact Hpre. }
  rewrite split_go_through.
  - f_equal. rewrite !string_app_assoc. simpl. done.
  - rewrite has_char_app. simpl. by rewrite Hk, Hv.
Qed.

Lemma split_go_named v cur rest :
  has_char ";" v = false →
  split_go (cookie_separator name) 0 cur (cookie_chunk (name, v) +:+ rest)
  = cur :: split_go (cookie_separator name) 0 v rest.
Proof.
  intros Hv. unfold cookie_chunk, cookie_separator. simpl.
  replace ((name +:+ String "=" v) +:+ rest)
    with ((name +:+ "=") +:+ (v +:+ rest))
    by (rewrite !string_app_assoc; simpl; done).
  rewrite <- (string_app_nil_r (name +:+ "=")) at 1.
  rewrite starts_with_app. simpl.
  f_equal. rewrite split_go_skip.
  by rewrite split_go_through.
Qed.

Lemma jar_text_value jar :
  jar ≠ [] → "; " +:+ cookie_string jar = jar_text jar.
Proof.
  unfold cookie_string. induction jar as [|p [|q jar] IH]; intros Hne.
  - done.
  - simpl. unfold cookie_chunk. simpl. by rewrite !string_app_nil_r.
  - specialize (IH ltac:(done)).
    change (jar_text (p :: q :: jar))
      with (cookie_chunk p +:+ jar_text (q :: jar)).
    rewrite <- IH. unfold cookie_chunk.
    change ((λ p, p.1 +:+ "=" +:+ p.2) <$> p :: q :: jar)
      with ((p.1 +:+ "=" +:+ p.2)
            :: ((λ p, p.1 +:+ "=" +:+ p.2) <$> q :: jar)).
    change (String.concat "; " (?x :: ?l)) with (x +:+ "; " +:+ String.concat "; " l).
    simpl. by rewrite !string_app_assoc.
Qed.

Lemma split_go_absent jar cur :
  forallb cookie_syntax jar = true →
  filter (λ p, p.1 = name) jar = [] →
  split_go (cookie_separator name) 0 cur (jar_text jar)
  = [cur +:+ jar_text jar].
Proof.
  revert cur. induction jar as [|p jar IH]; intros cur Hs Hf.
  - simpl. by rewrite string_app_nil_r.
  - change (jar_text (p :: jar)) with (cookie_chunk p +:+ jar_text jar).
    simpl in Hs. apply andb_true_iff in Hs as [Hp Hs].
    rewrite filter_cons in Hf. destruct (decide (p.1 = name)); [done|].
    rewrite split_go_other by done. rewrite IH by done.
    by rewrite string_app_assoc.
Qed.

Lemma split_go_count jar cur :
  forallb cookie_syntax jar = true →
  length (split_go (cookie_separator name) 0 cur (jar_text jar))
  = S (length (filter (λ p, p.1 = name) jar)).
Proof.
  revert cur. induction jar as [|p jar IH]; intros cur Hs; [done|].
  change (jar_text (p :: jar)) with (cookie_chunk p +:+ jar_text jar).
  simpl in Hs. apply andb_true_iff in Hs as [Hp Hs].
  rewrite filter_cons. destruct (decide (p.1 = name)) as [Heq|Hne].
  - destruct p as [k v]. simpl in Heq. subst k.
    rewrite split_go_named.
    + simpl. by rewrite IH.
    + unfold cookie_syntax in Hp. apply andb_true_iff in Hp as [_ Hp].
      by apply negb_true_iff in Hp.
  - rewrite split_go_other by done. by apply IH.
Qed.

(** A value is read up to the semicolon that follows it, or to the
    end. *)
Lemma head_split_value v jar :
  has_char ";" v = false →
  head (split ";" (v +:+ jar_text jar)) = Some v.
Proof.
  intros Hv. unfold split.
  rewrite (split_go_through "" v "" (jar_text jar) ";") by done.
  destruct jar as [|p jar]; simpl; [done|].
  unfold cookie_chunk. simpl. done.
Qed.

Lemma cookie_of_jar_text jar cur :
  forallb cookie_syntax jar = true →
  cookie_of_parts (split_go (cookie_separator name) 0 cur (jar_text jar))
  = match filter (λ p, p.1 = name) jar with
    | [p] => Some p.2
    | _ => None
    end.
Proof.
  revert cur. induction jar as [|p jar IH]; intros cur Hs; [done|].
  pose proof Hs as Hall.
  simpl in Hs. apply andb_true_iff in Hs as [Hp Hs].
  rewrite filter_cons. destruct (decide (p.1 = name)) as [Heq|Hne].
  - destruct p as [k v]. simpl in Heq. subst k.
    assert (has_char ";" v = false) as Hv.
    { unfold cookie_syntax in Hp. apply andb_true_iff in Hp as [_ Hp].
      by apply negb_true_iff in Hp. }
    change (jar_text ((name, v) :: jar))
      with (cookie_chunk (name, v) +:+ jar_text jar).
    rewrite split_go_named by done.
    destruct (filter (λ p, p.1 = name) jar) as [|q l] eqn:Hf.
    + rewrite split_go_absent by done.
      unfold cookie_of_parts. simpl. by apply head_split_value.
    + unfold cookie_of_parts.
      rewrite bool_decide_eq_false_2; [done|].
      simpl. rewrite split_go_count by done. rewrite Hf. simpl. lia.
  - change (jar_text (p :: jar)) with (cookie_chunk p +:+ jar_text jar).
    rewrite split_go_other by done. by apply IH.
Qed.

Lemma cookie_of_empty :
  cookie_of_parts (split (cookie_separator name) "; ") = None.
Proof.
  unfold split, cookie_separator. simpl.
  destruct name; simpl; done.
Qed.

End cookies.

(** [getCookie] reads a cookie jar: it returns the value of the cookie
    with the given name when the jar holds that name exactly once, and
    nothing when the name is absent or is there more than once. *)
Theorem getCookie_reads_the_jar jar name :
  has_char ";" name = false → has_char "=" name = false →
  forallb cookie_syntax jar = true →
  getCookie (cookie_string jar) name
  = match filter (λ p, p.1 = name) jar with
    | [p] => Some p.2
    | _ => None
    end.
Proof.
  intros H1 H2 Hjar.
  change (getCookie (cookie_string jar) name)
    with (cookie_of_parts
            (split (cookie_separator name) ("; " +:+ cookie_string jar))).
  destruct jar as [|p jar].
  - by rewrite cookie_of_empty.
  - rewrite jar_text_value by done. unfold split.
    by apply cookie_of_jar_text.
Qed.

Lemma getCookie_reads_the_jar_witness :
  getCookie
    (cookie_string [("sid", "abc"); ("xsite_name", "other");
                    ("site_name", "drive.local"); ("theme", "dark")])
    "site_name"
  = Some "drive.local".
Proof.
  apply (getCookie_reads_the_jar
           [("sid", "abc"); ("xsite_name", "other");
            ("site_name", "drive.local"); ("theme", "dark")] "site_name");
    reflexivity.
Defined.

(** * UUID generation *)

Section uuid.
#[local] Arguments String.append !_ _ / : simpl nomatch.

Lemma to_int32_random (x : Q) :
  (0 <= x)%Q → (x < 1)%Q → 0 ≤ to_int32 (x * 16) < 16.
Proof.
  intros H0 H1. unfold to_int32.
  assert (0 <= x * 16)%Q as Hpos.
  { destruct x as [n d]. unfold Qle in *. simpl in *. lia. }
  assert (x * 16 < 16)%Q as Hlt.
  { destruct x as [n d]. unfold Qlt in *. simpl in *.
    rewrite Pos.mul_1_r. lia. }
  apply Qle_bool_iff in Hpos as Hb. rewrite Hb.
  assert (0 ≤ Qfloor (x * 16)) as Hf0.
  { change 0 with (Qfloor 0). by apply Qfloor_resp_le. }
  assert (Qfloor (x * 16) < 16) as Hf1.
  { rewrite Zlt_Qlt. eapply Qle_lt_trans; [apply Qfloor_le|]. exact Hlt. }
  rewrite Z.mod_small by lia.
  rewrite bool_decide_eq_true_2 by lia. lia.
Qed.

Lemma toString16_digit v :
  0 ≤ v < 16 → toString16 v = String (hex_digit v) "".
Proof.
  intros Hv. unfold toString16.
  rewrite bool_decide_eq_false_2 by lia. simpl.
  rewrite bool_decide_eq_true_2 by lia.
  by rewrite Z.mod_small by lia.
Qed.

Lemma hex_digit_is_hex v :
  0 ≤ v < 16 → has_char (hex_digit v) "0123456789abcdef" = true.
Proof.
  intros Hv.
  assert (v = 0 ∨ v = 1 ∨ v = 2 ∨ v = 3 ∨ v = 4 ∨ v = 5 ∨ v = 6 ∨ v = 7
          ∨ v = 8 ∨ v = 9 ∨ v = 10 ∨ v = 11 ∨ v = 12 ∨ v = 13 ∨ v = 14
          ∨ v = 15) as Hcases by lia.
  repeat (destruct Hcases as [->|Hcases]; [by vm_compute|]).
  subst v. by vm_compute.
Qed.

Lemma hex_digit_is_variant r :
  0 ≤ r < 16 → has_char (hex_digit (Z.lor (Z.land r 3) 8)) "89ab" = true.
Proof.
  intros Hr.
  assert (r = 0 ∨ r = 1 ∨ r = 2 ∨ r = 3 ∨ r = 4 ∨ r = 5 ∨ r = 6 ∨ r = 7
          ∨ r = 8 ∨ r = 9 ∨ r = 10 ∨ r = 11 ∨ r = 12 ∨ r = 13 ∨ r = 14
          ∨ r = 15) as Hcases by lia.
  repeat (destruct Hcases as [->|Hcases]; [by vm_compute|]).
  subst r. by vm_compute.
Qed.

Lemma variant_range r : 0 ≤ r < 16 → 0 ≤ Z.lor (Z.land r 3) 8 < 16.
Proof.
  intros Hr.
  assert (r = 0 ∨ r = 1 ∨ r = 2 ∨ r = 3 ∨ r = 4 ∨ r = 5 ∨ r = 6 ∨ r = 7
          ∨ r = 8 ∨ r = 9 ∨ r = 10 ∨ r = 11 ∨ r = 12 ∨ r = 13 ∨ r = 14
          ∨ r = 15) as Hcases by lia.
  repeat (destruct Hcases as [->|Hcases]; [by vm_compute|]).
  subst r. by vm_compute.
Qed.

Lemma fits_template_length t s :
  fits_template t s = true → String.length s = String.length t.
Proof.
  revert s. induction t as [|a t IH]; intros [|b s] H; simpl in *; try done.
  apply andb_true_iff in H as [_ H]. f_equal. by apply IH.
Qed.

Lemma replace_xy_fits random template k :
  (∀ k, 0 <= random k ∧ random k < 1)%Q →
  fits_template template (replace_xy random k template) = true.
Proof.
  intros Hrandom. revert k.
  induction template as [|c t IH]; intros k; simpl; [done|].
  destruct (Hrandom k) as [H0 H1].
  pose proof (to_int32_random _ H0 H1) as Hr.
  case_bool_decide as Hx; simpl.
  - subst c. unfold uuid_digit. rewrite bool_decide_eq_true_2 by done.
    rewrite toString16_digit by done. simpl. rewrite IH, andb_true_r.
    unfold fits. rewrite bool_decide_eq_true_2 by done.
    by apply hex_digit_is_hex.
  - case_bool_decide as Hy; simpl.
    + subst c. unfold uuid_digit. rewrite bool_decide_eq_false_2 by done.
      rewrite toString16_digit by (by apply variant_range).
      simpl. rewrite IH, andb_true_r.
      unfold fits. rewrite bool_decide_eq_false_2 by done.
      rewrite bool_decide_eq_true_2 by done.
      by apply hex_digit_is_variant.
    + rewrite IH, andb_true_r. unfold fits.
      rewrite !bool_decide_eq_false_2 by done.
      by apply bool_decide_eq_true_2.
Qed.

End uuid.

(** Where [crypto.randomUUID] is missing, the identifier built from
    [Math.random] has the shape of a version-4 UUID: 36 characters, the
    four hyphens and the version digit [4] in place, one of [8 9 a b]
    as the variant digit, and a lowercase hex digit everywhere else. *)
Theorem generateUUID_has_version_4_shape random :
  (∀ k, 0 <= random k ∧ random k < 1)%Q →
  String.length (generateUUID None random) = 36%nat
  ∧ fits_template "xxxxxxxx-xxxx-4xxx-yxxx-xxxxxxxxxxxx"
      (generateUUID None random) = true.
Proof.
  intros Hrandom.
  pose proof (replace_xy_fits random "xxxxxxxx-xxxx-4xxx-yxxx-xxxxxxxxxxxx"
                0 Hrandom) as Hfits.
  split; [|exact Hfits].
  exact (fits_template_length _ _ Hfits).
Qed.

Lemma generateUUID_shape_witness :
  String.length (generateUUID None (λ k, (Z.of_nat k mod 16) # 16)) = 36%nat
  ∧ fits_template "xxxxxxxx-xxxx-4xxx-yxxx-xxxxxxxxxxxx"
      (generateUUID None (λ k, (Z.of_nat k mod 16) # 16)) = true.
Proof.
  apply (generateUUID_has_version_4_shape (λ k, (Z.of_nat k mod 16) # 16)).
  intros k. unfold Qle, Qlt. simpl.
  pose proof (Z.mod_pos_bound (Z.of_nat k) 16 ltac:(lia)). lia.
Defined.
